(** * Stash: filter expression engine and library scan reconciliation

    A shallow embedding of two parts of the Go sources:

    - package [sqlite]: the [filterBuilder] tree (joins, where and having
      clauses, sub-filter composition, deferred error), the criterion
      handlers that fill it, and the [queryBuilder] that consumes it;
    - package [manager]: the scan task ([scanGallery], [scanScene],
      [scanImage]) that reconciles one file on disk with the catalog.

    Go strings are byte strings and are embedded as [string]; slices are
    lists; a pointer that may be nil is an [option]; a Go result pair
    [(value, err)] is a pair whose second component is [option error].
    Methods that mutate their receiver return the updated receiver. *)

From Stdlib Require Import List String Ascii ZArith Bool Arith Lia DecimalString.
Import ListNotations.
Open Scope string_scope.

(* ================================================================== *)
(** * Part I. Package sqlite: definitions *)
(* ================================================================== *)

(** ** Go standard library helpers used by the sources *)

(** A Go [error] value is identified with its message. *)
Definition error := string.

Definition quoteChar : ascii := ascii_of_nat 34.
Definition quoteStr : string := String quoteChar EmptyString.

(** [strings.Join]. *)
Definition Join (elems : list string) (sep : string) : string :=
  String.concat sep elems.

(** [strings.Repeat]. *)
Fixpoint Repeat (s : string) (count : nat) : string :=
  match count with
  | O => ""
  | S n => s ++ Repeat s n
  end.

Fixpoint inCutset (c : ascii) (cutset : string) : bool :=
  match cutset with
  | EmptyString => false
  | String d rest => Ascii.eqb c d || inCutset c rest
  end.

(** [strings.TrimLeft], [strings.TrimRight], [strings.Trim]. *)
Fixpoint TrimLeft (s cutset : string) : string :=
  match s with
  | EmptyString => ""
  | String c rest => if inCutset c cutset then TrimLeft rest cutset else s
  end.

Fixpoint TrimRight (s cutset : string) : string :=
  match s with
  | EmptyString => ""
  | String c rest =>
      let rest' := TrimRight rest cutset in
      if (rest' =? "") && inCutset c cutset then "" else String c rest'
  end.

Definition Trim (s cutset : string) : string :=
  TrimLeft (TrimRight s cutset) cutset.

(** [strings.Split] for a one-byte separator. *)
Fixpoint Split (s : string) (sep : ascii) : list string :=
  match s with
  | EmptyString => [""]
  | String c rest =>
      if Ascii.eqb c sep then "" :: Split rest sep
      else match Split rest sep with
           | h :: t => String c h :: t
           | [] => [String c ""]
           end
  end.

(** [strconv.Itoa] on a slice length. *)
Definition Itoa (n : nat) : string :=
  NilEmpty.string_of_uint (Nat.to_uint n).

(** ** Clauses and joins *)

(** A value bound to a positional parameter ([interface{}] in the source). *)
Inductive arg : Type :=
| ArgString (s : string)
| ArgInt (n : Z).

Record sqlClause : Type := makeClause {
  sql : string;
  args : list arg
}.

Record join : Type := mkJoin {
  table : string;
  as_ : string;
  onClause : string
}.

(** alias returns the as string, or the table if as is empty *)
Definition alias (j : join) : string :=
  if as_ j =? "" then table j else as_ j.

(** equals returns true if the other join alias/table is equal to this one *)
Definition equals (j o : join) : bool :=
  alias j =? alias o.

Definition join_toSQL (j : join) : string :=
  let asStr :=
    if negb (as_ j =? "") && negb (as_ j =? table j)
    then " AS " ++ as_ j else "" in
  "LEFT JOIN " ++ table j ++ asStr ++ " ON " ++ onClause j.

Definition joins := list join.

(** [joins.add]: the outer loop runs over [newJoins]; the inner loop looks
    for an equal join in the receiver and, when it finds one, executes
    [return], which leaves the whole method. *)
Fixpoint joins_add (j : joins) (newJoins : list join) : joins :=
  match newJoins with
  | [] => j
  | newJoin :: rest =>
      if existsb (fun jj => equals jj newJoin) j then j
      else joins_add (j ++ [newJoin])%list rest
  end.

Definition joins_toSQL (j : joins) : string :=
  Join (map join_toSQL j) " ".

(** ** The filter builder *)

Unset Elimination Schemes.
Inductive filterBuilder : Type := mkFilterBuilder {
  subFilter : option filterBuilder;
  subFilterOp : string;
  fjoins : joins;
  whereClauses : list sqlClause;
  havingClauses : list sqlClause;
  err : option error
}.
Set Elimination Schemes.

(** The zero value [&filterBuilder{}]. *)
Definition emptyFilter : filterBuilder :=
  mkFilterBuilder None "" [] [] [] None.

Definition errSubFilterAlreadySet : error := "sub-filter already set".

Definition andOp : string := "AND".
Definition orOp : string := "OR".
Definition notOp : string := "AND NOT".

Definition setError (f : filterBuilder) (e : error) : filterBuilder :=
  match err f with
  | None => mkFilterBuilder (subFilter f) (subFilterOp f) (fjoins f)
              (whereClauses f) (havingClauses f) (Some e)
  | Some _ => f
  end.

Definition setSubFilter (f : filterBuilder) (a : option filterBuilder)
    (op : string) : filterBuilder :=
  mkFilterBuilder a op (fjoins f) (whereClauses f) (havingClauses f) (err f).

(** [and], [or], [not]: the argument is a pointer and may be nil. *)
Definition f_and (f : filterBuilder) (a : option filterBuilder) : filterBuilder :=
  match subFilter f with
  | Some _ => setError f errSubFilterAlreadySet
  | None => setSubFilter f a andOp
  end.

Definition f_or (f : filterBuilder) (o : option filterBuilder) : filterBuilder :=
  match subFilter f with
  | Some _ => setError f errSubFilterAlreadySet
  | None => setSubFilter f o orOp
  end.

Definition f_not (f : filterBuilder) (n : option filterBuilder) : filterBuilder :=
  match subFilter f with
  | Some _ => setError f errSubFilterAlreadySet
  | None => setSubFilter f n notOp
  end.

Definition addJoin (f : filterBuilder) (table as_ onClause : string) : filterBuilder :=
  let newJoin := mkJoin table as_ onClause in
  mkFilterBuilder (subFilter f) (subFilterOp f) (joins_add (fjoins f) [newJoin])
    (whereClauses f) (havingClauses f) (err f).

Definition addWhere (f : filterBuilder) (sql : string) (args : list arg) : filterBuilder :=
  if sql =? "" then f
  else mkFilterBuilder (subFilter f) (subFilterOp f) (fjoins f)
         (whereClauses f ++ [makeClause sql args])%list (havingClauses f) (err f).

Definition addHaving (f : filterBuilder) (sql : string) (args : list arg) : filterBuilder :=
  if sql =? "" then f
  else mkFilterBuilder (subFilter f) (subFilterOp f) (fjoins f)
         (whereClauses f) (havingClauses f ++ [makeClause sql args])%list (err f).

Definition getSubFilterClause (f : filterBuilder) (clause subFilterClause : string) : string :=
  let ret := clause in
  if negb (subFilterClause =? "") then
    let op :=
      if (0 <? String.length ret)%nat then " " ++ subFilterOp f ++ " "
      else if subFilterOp f =? notOp then "NOT " else "" in
    ret ++ op ++ subFilterClause
  else ret.

Definition andClauses (input : list sqlClause) : string * list arg :=
  let clauses := map sql input in
  let args := flat_map args input in
  if (0 <? List.length clauses)%nat
  then ("(" ++ Join clauses " AND " ++ ")", args)
  else ("", []).

Fixpoint generateWhereClauses (f : filterBuilder) : string * list arg :=
  match f with
  | mkFilterBuilder sub op _ wheres _ _ =>
      let '(clause, args) := andClauses wheres in
      match sub with
      | Some s =>
          let '(c, a) := generateWhereClauses s in
          if negb (c =? "") then
            (getSubFilterClause f clause c,
             if (0 <? List.length a)%nat then (args ++ a)%list else args)
          else (clause, args)
      | None => (clause, args)
      end
  end.

Fixpoint generateHavingClauses (f : filterBuilder) : string * list arg :=
  match f with
  | mkFilterBuilder sub op _ _ havings _ =>
      let '(clause, args) := andClauses havings in
      match sub with
      | Some s =>
          let '(c, a) := generateHavingClauses s in
          if negb (c =? "") then
            (clause ++ " " ++ op ++ " " ++ c,
             if (0 <? List.length a)%nat then (args ++ a)%list else args)
          else (clause, args)
      | None => (clause, args)
      end
  end.

Fixpoint getAllJoins (f : filterBuilder) : joins :=
  match f with
  | mkFilterBuilder sub _ js _ _ _ =>
      let ret := joins_add [] js in
      match sub with
      | Some s =>
          let subJoins := getAllJoins s in
          if (0 <? List.length subJoins)%nat then joins_add ret subJoins else ret
      | None => ret
      end
  end.

Fixpoint getError (f : filterBuilder) : option error :=
  match f with
  | mkFilterBuilder sub _ _ _ _ e =>
      match e with
      | Some _ => e
      | None =>
          match sub with
          | Some s => getError s
          | None => None
          end
      end
  end.

(** ** Criterion inputs *)

(** Modelled from the spec: the comparison modifier enum of the generated
    [models] package, which is not among the sources.  The spec lists the
    modifiers (equals, not-equals, includes, excludes, greater-than,
    less-than, is-null, not-null, matches-regex, not-matches-regex,
    includes-all); the enum is string-backed, so a value outside the list
    exists and is the only one for which [IsValid] is false. *)
Inductive CriterionModifier : Type :=
| CriterionModifierEquals
| CriterionModifierNotEquals
| CriterionModifierGreaterThan
| CriterionModifierLessThan
| CriterionModifierIsNull
| CriterionModifierNotNull
| CriterionModifierIncludesAll
| CriterionModifierIncludes
| CriterionModifierExcludes
| CriterionModifierMatchesRegex
| CriterionModifierNotMatchesRegex
| CriterionModifierOther (s : string).

Definition IsValid (m : CriterionModifier) : bool :=
  match m with
  | CriterionModifierOther _ => false
  | _ => true
  end.

Definition CriterionModifier_String (m : CriterionModifier) : string :=
  match m with
  | CriterionModifierEquals => "EQUALS"
  | CriterionModifierNotEquals => "NOT_EQUALS"
  | CriterionModifierGreaterThan => "GREATER_THAN"
  | CriterionModifierLessThan => "LESS_THAN"
  | CriterionModifierIsNull => "IS_NULL"
  | CriterionModifierNotNull => "NOT_NULL"
  | CriterionModifierIncludesAll => "INCLUDES_ALL"
  | CriterionModifierIncludes => "INCLUDES"
  | CriterionModifierExcludes => "EXCLUDES"
  | CriterionModifierMatchesRegex => "MATCHES_REGEX"
  | CriterionModifierNotMatchesRegex => "NOT_MATCHES_REGEX"
  | CriterionModifierOther s => s
  end.

Record StringCriterionInput : Type := mkStringCriterionInput {
  sci_Value : string;
  sci_Modifier : CriterionModifier
}.

Record MultiCriterionInput : Type := mkMultiCriterionInput {
  mci_Value : list string;
  mci_Modifier : CriterionModifier
}.

(** ** Clause text helpers *)

Definition getSearchBinding (columns : list string) (q : string) (not : bool)
    : string * list arg :=
  let notStr := if not then " NOT" else "" in
  let binaryType := if not then " AND " else " OR " in
  let queryWords := Split q " "%char in
  let trimmedQuery := Trim q quoteStr in
  let '(likeClauses, args) :=
    if trimmedQuery =? q then
      (flat_map (fun word => map (fun column => column ++ notStr ++ " LIKE ?") columns)
         queryWords,
       flat_map (fun word => map (fun column => ArgString ("%" ++ word ++ "%")) columns)
         queryWords)
    else
      (map (fun column => column ++ notStr ++ " LIKE ?") columns,
       map (fun column => ArgString ("%" ++ trimmedQuery ++ "%")) columns) in
  let likes := Join likeClauses binaryType in
  ("(" ++ likes ++ ")", args).

Definition getInBinding (length : nat) : string :=
  let bindings := Repeat "?, " length in
  let bindings := TrimRight bindings ", " in
  "(" ++ bindings ++ ")".

Definition getSimpleCriterionClause (criterionModifier : CriterionModifier)
    (rhs : string) : string * nat :=
  if IsValid criterionModifier then
    let modifier := CriterionModifier_String criterionModifier in
    if modifier =? "EQUALS" then ("= " ++ rhs, 1)
    else if modifier =? "NOT_EQUALS" then ("!= " ++ rhs, 1)
    else if modifier =? "GREATER_THAN" then ("> " ++ rhs, 1)
    else if modifier =? "LESS_THAN" then ("< " ++ rhs, 1)
    else if modifier =? "IS_NULL" then ("IS NULL", 0)
    else if modifier =? "NOT_NULL" then ("IS NOT NULL", 0)
    else ("= ?", 1)
  else ("= ?", 1).

(** returns where clause and having clause *)
Definition getMultiCriterionClause
    (primaryTable foreignTable joinTable primaryFK foreignFK : string)
    (criterion : MultiCriterionInput) : string * string :=
  match mci_Modifier criterion with
  | CriterionModifierIncludes =>
      (foreignTable ++ ".id IN " ++ getInBinding (List.length (mci_Value criterion)), "")
  | CriterionModifierIncludesAll =>
      (foreignTable ++ ".id IN " ++ getInBinding (List.length (mci_Value criterion)),
       "count(distinct " ++ foreignTable ++ ".id) IS "
         ++ Itoa (List.length (mci_Value criterion)))
  | CriterionModifierExcludes =>
      if negb (joinTable =? "") then
        ("not exists (select " ++ joinTable ++ "." ++ primaryFK ++ " from " ++ joinTable
           ++ " where " ++ joinTable ++ "." ++ primaryFK ++ " = " ++ primaryTable
           ++ ".id and " ++ joinTable ++ "." ++ foreignFK ++ " in "
           ++ getInBinding (List.length (mci_Value criterion)) ++ ")", "")
      else
        ("not exists (select s.id from " ++ primaryTable ++ " as s where s.id = "
           ++ primaryTable ++ ".id and s." ++ foreignFK ++ " in "
           ++ getInBinding (List.length (mci_Value criterion)) ++ ")", "")
  | _ => ("", "")
  end.

(** ** Criterion handlers *)

Definition criterionHandlerFunc := filterBuilder -> filterBuilder.

Section StringCriterion.

(** [regexp.Compile] of the Go standard library, reduced to the error
    it returns: [None] when the pattern compiles. *)
Variable regexp_Compile : string -> option error.

Definition stringCriterionHandler (c : option StringCriterionInput)
    (column : string) : criterionHandlerFunc :=
  fun f =>
    match c with
    | None => f
    | Some c =>
        let modifier := sci_Modifier c in
        if IsValid (sci_Modifier c) then
          match modifier with
          | CriterionModifierIncludes =>
              let '(clause, thisArgs) := getSearchBinding [column] (sci_Value c) false in
              addWhere f clause thisArgs
          | CriterionModifierExcludes =>
              let '(clause, thisArgs) := getSearchBinding [column] (sci_Value c) true in
              addWhere f clause thisArgs
          | CriterionModifierEquals =>
              addWhere f (column ++ " LIKE ?") [ArgString (sci_Value c)]
          | CriterionModifierNotEquals =>
              addWhere f (column ++ " NOT LIKE ?") [ArgString (sci_Value c)]
          | CriterionModifierMatchesRegex =>
              match regexp_Compile (sci_Value c) with
              | Some err => setError f err
              | None => addWhere f (column ++ " regexp ?") [ArgString (sci_Value c)]
              end
          | CriterionModifierNotMatchesRegex =>
              match regexp_Compile (sci_Value c) with
              | Some err => setError f err
              | None => addWhere f (column ++ " NOT regexp ?") [ArgString (sci_Value c)]
              end
          | _ =>
              let '(clause, count) := getSimpleCriterionClause modifier "?" in
              if (count =? 1)%nat
              then addWhere f (column ++ " " ++ clause) [ArgString (sci_Value c)]
              else addWhere f (column ++ " " ++ clause) []
          end
        else f
    end.

End StringCriterion.

Record multiCriterionHandlerBuilder : Type := mkMultiCriterionHandlerBuilder {
  primaryTable : string;
  foreignTable : string;
  joinTable : string;
  primaryFK : string;
  foreignFK : string;
  (** function that will be called to perform any necessary joins *)
  addJoinsFunc : option (filterBuilder -> filterBuilder)
}.

Definition multi_handler (m : multiCriterionHandlerBuilder)
    (criterion : option MultiCriterionInput) : criterionHandlerFunc :=
  fun f =>
    match criterion with
    | None => f
    | Some criterion =>
        if (0 <? List.length (mci_Value criterion))%nat then
          let args := map ArgString (mci_Value criterion) in
          let f :=
            match addJoinsFunc m with
            | Some addJoins => addJoins f
            | None => f
            end in
          let '(whereClause, havingClause) :=
            getMultiCriterionClause (primaryTable m) (foreignTable m) (joinTable m)
              (primaryFK m) (foreignFK m) criterion in
          let f := addWhere f whereClause args in
          addHaving f havingClause []
        else f
    end.

Definition handleCriterionFunc (f : filterBuilder) (handler : criterionHandlerFunc)
    : filterBuilder :=
  handler f.

(** ** The query builder and the repository call that runs the query *)

Record repository : Type := mkRepository {
  tableName : string;
  idColumn : string
}.

Record queryBuilder : Type := mkQueryBuilder {
  qb_repository : repository;
  qb_body : string;
  qb_joins : joins;
  qb_whereClauses : list string;
  qb_havingClauses : list string;
  qb_args : list arg;
  qb_sortAndPagination : string;
  qb_err : option error
}.

Definition newQuery (r : repository) : queryBuilder :=
  mkQueryBuilder r "" [] [] [] [] "" None.

Definition buildCountQuery (query : string) : string :=
  "SELECT COUNT(*) as count FROM (" ++ query ++ ") as temp".

(** A statement handed to the database driver, with its bound arguments. *)
Definition statement : Type := string * list arg.

Section Database.

(** The database driver behind [runCountQuery] and [runIdsQuery], and the
    [%v] rendering of an argument list used in error messages. *)
Variable runCountQuery : string -> list arg -> Z * option error.
Variable runIdsQuery : string -> list arg -> list Z * option error.
Variable fmt_args : list arg -> string.

(** The result triple of [executeFind] together with the statements that
    were sent to the database, in order. *)
Definition findResult : Type := (list Z * Z * option error) * list statement.

Definition executeFindQuery (r : repository) (body : string) (args : list arg)
    (sortAndPagination : string) (whereClauses havingClauses : list string)
    : findResult :=
  let body :=
    if (0 <? List.length whereClauses)%nat
    then body ++ " WHERE " ++ Join whereClauses " AND " else body in
  let body := body ++ " GROUP BY " ++ tableName r ++ ".id " in
  let body :=
    if (0 <? List.length havingClauses)%nat
    then body ++ " HAVING " ++ Join havingClauses " AND " else body in
  let countQuery := buildCountQuery body in
  let idsQuery := body ++ sortAndPagination in
  let '(countResult, countErr) := runCountQuery countQuery args in
  let '(idsResult, idsErr) := runIdsQuery idsQuery args in
  let ran := [(countQuery, args); (idsQuery, args)] in
  match countErr with
  | Some e =>
      (([], 0%Z, Some ("Error executing count query with SQL: " ++ countQuery
                        ++ ", args: " ++ fmt_args args ++ ", error: " ++ e)), ran)
  | None =>
      match idsErr with
      | Some e =>
          (([], 0%Z, Some ("Error executing find query with SQL: " ++ idsQuery
                            ++ ", args: " ++ fmt_args args ++ ", error: " ++ e)), ran)
      | None => ((idsResult, countResult, None), ran)
      end
  end.

Definition executeFind (qb : queryBuilder) : findResult :=
  match qb_err qb with
  | Some e => (([], 0%Z, Some e), [])
  | None =>
      let body := qb_body qb in
      let body := body ++ joins_toSQL (qb_joins qb) in
      executeFindQuery (qb_repository qb) body (qb_args qb)
        (qb_sortAndPagination qb) (qb_whereClauses qb) (qb_havingClauses qb)
  end.

End Database.

Definition qb_addWhere (qb : queryBuilder) (clauses : list string) : queryBuilder :=
  mkQueryBuilder (qb_repository qb) (qb_body qb) (qb_joins qb)
    (qb_whereClauses qb ++ filter (fun clause => (0 <? String.length clause)%nat) clauses)%list
    (qb_havingClauses qb) (qb_args qb) (qb_sortAndPagination qb) (qb_err qb).

Definition qb_addHaving (qb : queryBuilder) (clauses : list string) : queryBuilder :=
  mkQueryBuilder (qb_repository qb) (qb_body qb) (qb_joins qb) (qb_whereClauses qb)
    (qb_havingClauses qb ++ filter (fun clause => (0 <? String.length clause)%nat) clauses)%list
    (qb_args qb) (qb_sortAndPagination qb) (qb_err qb).

Definition qb_addArg (qb : queryBuilder) (args : list arg) : queryBuilder :=
  mkQueryBuilder (qb_repository qb) (qb_body qb) (qb_joins qb) (qb_whereClauses qb)
    (qb_havingClauses qb) (qb_args qb ++ args)%list (qb_sortAndPagination qb) (qb_err qb).

Definition qb_addJoins (qb : queryBuilder) (js : list join) : queryBuilder :=
  mkQueryBuilder (qb_repository qb) (qb_body qb) (joins_add (qb_joins qb) js)
    (qb_whereClauses qb) (qb_havingClauses qb) (qb_args qb)
    (qb_sortAndPagination qb) (qb_err qb).

Definition qb_setErr (qb : queryBuilder) (e : error) : queryBuilder :=
  mkQueryBuilder (qb_repository qb) (qb_body qb) (qb_joins qb) (qb_whereClauses qb)
    (qb_havingClauses qb) (qb_args qb) (qb_sortAndPagination qb) (Some e).

Definition addFilter (qb : queryBuilder) (f : filterBuilder) : queryBuilder :=
  match getError f with
  | Some err => qb_setErr qb err
  | None =>
      let '(clause, args) := generateWhereClauses f in
      let qb := if (0 <? String.length clause)%nat then qb_addWhere qb [clause] else qb in
      let qb := if (0 <? List.length args)%nat then qb_addArg qb args else qb in
      let '(clause, args) := generateHavingClauses f in
      let qb := if (0 <? String.length clause)%nat then qb_addHaving qb [clause] else qb in
      let qb := if (0 <? List.length args)%nat then qb_addArg qb args else qb in
      qb_addJoins qb (getAllJoins f)
  end.

(** ** The meaning of the condition that EXCLUDES compiles to *)

(** Modelled from the spec: the database engine is not part of the
    sources.  The conditions below are the fragment of SQL that a
    multi-value criterion can compile to, with the text the engine reads
    ([render]) and what the engine computes for a row ([holds]): a column
    is looked up in the innermost table or alias of its name in scope,
    [in] tests membership among the next bound arguments, and
    [not exists] holds when no row of the table satisfies the condition of
    the subquery with that row in scope.  Values are not NULL. *)
Record column : Type := mkColumn {
  col_table : string;
  col_name : string
}.

Inductive condition : Type :=
| CondEq (a b : column)
| CondIn (a : column) (n : nat)
| CondNotIn (a : column) (n : nat)
| CondAnd (a b : condition)
| CondNotExists (sel : column) (from : string) (alias : option string) (c : condition).

Definition placeholderList (n : nat) : string :=
  "(" ++ Join (repeat "?" n) ", " ++ ")".

Definition renderColumn (c : column) : string :=
  col_table c ++ "." ++ col_name c.

Fixpoint render (c : condition) : string :=
  match c with
  | CondEq a b => renderColumn a ++ " = " ++ renderColumn b
  | CondIn a n => renderColumn a ++ " in " ++ placeholderList n
  | CondNotIn a n => renderColumn a ++ " NOT IN " ++ placeholderList n
  | CondAnd a b => render a ++ " and " ++ render b
  | CondNotExists sel from alias c =>
      "not exists (select " ++ renderColumn sel ++ " from " ++ from
        ++ match alias with Some a => " as " ++ a | None => "" end
        ++ " where " ++ render c ++ ")"
  end.

Definition arg_eqb (x y : arg) : bool :=
  match x, y with
  | ArgString a, ArgString b => a =? b
  | ArgInt a, ArgInt b => (a =? b)%Z
  | _, _ => false
  end.

(** A row gives a value to every column name; a database gives its rows
    to every table name; the scope lists the tables and aliases whose
    current row is visible, innermost first. *)
Definition row : Type := string -> arg.
Definition database : Type := string -> list row.
Definition scope : Type := list (string * row).

Fixpoint rowOf (sc : scope) (name : string) : option row :=
  match sc with
  | [] => None
  | (n, r) :: rest => if n =? name then Some r else rowOf rest name
  end.

Definition valueOf (sc : scope) (c : column) : option arg :=
  match rowOf sc (col_table c) with
  | Some r => Some (r (col_name c))
  | None => None
  end.

(** The number of placeholders of a condition. *)
Fixpoint parameters (c : condition) : nat :=
  match c with
  | CondEq _ _ => 0
  | CondIn _ n => n
  | CondNotIn _ n => n
  | CondAnd a b => parameters a + parameters b
  | CondNotExists _ _ _ c => parameters c
  end.

Fixpoint holds (db : database) (sc : scope) (bound : list arg) (c : condition) : bool :=
  match c with
  | CondEq a b =>
      match valueOf sc a, valueOf sc b with
      | Some x, Some y => arg_eqb x y
      | _, _ => false
      end
  | CondIn a n =>
      match valueOf sc a with
      | Some x => existsb (arg_eqb x) (firstn n bound)
      | None => false
      end
  | CondNotIn a n =>
      match valueOf sc a with
      | Some x => negb (existsb (arg_eqb x) (firstn n bound))
      | None => false
      end
  | CondAnd a b => holds db sc bound a && holds db sc (skipn (parameters a) bound) b
  | CondNotExists _ from alias c =>
      let name := match alias with Some a => a | None => from end in
      negb (existsb (fun r => holds db ((name, r) :: sc) bound c) (db from))
  end.

(** The condition that EXCLUDES asks for, as the spec reads it: no row of
    the association table (the join table, or the primary table itself
    under the alias [s] when there is none) belongs to the row at hand and
    has one of the [n] values as its foreign key. *)
Definition excludesCondition (m : multiCriterionHandlerBuilder) (n : nat) : condition :=
  if joinTable m =? "" then
    CondNotExists (mkColumn "s" "id") (primaryTable m) (Some "s")
      (CondAnd (CondEq (mkColumn "s" "id") (mkColumn (primaryTable m) "id"))
               (CondIn (mkColumn "s" (foreignFK m)) n))
  else
    CondNotExists (mkColumn (joinTable m) (primaryFK m)) (joinTable m) None
      (CondAnd (CondEq (mkColumn (joinTable m) (primaryFK m))
                       (mkColumn (primaryTable m) "id"))
               (CondIn (mkColumn (joinTable m) (foreignFK m)) n)).

(** The table that holds the associations, the name its rows go by in the
    subquery, and the column of it that names the owning row. *)
Definition associationTable (m : multiCriterionHandlerBuilder) : string :=
  if joinTable m =? "" then primaryTable m else joinTable m.

Definition associationName (m : multiCriterionHandlerBuilder) : string :=
  if joinTable m =? "" then "s" else joinTable m.

Definition associationKey (m : multiCriterionHandlerBuilder) : string :=
  if joinTable m =? "" then "id" else primaryFK m.

(** The rows of the association table that belong to the row [outer] and
    carry one of the values. *)
Definition excludedAssociations (m : multiCriterionHandlerBuilder) (db : database)
    (outer : row) (values : list arg) : list row :=
  filter (fun r => arg_eqb (r (associationKey m)) (outer "id")
                   && existsb (arg_eqb (r (foreignFK m))) values)
         (db (associationTable m)).

(* ================================================================== *)
(** * Part II. Package manager: definitions *)
(* ================================================================== *)

(** ** Catalog records *)

(** A [time.Time], as nanoseconds since the epoch. *)
Definition Time := Z.

(** [Time.Truncate(time.Second)]. *)
Definition Truncate_Second (t : Time) : Time :=
  (t - t mod 1000000000)%Z.

(** [sql.NullString] and [models.NullSQLiteTimestamp]. *)
Record NullString : Type := mkNullString {
  NString : string;
  NValid : bool
}.

Record NullSQLiteTimestamp : Type := mkNullSQLiteTimestamp {
  Timestamp : Time;
  Valid : bool
}.

Inductive HashAlgorithm : Type :=
| HashAlgorithmMd5
| HashAlgorithmOshash.

(** [a == models.HashAlgorithmMd5]. *)
Definition isMd5 (a : HashAlgorithm) : bool :=
  match a with HashAlgorithmMd5 => true | HashAlgorithmOshash => false end.

(** The probe result [ffmpeg.VideoFile]; [float64] fields are carried, never
    inspected by the scan, and are kept as integers. *)
Record VideoFile : Type := mkVideoFile {
  vf_Container : string;
  vf_Title : string;
  vf_Comment : string;
  vf_CreationDate : string;
  vf_Duration : Z;
  vf_VideoCodec : string;
  vf_AudioCodec : string;
  vf_Width : Z;
  vf_Height : Z;
  vf_FrameRate : Z;
  vf_Bitrate : Z;
  vf_Size : string
}.

(** [models.Scene], with the fields the scan task reads or writes. *)
Record Scene : Type := mkScene {
  sc_ID : Z;
  sc_Checksum : NullString;
  sc_OSHash : NullString;
  sc_Path : string;
  sc_Title : NullString;
  sc_Details : NullString;
  sc_Date : string;
  sc_Duration : option Z;
  sc_VideoCodec : NullString;
  sc_AudioCodec : NullString;
  sc_Format : NullString;
  sc_Width : option Z;
  sc_Height : option Z;
  sc_Framerate : option Z;
  sc_Bitrate : option Z;
  sc_Size : NullString;
  sc_FileModTime : NullSQLiteTimestamp;
  sc_CreatedAt : Time;
  sc_UpdatedAt : Time
}.

(** [models.ScenePartial]: a nil pointer field is [None]. *)
Record ScenePartial : Type := mkScenePartial {
  sp_ID : Z;
  sp_Checksum : option NullString;
  sp_OSHash : option NullString;
  sp_Path : option string;
  sp_Duration : option Z;
  sp_VideoCodec : option NullString;
  sp_AudioCodec : option NullString;
  sp_Format : option NullString;
  sp_Width : option Z;
  sp_Height : option Z;
  sp_Framerate : option Z;
  sp_Bitrate : option Z;
  sp_Size : option NullString;
  sp_FileModTime : option NullSQLiteTimestamp;
  sp_UpdatedAt : option Time
}.

(** A partial that names a scene and sets nothing but its path. *)
Definition scenePathPartial (id : Z) (path : string) : ScenePartial :=
  mkScenePartial id None None (Some path) None None None None None None None None
    None None None.

Record Image : Type := mkImage {
  im_ID : Z;
  im_Checksum : string;
  im_Path : string;
  im_Width : option Z;
  im_Height : option Z;
  im_Size : option Z;
  im_FileModTime : NullSQLiteTimestamp;
  im_CreatedAt : Time;
  im_UpdatedAt : Time
}.

Record ImagePartial : Type := mkImagePartial {
  ip_ID : Z;
  ip_Checksum : option string;
  ip_Path : option string;
  ip_Width : option (option Z);
  ip_Height : option (option Z);
  ip_Size : option (option Z);
  ip_FileModTime : option NullSQLiteTimestamp;
  ip_UpdatedAt : option Time
}.

Definition imagePathPartial (id : Z) (path : string) : ImagePartial :=
  mkImagePartial id None (Some path) None None None None None.

(** The result of [image.GetFileDetails]. *)
Record FileDetails : Type := mkFileDetails {
  fd_Width : option Z;
  fd_Height : option Z;
  fd_Size : option Z
}.

Record Gallery : Type := mkGallery {
  ga_ID : Z;
  ga_Checksum : string;
  ga_Zip : bool;
  ga_Path : NullString;
  ga_FileModTime : NullSQLiteTimestamp;
  ga_CreatedAt : Time;
  ga_UpdatedAt : Time
}.

Record GalleryPartial : Type := mkGalleryPartial {
  gp_ID : Z;
  gp_Checksum : option string;
  gp_FileModTime : option NullSQLiteTimestamp;
  gp_UpdatedAt : option Time
}.

Record ScanTask : Type := mkScanTask {
  FilePath : string;
  UseFileMetadata : bool;
  StripFileExtension : bool;
  calculateMD5 : bool;
  fileNamingAlgorithm : HashAlgorithm;
  GenerateSprite : bool;
  GeneratePreview : bool;
  GenerateImagePreview : bool;
  zipGallery : option Gallery
}.

(** ** Observable effects of a scan pass *)

(** A call of a writer method of the catalog. *)
Inductive WriteOp : Type :=
| WSceneUpdateFileModTime (id : Z) (ts : NullSQLiteTimestamp)
| WSceneUpdateFormat (id : Z) (format : string)
| WSceneUpdateOSHash (id : Z) (oshash : string)
| WSceneUpdateChecksum (id : Z) (checksum : string)
| WSceneUpdate (p : ScenePartial)
| WSceneCreate (s : Scene)
| WImageUpdateFileModTime (id : Z) (ts : NullSQLiteTimestamp)
| WImageUpdate (p : ImagePartial)
| WImageCreate (i : Image)
| WGalleryUpdateFileModTime (id : Z) (ts : NullSQLiteTimestamp)
| WGalleryUpdatePartial (p : GalleryPartial)
| WGalleryUpdate (g : Gallery)
| WGalleryCreate (g : Gallery)
| WGalleryAddImage (galleryID imageID : Z).

Inductive LogLevel : Type := Debug | Info | Warn | Error.

Inductive Event : Type :=
| EvReadTxn                                   (* [WithReadTxn] is entered *)
| EvWriteTxn                                  (* [WithTxn] is entered *)
| EvWrite (w : WriteOp)                       (* a writer method is called *)
| EvLog (level : LogLevel) (msg : string)
| EvMakeScreenshots (probed : option VideoFile) (hash : string)
| EvGenerateThumbnail (i : Image)
| EvRemoveThumbnail (checksum : string)
| EvMigrateHash (oldHash newHash : string)
| EvStartSubTask (t : ScanTask)               (* a zip entry's sub-task is run *)
| EvPanic.                                    (* nil pointer dereference *)

Definition isWriteTxn (e : Event) : bool :=
  match e with EvWriteTxn => true | _ => false end.

(** The number of write transactions a pass opened. *)
Definition writeTxns (tr : list Event) : nat :=
  List.length (filter isWriteTxn tr).

(** The writer calls of a pass, in order. *)
Fixpoint writes (tr : list Event) : list WriteOp :=
  match tr with
  | [] => []
  | EvWrite w :: rest => w :: writes rest
  | _ :: rest => writes rest
  end.

Definition isSubTask (e : Event) : bool :=
  match e with EvStartSubTask _ => true | _ => false end.

Definition isGenerateThumbnail (e : Event) : bool :=
  match e with EvGenerateThumbnail _ => true | _ => false end.

Definition isImageWrite (w : WriteOp) : bool :=
  match w with
  | WImageUpdateFileModTime _ _ | WImageUpdate _ | WImageCreate _ => true
  | _ => false
  end.

Definition isGalleryWrite (w : WriteOp) : bool :=
  match w with
  | WGalleryUpdateFileModTime _ _ | WGalleryUpdatePartial _ | WGalleryUpdate _
  | WGalleryCreate _ | WGalleryAddImage _ _ => true
  | _ => false
  end.

(** ** Collaborators of the scan task *)

(** The file system, the probing and hashing tools, the configuration and
    the clock, as the scan task calls them.  A function that returns
    [(value, err)] in Go returns a pair here; one whose value is
    dereferenced whenever [err] is nil returns a sum. *)
Record Env : Type := mkEnv {
  os_Stat : string -> Time * option error;
  image_GetFileModTime : string -> Time * option error;
  utils_DirExists : string -> bool * option error;
  utils_FileExists : string -> bool * option error;
  image_FileExists : string -> bool;
  ffmpeg_NewVideoFile : string -> bool -> VideoFile + error;
  ffmpeg_MatchContainer : string -> string -> string;
  SetTitleFromPath : VideoFile -> string -> bool -> VideoFile;
  utils_OSHashFromFilePath : string -> string * option error;
  utils_MD5FromFilePath : string -> string * option error;
  utils_MD5FromString : string -> string;
  image_CalculateMD5 : string -> string * option error;
  image_SetFileDetails : Image -> Image * option error;
  image_GetFileDetails : string -> FileDetails + error;
  image_PathDisplayName : string -> string;
  image_ZipFilename : string -> string -> string;
  countImagesInZip : string -> Z;
  utils_IsZipFileUncompressed : string -> bool * option error;
  walkGalleryZip : string -> list string * option error;
  filepath_Dir : string -> string;
  config_GetVideoFileNamingAlgorithm : HashAlgorithm;
  config_GetCreateGalleriesFromFolders : bool;
  time_Now : Time;
  Scene_GetHash : Scene -> HashAlgorithm -> string
}.

(** The catalog behind [models.ReaderRepository] and [models.Repository],
    over an abstract store.  Finders return the Go pair; a writer returns
    the new store and either the stored record or an error. *)
Record Repository (Store : Type) : Type := mkRepositoryOps {
  Scene_FindByPath : Store -> string -> option Scene * option error;
  Scene_Find : Store -> Z -> option Scene * option error;
  Scene_FindByChecksum : Store -> string -> option Scene * option error;
  Scene_FindByOSHash : Store -> string -> option Scene * option error;
  Scene_Update : Store -> ScenePartial -> Store * (Scene + error);
  Scene_Create : Store -> Scene -> Store * (Scene + error);
  scene_UpdateFileModTime : Store -> Z -> NullSQLiteTimestamp -> Store * (Scene + error);
  scene_UpdateFormat : Store -> Z -> string -> Store * (Scene + error);
  scene_UpdateOSHash : Store -> Z -> string -> Store * (Scene + error);
  scene_UpdateChecksum : Store -> Z -> string -> Store * (Scene + error);
  Image_FindByPath : Store -> string -> option Image * option error;
  Image_Find : Store -> Z -> option Image * option error;
  Image_FindByChecksum : Store -> string -> option Image * option error;
  Image_CountByGalleryID : Store -> Z -> Z * option error;
  Image_FindByGalleryID : Store -> Z -> list Image * option error;
  Image_Update : Store -> ImagePartial -> Store * (Image + error);
  Image_Create : Store -> Image -> Store * (Image + error);
  image_UpdateFileModTime : Store -> Z -> NullSQLiteTimestamp -> Store * (Image + error);
  Gallery_FindByPath : Store -> string -> option Gallery * option error;
  Gallery_Find : Store -> Z -> option Gallery * option error;
  Gallery_FindByChecksum : Store -> string -> option Gallery * option error;
  Gallery_Update : Store -> Gallery -> Store * (Gallery + error);
  Gallery_UpdatePartial : Store -> GalleryPartial -> Store * (Gallery + error);
  Gallery_Create : Store -> Gallery -> Store * (Gallery + error);
  gallery_UpdateFileModTime : Store -> Z -> NullSQLiteTimestamp -> Store * (Gallery + error);
  gallery_AddImage : Store -> Z -> Z -> Store * option error
}.

Arguments Scene_FindByPath {Store}.
Arguments Scene_Find {Store}.
Arguments Scene_FindByChecksum {Store}.
Arguments Scene_FindByOSHash {Store}.
Arguments Scene_Update {Store}.
Arguments Scene_Create {Store}.
Arguments scene_UpdateFileModTime {Store}.
Arguments scene_UpdateFormat {Store}.
Arguments scene_UpdateOSHash {Store}.
Arguments scene_UpdateChecksum {Store}.
Arguments Image_FindByPath {Store}.
Arguments Image_Find {Store}.
Arguments Image_FindByChecksum {Store}.
Arguments Image_CountByGalleryID {Store}.
Arguments Image_FindByGalleryID {Store}.
Arguments Image_Update {Store}.
Arguments Image_Create {Store}.
Arguments image_UpdateFileModTime {Store}.
Arguments Gallery_FindByPath {Store}.
Arguments Gallery_Find {Store}.
Arguments Gallery_FindByChecksum {Store}.
Arguments Gallery_Update {Store}.
Arguments Gallery_UpdatePartial {Store}.
Arguments Gallery_Create {Store}.
Arguments gallery_UpdateFileModTime {Store}.
Arguments gallery_AddImage {Store}.

(** ** A monad for one pass: store, trace, early return *)

(** A computation over the store that appends to the trace and either
    continues with a value ([inl]) or leaves the enclosing Go function
    with its result ([inr]). *)
Definition M (Store R A : Type) : Type :=
  Store -> (A + R) * (Store * list Event).

Definition ret {Store R A} (a : A) : M Store R A :=
  fun st => (inl a, (st, [])).

Definition bind {Store R A B} (m : M Store R A) (k : A -> M Store R B) : M Store R B :=
  fun st =>
    match m st with
    | (inl a, (st1, tr1)) =>
        let '(r, (st2, tr2)) := k a st1 in (r, (st2, (tr1 ++ tr2)%list))
    | (inr r, p) => (inr r, p)
    end.

(** Go's [return r]. *)
Definition exit {Store R A} (r : R) : M Store R A :=
  fun st => (inr r, (st, [])).

Definition emit {Store R} (e : Event) : M Store R unit :=
  fun st => (inl tt, (st, [e])).

Definition log {Store R} (level : LogLevel) (msg : string) : M Store R unit :=
  emit (EvLog level msg).

(** A nil pointer dereference ends the pass. *)
Definition panic {Store R A} (r : R) : M Store R A :=
  fun st => (inr r, (st, [EvPanic])).

(** Calling a Go function from another: its [return] yields its value. *)
Definition call {Store R A} (m : M Store A A) : M Store R A :=
  fun st =>
    let '(r, p) := m st in
    (inl (match r with inl a => a | inr a => a end), p).

(** Running a whole pass from a store: result, final store and trace. *)
Definition run {Store A} (m : M Store A A) (st : Store) : A * Store * list Event :=
  let '(r, (st', tr)) := m st in
  (match r with inl a => a | inr a => a end, st', tr).

Declare Scope scan_scope.
Delimit Scope scan_scope with scan.
Notation "x <- m ;; k" := (bind m (fun x => k))
  (at level 61, m at next level, right associativity) : scan_scope.
Notation "' pat <- m ;; k" := (bind m (fun x => match x with pat => k end))
  (at level 61, pat pattern, m at next level, right associativity) : scan_scope.
Notation "m ;; k" := (bind m (fun _ => k))
  (at level 61, right associativity) : scan_scope.

(** Modelled from the spec: the transaction manager, which is not among
    the sources.  [WithReadTxn] gives the closure a reader over the store;
    [WithTxn] gives it the full repository and guarantees commit or
    rollback: when the closure returns an error the store is left as it
    was.  Each returns the closure's error; [A] carries the variables the
    closure assigns in its enclosing function. *)
Definition WithReadTxn {Store R A} (fn : Store -> A * option error)
    : M Store R (A * option error) :=
  fun st => (inl (fn st), (st, [EvReadTxn])).

Definition WithTxn {Store R A}
    (fn : Store -> (A * option error) * (Store * list Event))
    : M Store R (A * option error) :=
  fun st =>
    let '((a, err), (st', evs)) := fn st in
    (inl (a, err),
     (match err with None => st' | Some _ => st end, EvWriteTxn :: evs)).

(** The error of a writer's result. *)
Definition errOf {A} (r : A + error) : option error :=
  match r with inl _ => None | inr e => Some e end.

Section ScanTaskMethods.

Variable Store : Type.
Variable repo : Repository Store.
Variable env : Env.

Local Open Scope scan_scope.

(** [logger.Error(err.Error()); return r] when [err] is not nil. *)
Definition failOn {R} (err : option error) (r : R) : M Store R unit :=
  match err with
  | Some e => log Error e ;; exit r
  | None => ret tt
  end.

Definition getFileModTime (t : ScanTask) : Time * option error :=
  let '(mt, err) := os_Stat env (FilePath t) in
  match err with
  | Some e =>
      (0%Z, Some ("error performing stat on " ++ FilePath t ++ ": " ++ e))
  | None =>
      (* truncate to seconds, since we don't store beyond that in the database *)
      (Truncate_Second mt, None)
  end.

Definition isFileModified (fileModTime : Time) (modTime : NullSQLiteTimestamp) : bool :=
  negb (Timestamp modTime =? fileModTime)%Z.

Definition calculateChecksum {R} (t : ScanTask) : M Store R (string * option error) :=
  log Info ("Calculating checksum for " ++ FilePath t ++ "...") ;;
  let '(checksum, err) := utils_MD5FromFilePath env (FilePath t) in
  match err with
  | Some e => ret ("", Some e)
  | None => log Debug ("Checksum calculated: " ++ checksum) ;; ret (checksum, None)
  end.

Definition calculateImageChecksum {R} (t : ScanTask) : M Store R (string * option error) :=
  log Info ("Calculating checksum for " ++ image_PathDisplayName env (FilePath t) ++ "...") ;;
  let '(checksum, err) := image_CalculateMD5 env (FilePath t) in
  match err with
  | Some e => ret ("", Some e)
  | None => log Debug ("Checksum calculated: " ++ checksum) ;; ret (checksum, None)
  end.

(** [generateThumbnail] and [makeScreenshots] only read and write files
    under the generated-files directory; they appear in the trace as one
    event each. *)
Definition generateThumbnail {R} (i : Image) : M Store R unit :=
  emit (EvGenerateThumbnail i).

Definition makeScreenshots {R} (probeResult : option VideoFile) (checksum : string)
    : M Store R unit :=
  emit (EvMakeScreenshots probeResult checksum).

Fixpoint forEach {R A} (l : list A) (body : A -> M Store R unit) : M Store R unit :=
  match l with
  | [] => ret tt
  | x :: rest => body x ;; forEach rest body
  end.

(** ** Scenes *)

Definition rescanScene (t : ScanTask) (s : Scene) (fileModTime : Time)
    : M Store (option Scene * option error) (option Scene * option error) :=
  log Info (FilePath t ++ " has been updated: rescanning") ;;
  (* update the oshash/checksum and the modification time *)
  log Info ("Calculating oshash for existing file " ++ FilePath t ++ " ...") ;;
  let '(oshash, err) := utils_OSHashFromFilePath env (FilePath t) in
  match err with
  | Some e => exit (None, Some e)
  | None =>
      checksum <-
        (if calculateMD5 t then
           '(cs, err) <- calculateChecksum t ;;
           match err with
           | Some e => exit (None, Some e)
           | None => ret (Some (mkNullString cs true))
           end
         else ret None) ;;
      (* regenerate the file details as well *)
      match ffmpeg_NewVideoFile env (FilePath t) (StripFileExtension t) with
      | inr e => exit (None, Some e)
      | inl videoFile =>
          let container := ffmpeg_MatchContainer env (vf_Container videoFile) (FilePath t) in
          let currentTime := time_Now env in
          let scenePartial :=
            mkScenePartial (sc_ID s) checksum (Some (mkNullString oshash true)) None
              (Some (vf_Duration videoFile))
              (Some (mkNullString (vf_VideoCodec videoFile) true))
              (Some (mkNullString (vf_AudioCodec videoFile) true))
              (Some (mkNullString container true))
              (Some (vf_Width videoFile)) (Some (vf_Height videoFile))
              (Some (vf_FrameRate videoFile)) (Some (vf_Bitrate videoFile))
              (Some (mkNullString (vf_Size videoFile) true))
              (Some (mkNullSQLiteTimestamp fileModTime true))
              (Some currentTime) in
          '(ret_, err) <- WithTxn (fun st =>
              let '(st1, r) := Scene_Update repo st scenePartial in
              ((match r with inl s' => Some s' | inr _ => None end, errOf r),
               (st1, [EvWrite (WSceneUpdate scenePartial)]))) ;;
          match err with
          | Some e => log Error e ;; exit (None, Some e)
          | None =>
              (* leave the generated files as is - the scene file may have
                 been moved elsewhere *)
              ret (ret_, None)
          end
      end
  end.

(** The closure that looks a new file up by its hashes: checksum first,
    then oshash. *)
Definition findSceneByHashes (st : Store) (checksum oshash : string) : option Scene :=
  let s :=
    if negb (checksum =? "") then fst (Scene_FindByChecksum repo st checksum)
    else None in
  match s with
  | Some _ => s
  | None => fst (Scene_FindByOSHash repo st oshash)
  end.

Definition scanScene (t : ScanTask) : M Store (option Scene) (option Scene) :=
  '(s, err) <- WithReadTxn (fun st => Scene_FindByPath repo st (FilePath t)) ;;
  failOn err None ;;
  let '(fileModTime, err) := getFileModTime t in
  failOn err None ;;
  match s with
  | Some s0 =>
      (* if file mod time is not set, set it now *)
      s1 <-
        (if negb (Valid (sc_FileModTime s0)) then
           log Info ("setting file modification time on " ++ FilePath t) ;;
           '(s', err) <- WithTxn (fun st =>
               let ts := mkNullSQLiteTimestamp fileModTime true in
               let '(st1, r) := scene_UpdateFileModTime repo st (sc_ID s0) ts in
               let w := EvWrite (WSceneUpdateFileModTime (sc_ID s0) ts) in
               match r with
               | inr e => ((Some s0, Some e), (st1, [w]))
               | inl _ =>
                   (* update our copy of the scene *)
                   (Scene_Find repo st1 (sc_ID s0), (st1, [w]))
               end) ;;
           failOn err None ;;
           match s' with
           | Some s1 => ret s1
           | None => panic None
           end
         else ret s0) ;;
      (* if the mod time of the file is different than that of the associated
         scene, then recalculate the checksum and regenerate the thumbnail *)
      let modified := isFileModified fileModTime (sc_FileModTime s1) in
      s2 <-
        (if modified || negb (NValid (sc_Size s1)) then
           let oldHash := Scene_GetHash env s1 (config_GetVideoFileNamingAlgorithm env) in
           '(s', err) <- call (rescanScene t s1 fileModTime) ;;
           failOn err None ;;
           match s' with
           | None => panic None
           | Some s2 =>
               (* Migrate any generated files if the hash has changed *)
               let newHash := Scene_GetHash env s2 (config_GetVideoFileNamingAlgorithm env) in
               (if negb (newHash =? oldHash)
                then emit (EvMigrateHash oldHash newHash) else ret tt) ;;
               ret s2
           end
         else ret s1) ;;
      (* We already have this item in the database *)
      (* check for thumbnails,screenshots *)
      makeScreenshots None (Scene_GetHash env s2 (fileNamingAlgorithm t)) ;;
      (* check for container *)
      (if negb (NValid (sc_Format s2)) then
         match ffmpeg_NewVideoFile env (FilePath t) (StripFileExtension t) with
         | inr e => failOn (Some e) None
         | inl videoFile =>
             let container :=
               ffmpeg_MatchContainer env (vf_Container videoFile) (FilePath t) in
             log Info ("Adding container " ++ container ++ " to file " ++ FilePath t) ;;
             '(_, err) <- WithTxn (fun st =>
                 let '(st1, r) := scene_UpdateFormat repo st (sc_ID s2) container in
                 ((tt, errOf r), (st1, [EvWrite (WSceneUpdateFormat (sc_ID s2) container)]))) ;;
             failOn err None
         end
       else ret tt) ;;
      (* check if oshash is set *)
      (if negb (NValid (sc_OSHash s2)) then
         log Info ("Calculating oshash for existing file " ++ FilePath t ++ " ...") ;;
         let '(oshash, err) := utils_OSHashFromFilePath env (FilePath t) in
         match err with
         | Some _ => exit None
         | None =>
             '(_, err) <- WithTxn (fun st =>
                 (* check if oshash clashes with existing scene *)
                 let '(dupe, _) := Scene_FindByOSHash repo st oshash in
                 match dupe with
                 | Some dupe =>
                     ((tt, Some ("OSHash for file " ++ FilePath t
                                   ++ " is the same as that of " ++ sc_Path dupe)),
                      (st, []))
                 | None =>
                     let '(st1, r) := scene_UpdateOSHash repo st (sc_ID s2) oshash in
                     ((tt, errOf r), (st1, [EvWrite (WSceneUpdateOSHash (sc_ID s2) oshash)]))
                 end) ;;
             failOn err None
         end
       else ret tt) ;;
      (* check if MD5 is set, if calculateMD5 is true *)
      (if calculateMD5 t && negb (NValid (sc_Checksum s2)) then
         '(checksum, err) <- calculateChecksum t ;;
         failOn err None ;;
         '(_, err) <- WithTxn (fun st =>
             (* check if checksum clashes with existing scene *)
             let '(dupe, _) := Scene_FindByChecksum repo st checksum in
             match dupe with
             | Some dupe =>
                 ((tt, Some ("MD5 for file " ++ FilePath t
                               ++ " is the same as that of " ++ sc_Path dupe)),
                  (st, []))
             | None =>
                 let '(st1, r) := scene_UpdateChecksum repo st (sc_ID s2) checksum in
                 ((tt, errOf r), (st1, [EvWrite (WSceneUpdateChecksum (sc_ID s2) checksum)]))
             end) ;;
         failOn err None
       else ret tt) ;;
      exit None
  | None =>
      (* Ignore directories. *)
      let '(isDir, _) := utils_DirExists env (FilePath t) in
      if isDir then exit None
      else
        match ffmpeg_NewVideoFile env (FilePath t) (StripFileExtension t) with
        | inr e => failOn (Some e) None ;; exit None
        | inl videoFile =>
            let container :=
              ffmpeg_MatchContainer env (vf_Container videoFile) (FilePath t) in
            (* Override title to be filename if UseFileMetadata is false *)
            let videoFile :=
              if negb (UseFileMetadata t)
              then SetTitleFromPath env videoFile (FilePath t) (StripFileExtension t)
              else videoFile in
            log Info (FilePath t ++ " not found. Calculating oshash...") ;;
            let '(oshash, err) := utils_OSHashFromFilePath env (FilePath t) in
            failOn err None ;;
            checksum <-
              (if isMd5 (fileNamingAlgorithm t) || calculateMD5 t then
                 '(checksum, err) <- calculateChecksum t ;;
                 failOn err None ;;
                 ret checksum
               else ret "") ;;
            (* check for scene by checksum and oshash - MD5 should be
               redundant, but check both *)
            '(s, _) <- WithReadTxn (fun st =>
                (findSceneByHashes st checksum oshash, None)) ;;
            let sceneHash :=
              if isMd5 (fileNamingAlgorithm t) then checksum else oshash in
            makeScreenshots (Some videoFile) sceneHash ;;
            match s with
            | Some s =>
                let '(exists_, _) := utils_FileExists env (sc_Path s) in
                if exists_ then
                  log Info (FilePath t ++ " already exists. Duplicate of " ++ sc_Path s) ;;
                  ret None
                else
                  log Info (FilePath t ++ " already exists. Updating path...") ;;
                  let scenePartial := scenePathPartial (sc_ID s) (FilePath t) in
                  '(_, err) <- WithTxn (fun st =>
                      let '(st1, r) := Scene_Update repo st scenePartial in
                      ((tt, errOf r), (st1, [EvWrite (WSceneUpdate scenePartial)]))) ;;
                  failOn err None ;;
                  ret None
            | None =>
                log Info (FilePath t ++ " doesn't exist. Creating new item...") ;;
                let currentTime := time_Now env in
                let newScene :=
                  mkScene 0%Z
                    (mkNullString checksum (negb (checksum =? "")))
                    (mkNullString oshash (negb (oshash =? "")))
                    (FilePath t)
                    (mkNullString (vf_Title videoFile) true)
                    (if UseFileMetadata t
                     then mkNullString (vf_Comment videoFile) true
                     else mkNullString "" false)
                    (if UseFileMetadata t then vf_CreationDate videoFile else "")
                    (Some (vf_Duration videoFile))
                    (mkNullString (vf_VideoCodec videoFile) true)
                    (mkNullString (vf_AudioCodec videoFile) true)
                    (mkNullString container true)
                    (Some (vf_Width videoFile)) (Some (vf_Height videoFile))
                    (Some (vf_FrameRate videoFile)) (Some (vf_Bitrate videoFile))
                    (mkNullString (vf_Size videoFile) true)
                    (mkNullSQLiteTimestamp fileModTime true)
                    currentTime currentTime in
                '(retScene, err) <- WithTxn (fun st =>
                    let '(st1, r) := Scene_Create repo st newScene in
                    ((match r with inl s' => Some s' | inr _ => None end, errOf r),
                     (st1, [EvWrite (WSceneCreate newScene)]))) ;;
                failOn err None ;;
                ret retScene
            end
        end
  end.

(** ** Images *)

Definition rescanImage (t : ScanTask) (i : Image) (fileModTime : Time)
    : M Store (option Image * option error) (option Image * option error) :=
  log Info (FilePath t ++ " has been updated: rescanning") ;;
  let oldChecksum := im_Checksum i in
  (* update the checksum and the modification time *)
  '(checksum, err) <- calculateImageChecksum t ;;
  match err with
  | Some e => exit (None, Some e)
  | None =>
      (* regenerate the file details as well *)
      match image_GetFileDetails env (FilePath t) with
      | inr e => exit (None, Some e)
      | inl fileDetails =>
          let currentTime := time_Now env in
          let imagePartial :=
            mkImagePartial (im_ID i) (Some checksum) None
              (Some (fd_Width fileDetails)) (Some (fd_Height fileDetails))
              (Some (fd_Size fileDetails))
              (Some (mkNullSQLiteTimestamp fileModTime true)) (Some currentTime) in
          '(ret_, err) <- WithTxn (fun st =>
              let '(st1, r) := Image_Update repo st imagePartial in
              ((match r with inl i' => Some i' | inr _ => None end, errOf r),
               (st1, [EvWrite (WImageUpdate imagePartial)]))) ;;
          match err with
          | Some e => exit (None, Some e)
          | None =>
              (* remove the old thumbnail if the checksum changed - we'll
                 regenerate it *)
              (if negb (oldChecksum =? checksum)
               then emit (EvRemoveThumbnail oldChecksum) else ret tt) ;;
              ret (ret_, None)
          end
      end
  end.

(** Runs inside the caller's write transaction. *)
Definition associateImageWithFolderGallery (t : ScanTask) (imageID : Z) (st : Store)
    : option error * (Store * list Event) :=
  (* find a gallery with the path specified *)
  let path := filepath_Dir env (FilePath t) in
  let '(g, err) := Gallery_FindByPath repo st path in
  match err with
  | Some e => (Some e, (st, []))
  | None =>
      match g with
      | Some g =>
          (* associate image with gallery *)
          let '(st1, err) := gallery_AddImage repo st (ga_ID g) imageID in
          (err, (st1, [EvWrite (WGalleryAddImage (ga_ID g) imageID)]))
      | None =>
          let checksum := utils_MD5FromString env path in
          (* create the gallery *)
          let currentTime := time_Now env in
          let newGallery :=
            mkGallery 0%Z checksum false (mkNullString path true)
              (mkNullSQLiteTimestamp 0%Z false) currentTime currentTime in
          let evs := [EvLog Info ("Creating gallery for folder " ++ path);
                      EvWrite (WGalleryCreate newGallery)] in
          let '(st1, r) := Gallery_Create repo st newGallery in
          match r with
          | inr e => (Some e, (st1, evs))
          | inl g =>
              let '(st2, err) := gallery_AddImage repo st1 (ga_ID g) imageID in
              (err, (st2, (evs ++ [EvWrite (WGalleryAddImage (ga_ID g) imageID)])%list))
          end
      end
  end.

Definition scanImage (t : ScanTask) : M Store unit unit :=
  '(i, err) <- WithReadTxn (fun st => Image_FindByPath repo st (FilePath t)) ;;
  failOn err tt ;;
  let '(fileModTime, err) := image_GetFileModTime env (FilePath t) in
  failOn err tt ;;
  i <-
    match i with
    | Some i0 =>
        (* if file mod time is not set, set it now *)
        i1 <-
          (if negb (Valid (im_FileModTime i0)) then
             log Info ("setting file modification time on " ++ FilePath t) ;;
             '(i', err) <- WithTxn (fun st =>
                 let ts := mkNullSQLiteTimestamp fileModTime true in
                 let '(st1, r) := image_UpdateFileModTime repo st (im_ID i0) ts in
                 let w := EvWrite (WImageUpdateFileModTime (im_ID i0) ts) in
                 match r with
                 | inr e => ((Some i0, Some e), (st1, [w]))
                 | inl _ =>
                     (* update our copy of the gallery *)
                     (Image_Find repo st1 (im_ID i0), (st1, [w]))
                 end) ;;
             failOn err tt ;;
             match i' with
             | Some i1 => ret i1
             | None => panic tt
             end
           else ret i0) ;;
        (* if the mod time of the file is different than that of the associated
           image, then recalculate the checksum and regenerate the thumbnail *)
        let modified := isFileModified fileModTime (im_FileModTime i1) in
        i2 <-
          (if modified then
             '(i', err) <- call (rescanImage t i1 fileModTime) ;;
             failOn err tt ;;
             match i' with
             | Some i2 => ret i2
             | None => panic tt
             end
           else ret i1) ;;
        (* We already have this item in the database *)
        (* check for thumbnails *)
        generateThumbnail i2 ;;
        ret i2
    | None =>
        (* Ignore directories. *)
        let '(isDir, _) := utils_DirExists env (FilePath t) in
        if isDir then exit tt
        else
          log Info (FilePath t ++ " not found.  Calculating checksum...") ;;
          '(checksum, err) <- calculateImageChecksum t ;;
          match err with
          | Some e =>
              log Error ("error calculating checksum for " ++ FilePath t ++ ": " ++ e) ;;
              exit tt
          | None =>
              (* check for scene by checksum and oshash - MD5 should be
                 redundant, but check both *)
              '(i, err) <- WithReadTxn (fun st =>
                  Image_FindByChecksum repo st checksum) ;;
              failOn err tt ;;
              i <-
                match i with
                | Some i =>
                    let exists_ := image_FileExists env (im_Path i) in
                    if exists_ then
                      log Info (image_PathDisplayName env (FilePath t)
                                  ++ " already exists.  Duplicate of "
                                  ++ image_PathDisplayName env (im_Path i) ++ " ") ;;
                      ret i
                    else
                      log Info (image_PathDisplayName env (FilePath t)
                                  ++ " already exists.  Updating path...") ;;
                      let imagePartial := imagePathPartial (im_ID i) (FilePath t) in
                      '(_, err) <- WithTxn (fun st =>
                          let '(st1, r) := Image_Update repo st imagePartial in
                          ((tt, errOf r), (st1, [EvWrite (WImageUpdate imagePartial)]))) ;;
                      failOn err tt ;;
                      ret i
                | None =>
                    log Info (image_PathDisplayName env (FilePath t)
                                ++ " doesn't exist.  Creating new item...") ;;
                    let currentTime := time_Now env in
                    let newImage :=
                      mkImage 0%Z checksum (FilePath t) None None None
                        (mkNullSQLiteTimestamp fileModTime true) currentTime currentTime in
                    let '(newImage, err) := image_SetFileDetails env newImage in
                    failOn err tt ;;
                    '(i, err) <- WithTxn (fun st =>
                        let '(st1, r) := Image_Create repo st newImage in
                        ((match r with inl i' => Some i' | inr _ => None end, errOf r),
                         (st1, [EvWrite (WImageCreate newImage)]))) ;;
                    failOn err tt ;;
                    match i with
                    | Some i => ret i
                    | None => panic tt
                    end
                end ;;
              match zipGallery t with
              | Some zg =>
                  (* associate with gallery *)
                  '(_, err) <- WithTxn (fun st =>
                      let '(st1, err) := gallery_AddImage repo st (ga_ID zg) (im_ID i) in
                      ((tt, err), (st1, [EvWrite (WGalleryAddImage (ga_ID zg) (im_ID i))]))) ;;
                  failOn err tt
              | None =>
                  if config_GetCreateGalleriesFromFolders env then
                    (* create gallery from folder or associate with existing gallery *)
                    log Info ("Associating image " ++ im_Path i ++ " with folder gallery") ;;
                    '(_, err) <- WithTxn (fun st =>
                        let '(err, p) := associateImageWithFolderGallery t (im_ID i) st in
                        ((tt, err), p)) ;;
                    failOn err tt
                  else ret tt
              end ;;
              ret i
          end
    end ;;
  generateThumbnail i.

(** ** Zip galleries *)

(** The copy of the task that is run for one entry of a zip gallery:
    the file path is the zip file and the internal file name. *)
Definition zipSubTask (t : ScanTask) (zipGallery : Gallery) (name : string) : ScanTask :=
  mkScanTask (image_ZipFilename env (NString (ga_Path zipGallery)) name)
    (UseFileMetadata t) (StripFileExtension t) (calculateMD5 t)
    (fileNamingAlgorithm t) (GenerateSprite t) (GeneratePreview t)
    (GenerateImagePreview t) (Some zipGallery).

(** [subTask.Start] for the copy of the task made for one zip entry.
    Modelled from the spec: [walkGalleryZip], [isGallery], [isVideo] and
    [isImage] are not among the sources; by the spec the sub-walk of a zip
    enumerates the entries with image extensions, so [Start], which tests
    for a gallery, then a video, then an image, runs [scanImage] for the
    copy.  The call returns when that pass has ended. *)
Definition startZipEntry {R} (subTask : ScanTask) : M Store R unit :=
  emit (EvStartSubTask subTask) ;;
  call (scanImage subTask).

Definition scanZipImages {R} (t : ScanTask) (zipGallery : Gallery) : M Store R unit :=
  let '(files, err) := walkGalleryZip env (NString (ga_Path zipGallery)) in
  forEach files (fun name =>
    (* copy this task and change the filename *)
    let subTask := zipSubTask t zipGallery name in
    (* run the subtask and wait for it to complete *)
    startZipEntry subTask) ;;
  match err with
  | Some e =>
      log Warn ("failed to scan zip file images for " ++ NString (ga_Path zipGallery)
                  ++ ": " ++ e)
  | None => ret tt
  end.

Definition regenerateZipImages {R} (zipGallery : Gallery) : M Store R unit :=
  '(images, err) <- WithReadTxn (fun st =>
      Image_FindByGalleryID repo st (ga_ID zipGallery)) ;;
  match err with
  | Some e => log Warn ("failed to find gallery images: " ++ e)
  | None => forEach images (fun img => generateThumbnail img)
  end.

Definition scanGallery (t : ScanTask) : M Store unit unit :=
  '((g, images), err) <- WithReadTxn (fun st =>
      let '(g, err) := Gallery_FindByPath repo st (FilePath t) in
      match g, err with
      | Some g0, Some _ =>
          let '(images, err) := Image_CountByGalleryID repo st (ga_ID g0) in
          match err with
          | Some e =>
              ((g, images),
               Some ("error getting images for zip gallery " ++ FilePath t ++ ": " ++ e))
          | None => ((g, images), None)
          end
      | _, _ => ((g, 0%Z), err)
      end) ;;
  failOn err tt ;;
  let '(fileModTime, err) := getFileModTime t in
  failOn err tt ;;
  '(g, scanImages) <-
    match g with
    | Some g0 =>
        (* We already have this item in the database, keep going *)
        (* if file mod time is not set, set it now *)
        '(g1, scanImages) <-
          (if negb (Valid (ga_FileModTime g0)) then
             (* we will also need to rescan the zip contents *)
             log Info ("setting file modification time on " ++ FilePath t) ;;
             '(g', err) <- WithTxn (fun st =>
                 let ts := mkNullSQLiteTimestamp fileModTime true in
                 let '(st1, r) := gallery_UpdateFileModTime repo st (ga_ID g0) ts in
                 let w := EvWrite (WGalleryUpdateFileModTime (ga_ID g0) ts) in
                 match r with
                 | inr e => ((Some g0, Some e), (st1, [w]))
                 | inl _ =>
                     (* update our copy of the gallery *)
                     (Gallery_Find repo st1 (ga_ID g0), (st1, [w]))
                 end) ;;
             failOn err tt ;;
             match g' with
             | Some g1 => ret (g1, true)
             | None => panic tt
             end
           else ret (g0, false)) ;;
        (* if the mod time of the zip file is different than that of the
           associated gallery, then recalculate the checksum *)
        let modified := isFileModified fileModTime (ga_FileModTime g1) in
        scanImages <-
          (if modified then
             log Info (FilePath t ++ " has been updated: rescanning") ;;
             (* update the checksum and the modification time *)
             '(checksum, err) <- calculateChecksum t ;;
             failOn err tt ;;
             let currentTime := time_Now env in
             let galleryPartial :=
               mkGalleryPartial (ga_ID g1) (Some checksum)
                 (Some (mkNullSQLiteTimestamp fileModTime true)) (Some currentTime) in
             '(_, err) <- WithTxn (fun st =>
                 let '(st1, r) := Gallery_UpdatePartial repo st galleryPartial in
                 ((tt, errOf r), (st1, [EvWrite (WGalleryUpdatePartial galleryPartial)]))) ;;
             failOn err tt ;;
             ret true
           else ret scanImages) ;;
        (* scan the zip files if the gallery has no images *)
        ret (Some g1, scanImages || (images =? 0)%Z)
    | None =>
        (* Ignore directories. *)
        let '(isDir, _) := utils_DirExists env (FilePath t) in
        if isDir then exit tt
        else
          '(checksum, err) <- calculateChecksum t ;;
          failOn err tt ;;
          '((g, scanImages), err) <- WithTxn (fun st =>
              let '(g, _) := Gallery_FindByChecksum repo st checksum in
              match g with
              | Some g0 =>
                  let '(exists_, _) := utils_FileExists env (NString (ga_Path g0)) in
                  if exists_ then
                    (((Some g0, false), None),
                     (st, [EvLog Info (FilePath t ++ " already exists.  Duplicate of "
                                         ++ NString (ga_Path g0) ++ " ")]))
                  else
                    let g1 := mkGallery (ga_ID g0) (ga_Checksum g0) (ga_Zip g0)
                                (mkNullString (FilePath t) true) (ga_FileModTime g0)
                                (ga_CreatedAt g0) (ga_UpdatedAt g0) in
                    let '(st1, r) := Gallery_Update repo st g1 in
                    let evs := [EvLog Info (FilePath t ++ " already exists.  Updating path...");
                                EvWrite (WGalleryUpdate g1)] in
                    match r with
                    | inr e => (((None, false), Some e), (st1, evs))
                    | inl g2 => (((Some g2, false), None), (st1, evs))
                    end
              | None =>
                  let currentTime := time_Now env in
                  let newGallery :=
                    mkGallery 0%Z checksum true (mkNullString (FilePath t) true)
                      (mkNullSQLiteTimestamp fileModTime true) currentTime currentTime in
                  (* don't create gallery if it has no images *)
                  if (0 <? countImagesInZip env (FilePath t))%Z then
                    (* only warn when creating the gallery *)
                    let '(ok, err) := utils_IsZipFileUncompressed env (FilePath t) in
                    let warn :=
                      match err with
                      | None =>
                          if negb ok
                          then [EvLog Warn (FilePath t
                                  ++ " is using above store (0) level compression.")]
                          else []
                      | Some _ => []
                      end in
                    let '(st1, r) := Gallery_Create repo st newGallery in
                    let evs :=
                      (warn ++ [EvLog Info (FilePath t ++ " doesn't exist.  Creating new item...");
                                EvWrite (WGalleryCreate newGallery)])%list in
                    match r with
                    | inr e => (((None, false), Some e), (st1, evs))
                    | inl g1 => (((Some g1, true), None), (st1, evs))
                    end
                  else (((None, false), None), (st, []))
              end) ;;
          failOn err tt ;;
          ret (g, scanImages)
    end ;;
  match g with
  | Some g =>
      if (scanImages : bool) then scanZipImages t g
      else
        (* in case thumbnails have been deleted, regenerate them *)
        regenerateZipImages g
  | None => ret tt
  end.

End ScanTaskMethods.

Arguments failOn {Store R}.
Arguments calculateChecksum {Store} env {R}.
Arguments calculateImageChecksum {Store} env {R}.
Arguments generateThumbnail {Store R}.
Arguments makeScreenshots {Store R}.
Arguments forEach {Store R A}.
Arguments startZipEntry {Store} repo env {R}.
Arguments scanZipImages {Store} repo env {R}.
Arguments zipSubTask env t zipGallery name : rename.
Arguments regenerateZipImages {Store} repo {R}.
Arguments scanGallery {Store}.
Arguments rescanScene {Store}.
Arguments findSceneByHashes {Store}.
Arguments scanScene {Store}.
Arguments rescanImage {Store}.
Arguments associateImageWithFolderGallery {Store}.
Arguments scanImage {Store}.

(** ** An in-memory catalog and file system

    A concrete [Repository] over lists and a concrete [Env] over a table of
    files, on which the scan task can be run. *)

Record MemStore : Type := mkMemStore {
  ms_scenes : list Scene;
  ms_images : list Image;
  ms_galleries : list Gallery;
  ms_galleriesImages : list (Z * Z);
  ms_nextID : Z
}.

Definition orElse {A} (o : option A) (d : A) : A :=
  match o with Some a => a | None => d end.

Definition someIf {A} (o : option A) (d : option A) : option A :=
  match o with Some a => Some a | None => d end.

Definition applyScenePartial (p : ScenePartial) (s : Scene) : Scene :=
  mkScene (sc_ID s)
    (orElse (sp_Checksum p) (sc_Checksum s))
    (orElse (sp_OSHash p) (sc_OSHash s))
    (orElse (sp_Path p) (sc_Path s))
    (sc_Title s) (sc_Details s) (sc_Date s)
    (someIf (sp_Duration p) (sc_Duration s))
    (orElse (sp_VideoCodec p) (sc_VideoCodec s))
    (orElse (sp_AudioCodec p) (sc_AudioCodec s))
    (orElse (sp_Format p) (sc_Format s))
    (someIf (sp_Width p) (sc_Width s))
    (someIf (sp_Height p) (sc_Height s))
    (someIf (sp_Framerate p) (sc_Framerate s))
    (someIf (sp_Bitrate p) (sc_Bitrate s))
    (orElse (sp_Size p) (sc_Size s))
    (orElse (sp_FileModTime p) (sc_FileModTime s))
    (sc_CreatedAt s)
    (orElse (sp_UpdatedAt p) (sc_UpdatedAt s)).

Definition applyImagePartial (p : ImagePartial) (i : Image) : Image :=
  mkImage (im_ID i)
    (orElse (ip_Checksum p) (im_Checksum i))
    (orElse (ip_Path p) (im_Path i))
    (orElse (ip_Width p) (im_Width i))
    (orElse (ip_Height p) (im_Height i))
    (orElse (ip_Size p) (im_Size i))
    (orElse (ip_FileModTime p) (im_FileModTime i))
    (im_CreatedAt i)
    (orElse (ip_UpdatedAt p) (im_UpdatedAt i)).

Definition applyGalleryPartial (p : GalleryPartial) (g : Gallery) : Gallery :=
  mkGallery (ga_ID g)
    (orElse (gp_Checksum p) (ga_Checksum g))
    (ga_Zip g) (ga_Path g)
    (orElse (gp_FileModTime p) (ga_FileModTime g))
    (ga_CreatedAt g)
    (orElse (gp_UpdatedAt p) (ga_UpdatedAt g)).

(** Replace the first element that satisfies [p] by its image under [f]. *)
Fixpoint updateFirst {A} (p : A -> bool) (f : A -> A) (l : list A) : list A * option A :=
  match l with
  | [] => ([], None)
  | x :: rest =>
      if p x then (f x :: rest, Some (f x))
      else let '(rest', r) := updateFirst p f rest in (x :: rest', r)
  end.

Definition found {A} (o : option A) : option A * option error := (o, None).

Definition memUpdateScene (st : MemStore) (p : ScenePartial) : MemStore * (Scene + error) :=
  match updateFirst (fun s => (sc_ID s =? sp_ID p)%Z) (applyScenePartial p) (ms_scenes st) with
  | (l, Some s) =>
      (mkMemStore l (ms_images st) (ms_galleries st) (ms_galleriesImages st) (ms_nextID st),
       inl s)
  | (_, None) => (st, inr "scene does not exist")
  end.

Definition memUpdateImage (st : MemStore) (p : ImagePartial) : MemStore * (Image + error) :=
  match updateFirst (fun i => (im_ID i =? ip_ID p)%Z) (applyImagePartial p) (ms_images st) with
  | (l, Some i) =>
      (mkMemStore (ms_scenes st) l (ms_galleries st) (ms_galleriesImages st) (ms_nextID st),
       inl i)
  | (_, None) => (st, inr "image does not exist")
  end.

Definition memUpdateGallery (st : MemStore) (id : Z) (f : Gallery -> Gallery)
    : MemStore * (Gallery + error) :=
  match updateFirst (fun g => (ga_ID g =? id)%Z) f (ms_galleries st) with
  | (l, Some g) =>
      (mkMemStore (ms_scenes st) (ms_images st) l (ms_galleriesImages st) (ms_nextID st),
       inl g)
  | (_, None) => (st, inr "gallery does not exist")
  end.

Definition memRepository : Repository MemStore :=
  mkRepositoryOps MemStore
    (fun st path => found (find (fun s => sc_Path s =? path) (ms_scenes st)))
    (fun st id => found (find (fun s => (sc_ID s =? id)%Z) (ms_scenes st)))
    (fun st h => found (find (fun s => NValid (sc_Checksum s) && (NString (sc_Checksum s) =? h))
                          (ms_scenes st)))
    (fun st h => found (find (fun s => NValid (sc_OSHash s) && (NString (sc_OSHash s) =? h))
                          (ms_scenes st)))
    memUpdateScene
    (fun st s =>
       let s' := mkScene (ms_nextID st) (sc_Checksum s) (sc_OSHash s) (sc_Path s) (sc_Title s)
                   (sc_Details s) (sc_Date s) (sc_Duration s) (sc_VideoCodec s)
                   (sc_AudioCodec s) (sc_Format s) (sc_Width s) (sc_Height s)
                   (sc_Framerate s) (sc_Bitrate s) (sc_Size s) (sc_FileModTime s)
                   (sc_CreatedAt s) (sc_UpdatedAt s) in
       (mkMemStore (ms_scenes st ++ [s'])%list (ms_images st) (ms_galleries st)
          (ms_galleriesImages st) (ms_nextID st + 1)%Z, inl s'))
    (fun st id ts =>
       memUpdateScene st
         (mkScenePartial id None None None None None None None None None None None None
            (Some ts) None))
    (fun st id format =>
       memUpdateScene st
         (mkScenePartial id None None None None None None (Some (mkNullString format true))
            None None None None None None None))
    (fun st id oshash =>
       memUpdateScene st
         (mkScenePartial id None (Some (mkNullString oshash true)) None None None None None
            None None None None None None None))
    (fun st id checksum =>
       memUpdateScene st
         (mkScenePartial id (Some (mkNullString checksum true)) None None None None None None
            None None None None None None None))
    (fun st path => found (find (fun i => im_Path i =? path) (ms_images st)))
    (fun st id => found (find (fun i => (im_ID i =? id)%Z) (ms_images st)))
    (fun st h => found (find (fun i => im_Checksum i =? h) (ms_images st)))
    (fun st gid =>
       (Z.of_nat (List.length (filter (fun p => (fst p =? gid)%Z) (ms_galleriesImages st))),
        None))
    (fun st gid =>
       (filter (fun i => existsb (fun p => (fst p =? gid)%Z && (snd p =? im_ID i)%Z)
                           (ms_galleriesImages st))
          (ms_images st), None))
    memUpdateImage
    (fun st i =>
       let i' := mkImage (ms_nextID st) (im_Checksum i) (im_Path i) (im_Width i) (im_Height i)
                   (im_Size i) (im_FileModTime i) (im_CreatedAt i) (im_UpdatedAt i) in
       (mkMemStore (ms_scenes st) (ms_images st ++ [i'])%list (ms_galleries st)
          (ms_galleriesImages st) (ms_nextID st + 1)%Z, inl i'))
    (fun st id ts =>
       memUpdateImage st (mkImagePartial id None None None None None (Some ts) None))
    (fun st path => found (find (fun g => NValid (ga_Path g) && (NString (ga_Path g) =? path))
                             (ms_galleries st)))
    (fun st id => found (find (fun g => (ga_ID g =? id)%Z) (ms_galleries st)))
    (fun st h => found (find (fun g => ga_Checksum g =? h) (ms_galleries st)))
    (fun st g => memUpdateGallery st (ga_ID g) (fun _ => g))
    (fun st p => memUpdateGallery st (gp_ID p) (applyGalleryPartial p))
    (fun st g =>
       let g' := mkGallery (ms_nextID st) (ga_Checksum g) (ga_Zip g) (ga_Path g)
                   (ga_FileModTime g) (ga_CreatedAt g) (ga_UpdatedAt g) in
       (mkMemStore (ms_scenes st) (ms_images st) (ms_galleries st ++ [g'])%list
          (ms_galleriesImages st) (ms_nextID st + 1)%Z, inl g'))
    (fun st id ts =>
       memUpdateGallery st id
         (applyGalleryPartial (mkGalleryPartial id None (Some ts) None)))
    (fun st gid iid =>
       (mkMemStore (ms_scenes st) (ms_images st) (ms_galleries st)
          (ms_galleriesImages st ++ [(gid, iid)])%list (ms_nextID st), None)).

(** One entry of the file table. *)
Record FileInfo : Type := mkFileInfo {
  fi_path : string;
  fi_isDir : bool;
  fi_modTime : Time;
  fi_md5 : string;
  fi_oshash : string;
  fi_zipEntries : list string
}.

Definition fileAt (files : list FileInfo) (path : string) : option FileInfo :=
  find (fun f => fi_path f =? path) files.

Definition noSuchFile : error := "no such file or directory".

Definition probedFile : VideoFile :=
  mkVideoFile "mp4" "a" "" "2021-01-01" 60 "h264" "aac" 1280 720 30 4000 "1024".

Fixpoint hasSlash (s : string) : bool :=
  match s with
  | EmptyString => false
  | String c rest => Ascii.eqb c "/"%char || hasSlash rest
  end.

(** The path up to its last slash. *)
Fixpoint dirOf (s : string) : string :=
  match s with
  | EmptyString => ""
  | String c rest => if hasSlash rest then String c (dirOf rest) else ""
  end.

Definition nulChar : string := String (ascii_of_nat 0) EmptyString.

(** The zip file and the entry named by a path inside a zip, which is the
    path of the zip, a NUL byte and the name of the entry. *)
Fixpoint zipSplit (path : string) : option (string * string) :=
  match path with
  | EmptyString => None
  | String c rest =>
      if Ascii.eqb c (ascii_of_nat 0) then Some ("", rest)
      else match zipSplit rest with
           | Some (zip, entry) => Some (String c zip, entry)
           | None => None
           end
  end.

(** The file that holds an image: the file itself, or the zip for an
    entry that the zip has. *)
Definition imageFileAt (files : list FileInfo) (path : string) : option FileInfo :=
  match zipSplit path with
  | Some (zip, entry) =>
      match fileAt files zip with
      | Some f => if existsb (String.eqb entry) (fi_zipEntries f) then Some f else None
      | None => None
      end
  | None =>
      match fileAt files path with
      | Some f => if fi_isDir f then None else Some f
      | None => None
      end
  end.

Definition memEnv (files : list FileInfo) (createGalleriesFromFolders : bool) : Env :=
  let stat path :=
    match fileAt files path with
    | Some f => (fi_modTime f, None)
    | None => (0%Z, Some noSuchFile)
    end in
  let md5 path :=
    match fileAt files path with
    | Some f => (fi_md5 f, None)
    | None => ("", Some noSuchFile)
    end in
  mkEnv
    stat
    (fun path =>
       let '(mt, e) := stat (match zipSplit path with Some (zip, _) => zip | None => path end) in
       (Truncate_Second mt, e))
    (fun path => (match fileAt files path with Some f => fi_isDir f | None => false end, None))
    (fun path => (match fileAt files path with Some f => negb (fi_isDir f) | None => false end,
                  None))
    (fun path => match imageFileAt files path with Some _ => true | None => false end)
    (fun path _ =>
       match fileAt files path with Some _ => inl probedFile | None => inr noSuchFile end)
    (fun container _ => container)
    (fun vf path _ =>
       mkVideoFile (vf_Container vf) path (vf_Comment vf) (vf_CreationDate vf) (vf_Duration vf)
         (vf_VideoCodec vf) (vf_AudioCodec vf) (vf_Width vf) (vf_Height vf) (vf_FrameRate vf)
         (vf_Bitrate vf) (vf_Size vf))
    (fun path =>
       match fileAt files path with
       | Some f => (fi_oshash f, None)
       | None => ("", Some noSuchFile)
       end)
    md5
    (fun s => "md5:" ++ s)
    (fun path =>
       match zipSplit path, imageFileAt files path with
       | Some (_, entry), Some _ => ("md5-" ++ entry, None)
       | None, Some f => (fi_md5 f, None)
       | _, None => ("", Some noSuchFile)
       end)
    (fun i => (i, None))
    (fun path =>
       match imageFileAt files path with
       | Some _ => inl (mkFileDetails (Some 640%Z) (Some 480%Z) (Some 2048%Z))
       | None => inr noSuchFile
       end)
    (fun path => path)
    (fun zip name => zip ++ nulChar ++ name)
    (fun path =>
       match fileAt files path with
       | Some f => Z.of_nat (List.length (fi_zipEntries f))
       | None => 0%Z
       end)
    (fun _ => (true, None))
    (fun path =>
       match fileAt files path with
       | Some f => (fi_zipEntries f, None)
       | None => ([], Some noSuchFile)
       end)
    dirOf
    HashAlgorithmOshash
    createGalleriesFromFolders
    1700000000000000000%Z
    (fun s a => if isMd5 a then NString (sc_Checksum s) else NString (sc_OSHash s)).

(** ** Definitions used to state the properties *)

(** The three ways of attaching a sub-filter. *)
Inductive attachOp : Type := AttachAnd | AttachOr | AttachNot.

Definition attach (m : attachOp) (f : filterBuilder) (a : option filterBuilder)
    : filterBuilder :=
  match m with
  | AttachAnd => f_and f a
  | AttachOr => f_or f a
  | AttachNot => f_not f a
  end.

Definition attachOperator (m : attachOp) : string :=
  match m with
  | AttachAnd => andOp
  | AttachOr => orOp
  | AttachNot => notOp
  end.

(** The number of positional parameters in a piece of SQL text. *)
Fixpoint placeholders (s : string) : nat :=
  match s with
  | EmptyString => 0
  | String c rest => (if Ascii.eqb c "?"%char then 1 else 0) + placeholders rest
  end.

(** Every clause of the tree binds as many arguments as its text has
    placeholders, and no operator contains one. *)
Fixpoint balanced (f : filterBuilder) : bool :=
  match f with
  | mkFilterBuilder sub op _ wheres _ _ =>
      forallb (fun c => (placeholders (sql c) =? List.length (args c))%nat) wheres
      && (placeholders op =? 0)%nat
      && match sub with
         | Some s => balanced s
         | None => true
         end
  end.

(** The where clauses of a tree in compilation order: the node's own,
    then those of its sub-filter. *)
Fixpoint segments (f : filterBuilder) : list sqlClause :=
  match f with
  | mkFilterBuilder sub _ _ wheres _ _ =>
      (wheres ++ match sub with
                 | Some s => segments s
                 | None => []
                 end)%list
  end.

(** Texts woven with separators: [s0 t1 s1 t2 ... tn sn]. *)
Fixpoint weave (seps texts : list string) : string :=
  match seps, texts with
  | s :: seps', t :: texts' => s ++ t ++ weave seps' texts'
  | s :: _, [] => s
  | [], _ => ""
  end.

(** How many joins of a list carry a given alias. *)
Definition aliasCount (a : string) (js : joins) : nat :=
  List.length (filter (fun j => alias j =? a) js).

(** Whether some node of the tree requested a join with the given alias. *)
Fixpoint requested (a : string) (f : filterBuilder) : nat :=
  match f with
  | mkFilterBuilder sub _ js _ _ _ =>
      (if existsb (fun j => alias j =? a) js then 1 else 0)
      + match sub with
        | Some s => requested a s
        | None => 0
        end
  end.

(** ** Concrete inputs *)

(** The joins of one tree: two tag joins at the root, and a sub-filter that
    asks for the tag joins again and then for the performer joins, which
    its own sub-filter asks for as well. *)
Definition lostJoinFilter : filterBuilder :=
  let inner :=
    addJoin emptyFilter "performers_scenes" "performers_join"
      "performers_join.scene_id = scenes.id" in
  let middle :=
    addJoin
      (addJoin emptyFilter "scenes_tags" "tags_join" "tags_join.scene_id = scenes.id")
      "performers_scenes" "performers_join" "performers_join.scene_id = scenes.id" in
  let root :=
    addJoin emptyFilter "scenes_tags" "tags_join" "tags_join.scene_id = scenes.id" in
  f_and root (Some (f_and middle (Some inner))).

(** The tree [(tag IN {5,7}) AND NOT (studio EXCLUDES {9})], built with
    the multi-value handlers. *)
Definition tagsHandler : multiCriterionHandlerBuilder :=
  mkMultiCriterionHandlerBuilder "scenes" "tags" "scenes_tags" "scene_id" "tag_id"
    (Some (fun f =>
       addJoin (addJoin f "scenes_tags" "tags_join" "tags_join.scene_id = scenes.id")
         "tags" "" "tags_join.tag_id = tags.id")).

Definition studioHandler : multiCriterionHandlerBuilder :=
  mkMultiCriterionHandlerBuilder "scenes" "studio" "" "" "studio_id"
    (Some (fun f => addJoin f "studios" "studio" "studio.id = scenes.studio_id")).

(** A scene with the tags 5 and 7. *)
Definition taggedScene : row := fun _ => ArgInt 1.

Definition sceneTag (scene : Z) (tag : string) : row :=
  fun column => if column =? "scene_id" then ArgInt scene else ArgString tag.

Definition taggedDb : database :=
  fun table =>
    if table =? "scenes_tags" then [sceneTag 1 "5"; sceneTag 1 "7"; sceneTag 2 "7"]
    else if table =? "scenes" then [taggedScene]
    else [].

Definition tagsNotStudioFilter : filterBuilder :=
  let root :=
    multi_handler tagsHandler
      (Some (mkMultiCriterionInput ["5"; "7"] CriterionModifierIncludes)) emptyFilter in
  let sub :=
    multi_handler studioHandler
      (Some (mkMultiCriterionInput ["9"] CriterionModifierExcludes)) emptyFilter in
  f_not root (Some sub).

(** A node with no clause of its own and a sub-filter attached with
    [not]; the sub-filter has one WHERE and one HAVING clause. *)
Definition notOnlyFilter : filterBuilder :=
  let sub :=
    addHaving
      (addWhere emptyFilter "studios.id IN (?)" [ArgString "9"])
      "count(distinct tags.id) IS 2" [] in
  f_not emptyFilter (Some sub).

(** *** Concrete inputs for the scan task *)

(** Whole seconds as a [Time]. *)
Definition seconds (n : Z) : Time := (n * 1000000000)%Z.

Definition plainTask (path : string) : ScanTask :=
  mkScanTask path false false false HashAlgorithmOshash false false false None.

(** A zip gallery that was scanned before: its record carries the file's
    modification time and its three images are in the catalog. *)
Definition zipFiles : list FileInfo :=
  [mkFileInfo "g.zip" false (seconds 1600000000 + 500)%Z "md5-g" "os-g"
     ["1.jpg"; "2.jpg"; "3.jpg"]].

Definition zipGalleryRecord : Gallery :=
  mkGallery 1 "md5-g" true (mkNullString "g.zip" true)
    (mkNullSQLiteTimestamp (seconds 1600000000) true)
    (seconds 1600000100) (seconds 1600000100).

Definition zipImage (id : Z) (name : string) : Image :=
  mkImage id ("md5-" ++ name) ("g.zip" ++ nulChar ++ name) (Some 640%Z) (Some 480%Z)
    (Some 2048%Z) (mkNullSQLiteTimestamp (seconds 1600000000) true)
    (seconds 1600000100) (seconds 1600000100).

Definition zipStore : MemStore :=
  mkMemStore []
    [zipImage 2 "1.jpg"; zipImage 3 "2.jpg"; zipImage 4 "3.jpg"]
    [zipGalleryRecord]
    [(1, 2); (1, 3); (1, 4)]%Z
    5.

Definition zipEnv : Env := memEnv zipFiles false.

(** A scene and an image that were scanned before and did not change. *)
Definition unchangedFiles : list FileInfo :=
  [mkFileInfo "a.mp4" false (seconds 1600000000 + 123456)%Z "md5-a" "os-a" [];
   mkFileInfo "p.jpg" false (seconds 1600000007) "md5-p" "" []].

Definition unchangedScene : Scene :=
  mkScene 1 (mkNullString "md5-a" true) (mkNullString "os-a" true) "a.mp4"
    (mkNullString "a" true) (mkNullString "" false) "" (Some 60%Z)
    (mkNullString "h264" true) (mkNullString "aac" true) (mkNullString "mp4" true)
    (Some 1280%Z) (Some 720%Z) (Some 30%Z) (Some 4000%Z) (mkNullString "1024" true)
    (mkNullSQLiteTimestamp (seconds 1600000000) true)
    (seconds 1600000100) (seconds 1600000100).

Definition unchangedImage : Image :=
  mkImage 2 "md5-p" "p.jpg" (Some 640%Z) (Some 480%Z) (Some 2048%Z)
    (mkNullSQLiteTimestamp (seconds 1600000007) true)
    (seconds 1600000100) (seconds 1600000100).

Definition unchangedStore : MemStore :=
  mkMemStore [unchangedScene] [unchangedImage] [] [] 3.

Definition unchangedEnv : Env := memEnv unchangedFiles false.

(** A scene and an image whose files moved: the records carry the old
    paths, which are gone, and the same content is at new paths. *)
Definition movedFiles : list FileInfo :=
  [mkFileInfo "new/a.mp4" false (seconds 1600000000) "md5-a" "os-a" [];
   mkFileInfo "new/p.jpg" false (seconds 1600000007) "md5-p" "" []].

Definition movedScene : Scene :=
  mkScene 1 (mkNullString "" false) (mkNullString "os-a" true) "old/a.mp4"
    (mkNullString "a" true) (mkNullString "" false) "" (Some 60%Z)
    (mkNullString "h264" true) (mkNullString "aac" true) (mkNullString "mp4" true)
    (Some 1280%Z) (Some 720%Z) (Some 30%Z) (Some 4000%Z) (mkNullString "1024" true)
    (mkNullSQLiteTimestamp (seconds 1600000000) true)
    (seconds 1600000100) (seconds 1600000100).

Definition movedImage : Image :=
  mkImage 2 "md5-p" "old/p.jpg" (Some 640%Z) (Some 480%Z) (Some 2048%Z)
    (mkNullSQLiteTimestamp (seconds 1600000007) true)
    (seconds 1600000100) (seconds 1600000100).

Definition movedStore : MemStore :=
  mkMemStore [movedScene] [movedImage] [] [] 3.

Definition movedEnv : Env := memEnv movedFiles false.

(** Two image files with the same content in one folder, the first of
    them in the catalog, with galleries created from folders. *)
Definition duplicateFiles : list FileInfo :=
  [mkFileInfo "pics/a.jpg" false (seconds 1600000000) "md5-x" "" [];
   mkFileInfo "pics/b.jpg" false (seconds 1600000050) "md5-x" "" []].

Definition duplicateImage : Image :=
  mkImage 1 "md5-x" "pics/a.jpg" (Some 640%Z) (Some 480%Z) (Some 2048%Z)
    (mkNullSQLiteTimestamp (seconds 1600000000) true)
    (seconds 1600000100) (seconds 1600000100).

Definition duplicateStore : MemStore :=
  mkMemStore [] [duplicateImage] [] [] 2.

Definition duplicateEnv : Env := memEnv duplicateFiles true.

(** A checker standing for [regexp.Compile]: a pattern with an unclosed
    parenthesis does not compile. *)
Fixpoint openParens (s : string) (depth : nat) : nat :=
  match s with
  | EmptyString => depth
  | String c rest =>
      if Ascii.eqb c "("%char then openParens rest (S depth)
      else if Ascii.eqb c ")"%char then openParens rest (Nat.pred depth)
      else openParens rest depth
  end.

Definition parenCompile (pattern : string) : option error :=
  if (openParens pattern 0 =? 0)%nat then None
  else Some ("error parsing regexp: missing closing ): `" ++ pattern ++ "`").

(* ================================================================== *)
(** * Part II-b. Further definitions used to state properties *)
(* ================================================================== *)

(** The errors recorded on the nodes of a tree, root first. *)
Fixpoint errorsOf (f : filterBuilder) : list error :=
  match f with
  | mkFilterBuilder sub _ _ _ _ e =>
      (match e with Some x => [x] | None => [] end
       ++ match sub with
          | Some s => errorsOf s
          | None => []
          end)%list
  end.

(** The joins attached to the nodes of a tree, root first. *)
Fixpoint requestedJoins (f : filterBuilder) : joins :=
  match f with
  | mkFilterBuilder sub _ js _ _ _ =>
      (js ++ match sub with
             | Some s => requestedJoins s
             | None => []
             end)%list
  end.

(** The having clauses of a tree in compilation order. *)
Fixpoint havingSegments (f : filterBuilder) : list sqlClause :=
  match f with
  | mkFilterBuilder sub _ _ _ havings _ =>
      (havings ++ match sub with
                  | Some s => havingSegments s
                  | None => []
                  end)%list
  end.

(** A clause binds as many arguments as its text has placeholders. *)
Definition balancedClause (c : sqlClause) : bool :=
  (placeholders (sql c) =? List.length (args c))%nat.

(* ================================================================== *)
(** * Part II-c. Package sqlite: further code *)
(* ================================================================== *)

(** ** Integer criteria *)

(** The dynamic type of the value handed to [getCriterionModifierBinding]:
    the type switch tells string slices and int slices from anything else. *)
Inductive bindingValue : Type :=
| ValueStrings (x : list string)
| ValueInts (x : list Z)
| ValueInt (x : Z).

Definition getCriterionModifierBinding (criterionModifier : CriterionModifier)
    (value : bindingValue) : string * nat :=
  let length :=
    match value with
    | ValueStrings x => List.length x
    | ValueInts x => List.length x
    | _ => 1
    end in
  if IsValid criterionModifier then
    let modifier := CriterionModifier_String criterionModifier in
    if (modifier =? "EQUALS") || (modifier =? "NOT_EQUALS") || (modifier =? "GREATER_THAN")
       || (modifier =? "LESS_THAN") || (modifier =? "IS_NULL") || (modifier =? "NOT_NULL")
    then getSimpleCriterionClause criterionModifier "?"
    else if modifier =? "INCLUDES" then ("IN " ++ getInBinding length, length)
    else if modifier =? "EXCLUDES" then ("NOT IN " ++ getInBinding length, length)
    else ("= ?", 1)
  else ("= ?", 1).

Record IntCriterionInput : Type := mkIntCriterionInput {
  ici_Value : Z;
  ici_Modifier : CriterionModifier
}.

Definition getIntCriterionWhereClause (column : string) (input : IntCriterionInput)
    : string * nat :=
  let '(binding, count) :=
    getCriterionModifierBinding (ici_Modifier input) (ValueInt (ici_Value input)) in
  (column ++ " " ++ binding, count).

Definition intCriterionHandler (c : option IntCriterionInput) (column : string)
    : criterionHandlerFunc :=
  fun f =>
    match c with
    | None => f
    | Some c =>
        let '(clause, count) := getIntCriterionWhereClause column c in
        if (count =? 1)%nat then addWhere f clause [ArgInt (ici_Value c)]
        else addWhere f clause []
    end.

(** ** Criteria handled by the query builder itself *)

Definition handleIntCriterionInput (qb : queryBuilder) (c : option IntCriterionInput)
    (column : string) : queryBuilder :=
  match c with
  | None => qb
  | Some c =>
      let '(clause, count) := getIntCriterionWhereClause column c in
      let qb := qb_addWhere qb [clause] in
      if (count =? 1)%nat then qb_addArg qb [ArgInt (ici_Value c)] else qb
  end.

Section QueryStringCriterion.

Variable regexp_Compile : string -> option error.

Definition handleStringCriterionInput (qb : queryBuilder) (c : option StringCriterionInput)
    (column : string) : queryBuilder :=
  match c with
  | None => qb
  | Some c =>
      let modifier := sci_Modifier c in
      if IsValid (sci_Modifier c) then
        match modifier with
        | CriterionModifierIncludes =>
            let '(clause, thisArgs) := getSearchBinding [column] (sci_Value c) false in
            qb_addArg (qb_addWhere qb [clause]) thisArgs
        | CriterionModifierExcludes =>
            let '(clause, thisArgs) := getSearchBinding [column] (sci_Value c) true in
            qb_addArg (qb_addWhere qb [clause]) thisArgs
        | CriterionModifierEquals =>
            qb_addArg (qb_addWhere qb [column ++ " LIKE ?"]) [ArgString (sci_Value c)]
        | CriterionModifierNotEquals =>
            qb_addArg (qb_addWhere qb [column ++ " NOT LIKE ?"]) [ArgString (sci_Value c)]
        | CriterionModifierMatchesRegex =>
            match regexp_Compile (sci_Value c) with
            | Some err => qb_setErr qb err
            | None =>
                qb_addArg (qb_addWhere qb [column ++ " regexp ?"]) [ArgString (sci_Value c)]
            end
        | CriterionModifierNotMatchesRegex =>
            match regexp_Compile (sci_Value c) with
            | Some err => qb_setErr qb err
            | None =>
                qb_addArg (qb_addWhere qb [column ++ " NOT regexp ?"])
                  [ArgString (sci_Value c)]
            end
        | CriterionModifierIsNull =>
            qb_addWhere qb ["(" ++ column ++ " IS NULL OR TRIM(" ++ column ++ ") = '')"]
        | CriterionModifierNotNull =>
            qb_addWhere qb ["(" ++ column ++ " IS NOT NULL AND TRIM(" ++ column ++ ") != '')"]
        | _ =>
            let '(clause, count) := getSimpleCriterionClause modifier "?" in
            let qb := qb_addWhere qb [column ++ " " ++ clause] in
            if (count =? 1)%nat then qb_addArg qb [ArgString (sci_Value c)] else qb
        end
      else qb
  end.

End QueryStringCriterion.

(** ** Further definitions used to state properties of the query builder *)

(** Every having clause of the tree binds as many arguments as its text
    has placeholders, and no operator contains one. *)
Fixpoint balancedHaving (f : filterBuilder) : bool :=
  match f with
  | mkFilterBuilder sub op _ _ havings _ =>
      forallb balancedClause havings
      && (placeholders op =? 0)%nat
      && match sub with
         | Some s => balancedHaving s
         | None => true
         end
  end.

(** A join whose table, alias and ON clause hold no placeholder. *)
Definition cleanJoin (j : join) : bool :=
  (placeholders (table j) + placeholders (as_ j) + placeholders (onClause j) =? 0)%nat.

(** What one handler call may do to a node: leave joins, having clauses
    and sub-filter alone, and append at most one where clause, which is
    balanced; the error state changes only when no clause is added. *)
Definition addsAtMostOneBalancedClause (f f' : filterBuilder) : Prop :=
  fjoins f' = fjoins f /\
  havingClauses f' = havingClauses f /\
  subFilter f' = subFilter f /\
  subFilterOp f' = subFilterOp f /\
  exists added : list sqlClause,
    whereClauses f' = (whereClauses f ++ added)%list /\
    List.length added <= 1 /\
    forallb balancedClause added = true /\
    (added <> [] -> err f' = err f).

(** The clause list added for a compiled text: nothing when it is empty. *)
Definition nonEmpty (text : string) : list string :=
  if text =? "" then [] else [text].

(** The placeholders of a list of clause texts. *)
Definition placeholdersOf (clauses : list string) : nat :=
  list_sum (map placeholders clauses).

(** The identifiers of a multi-value handler hold no placeholder. *)
Definition cleanHandler (m : multiCriterionHandlerBuilder) : bool :=
  (placeholders (primaryTable m) + placeholders (foreignTable m)
   + placeholders (joinTable m) + placeholders (primaryFK m)
   + placeholders (foreignFK m) =? 0)%nat.

(** The modifiers that [getMultiCriterionClause] compiles. *)
Definition multiSupported (m : CriterionModifier) : bool :=
  match m with
  | CriterionModifierIncludes | CriterionModifierIncludesAll
  | CriterionModifierExcludes => true
  | _ => false
  end.


(** ** The repository over a database handle *)

Definition sql_ErrNoRows : error := "sql: no rows in result set".

(** The [%d] rendering of an int. *)
Definition FormatInt (z : Z) : string := NilZero.string_of_int (Z.to_int z).

(** A struct handed to [insert] or [update], as reflection sees it: for
    each field its [db] tag and whether its value is a nil pointer. *)
Record structField : Type := mkStructField {
  sf_tag : string;
  sf_isNil : bool
}.

Definition object : Type := list structField.

(** A call on the database handle. *)
Inductive dbCall : Type :=
| CallGet (stmt : string) (args : list arg)
| CallExec (stmt : string) (args : list arg)
| CallNamedExec (stmt : string) (obj : object).

Definition isWriteCall (c : dbCall) : bool :=
  match c with CallGet _ _ => false | _ => true end.

(** The key of a field: its tag up to the first comma. *)
Definition fieldKey (f : structField) : string :=
  hd "" (Split (sf_tag f) ","%char).

(** The [query] slice built by the loop of [listKeys]. *)
Fixpoint listKeys_query (i : object) (addPrefix : bool) : list string :=
  match i with
  | [] => []
  | f :: rest =>
      let key := fieldKey f in
      if key =? "id" then listKeys_query rest addPrefix
      else (if addPrefix then ":" ++ key else key) :: listKeys_query rest addPrefix
  end.

Definition listKeys (i : object) (addPrefix : bool) : string :=
  Join (listKeys_query i addPrefix) ", ".

(** The [query] slice built by the loop of [updateSet]. *)
Fixpoint updateSet_query (i : object) (partial : bool) : list string :=
  match i with
  | [] => []
  | f :: rest =>
      let key := fieldKey f in
      if key =? "id" then updateSet_query rest partial
      else
        let add := if partial then negb (sf_isNil f) else true in
        if add then (key ++ "=:" ++ key) :: updateSet_query rest partial
        else updateSet_query rest partial
  end.

Definition updateSet (i : object) (partial : bool) : string :=
  Join (updateSet_query i partial) ", ".

Record joinRepository : Type := mkJoinRepository {
  jr_repository : repository;
  fkColumn : string
}.

Section Driver.

(** The database handle [tx]: [Get] into the one-column count struct
    (the scanned value, if a row was scanned, and the error), [Exec] and
    [NamedExec]. *)
Variable Db : Type.
Variable tx_Get : Db -> string -> list arg -> option Z * option error.
Variable tx_Exec : Db -> string -> list arg -> Db * option error.
Variable tx_NamedExec : Db -> string -> object -> Db * option error.

Definition runCountQuery (db : Db) (query : string) (args : list arg)
    : Z * option error :=
  let '(scanned, err) := tx_Get db query args in
  let result := match scanned with Some n => n | None => 0%Z end in
  match err with
  | Some e => if negb (e =? sql_ErrNoRows) then (0%Z, Some e) else (result, None)
  | None => (result, None)
  end.

Definition exists_ (r : repository) (id : Z) (db : Db)
    : (bool * option error) * list dbCall :=
  let stmt := "SELECT " ++ idColumn r ++ " FROM " ++ tableName r ++ " WHERE "
                ++ idColumn r ++ " = ? LIMIT 1" in
  let stmt := buildCountQuery stmt in
  let '(c, err) := runCountQuery db stmt [ArgInt id] in
  (match err with
   | Some e => (false, Some e)
   | None => ((c =? 1)%Z, None)
   end, [CallGet stmt [ArgInt id]]).

Definition doesNotExist (r : repository) (id : Z) : error :=
  idColumn r ++ " " ++ FormatInt id ++ " does not exist in " ++ tableName r.

Definition update (r : repository) (id : Z) (obj : object) (partial : bool) (db : Db)
    : option error * (Db * list dbCall) :=
  let '((ex, err), log) := exists_ r id db in
  match err with
  | Some e => (Some e, (db, log))
  | None =>
      if negb ex then (Some (doesNotExist r id), (db, log))
      else
        let stmt := "UPDATE " ++ tableName r ++ " SET " ++ updateSet obj partial
                      ++ " WHERE " ++ tableName r ++ "." ++ idColumn r ++ " = :id" in
        let '(db1, err) := tx_NamedExec db stmt obj in
        (err, (db1, (log ++ [CallNamedExec stmt obj])%list))
  end.

Definition deleteStatement (r : repository) : string :=
  "DELETE FROM " ++ tableName r ++ " WHERE " ++ idColumn r ++ " = ?".

Fixpoint destroy (r : repository) (ids : list Z) (db : Db)
    : option error * (Db * list dbCall) :=
  match ids with
  | [] => (None, (db, []))
  | id :: rest =>
      let stmt := deleteStatement r in
      let '(db1, err) := tx_Exec db stmt [ArgInt id] in
      match err with
      | Some e => (Some e, (db1, [CallExec stmt [ArgInt id]]))
      | None =>
          let '(err, (db2, log)) := destroy r rest db1 in
          (err, (db2, CallExec stmt [ArgInt id] :: log))
      end
  end.

(** The loop of [destroyExisting]: the first id that cannot be confirmed
    ends it with an error. *)
Fixpoint destroyExisting_check (r : repository) (ids : list Z) (db : Db)
    : option error * list dbCall :=
  match ids with
  | [] => (None, [])
  | id :: rest =>
      let '((ex, err), log) := exists_ r id db in
      match err with
      | Some e => (Some e, log)
      | None =>
          if negb ex then (Some (doesNotExist r id), log)
          else
            let '(err, log') := destroyExisting_check r rest db in
            (err, (log ++ log')%list)
      end
  end.

Definition destroyExisting (r : repository) (ids : list Z) (db : Db)
    : option error * (Db * list dbCall) :=
  let '(err, log) := destroyExisting_check r ids db in
  match err with
  | Some e => (Some e, (db, log))
  | None =>
      let '(err, (db1, log1)) := destroy r ids db in
      (err, (db1, (log ++ log1)%list))
  end.

Definition insertStatement (r : joinRepository) : string :=
  "INSERT INTO " ++ tableName (jr_repository r) ++ " (" ++ idColumn (jr_repository r)
    ++ ", " ++ fkColumn r ++ ") VALUES (?, ?)".

Definition joinRepository_insert (r : joinRepository) (id foreignID : Z) (db : Db)
    : option error * (Db * list dbCall) :=
  let stmt := insertStatement r in
  let '(db1, err) := tx_Exec db stmt [ArgInt id; ArgInt foreignID] in
  (err, (db1, [CallExec stmt [ArgInt id; ArgInt foreignID]])).

(** The loop of [replace] over the foreign ids. *)
Fixpoint joinRepository_replace_loop (r : joinRepository) (id : Z) (foreignIDs : list Z)
    (db : Db) : option error * (Db * list dbCall) :=
  match foreignIDs with
  | [] => (None, (db, []))
  | fk :: rest =>
      let '(err, (db1, log)) := joinRepository_insert r id fk db in
      match err with
      | Some e => (Some e, (db1, log))
      | None =>
          let '(err, (db2, log')) := joinRepository_replace_loop r id rest db1 in
          (err, (db2, (log ++ log')%list))
      end
  end.

Definition joinRepository_replace (r : joinRepository) (id : Z) (foreignIDs : list Z)
    (db : Db) : option error * (Db * list dbCall) :=
  let '(err, (db1, log)) := destroy (jr_repository r) [id] db in
  match err with
  | Some e => (Some e, (db1, log))
  | None =>
      let '(err, (db2, log')) := joinRepository_replace_loop r id foreignIDs db1 in
      (err, (db2, (log ++ log')%list))
  end.

End Driver.

Arguments runCountQuery {Db}.
Arguments exists_ {Db}.
Arguments update {Db}.
Arguments destroy {Db}.
Arguments destroyExisting_check {Db}.
Arguments destroyExisting {Db}.
Arguments joinRepository_insert {Db}.
Arguments joinRepository_replace_loop {Db}.
Arguments joinRepository_replace {Db}.

(** A table as a list of ids, with a driver that answers the statements of
    [exists], [destroy] and [insert] on it. *)
Definition rowsDb : Type := list Z.

Definition rows_Get (db : rowsDb) (stmt : string) (a : list arg)
    : option Z * option error :=
  match a with
  | [ArgInt id] => (Some (if existsb (Z.eqb id) db then 1%Z else 0%Z), None)
  | _ => (None, Some "bad arguments")
  end.

Definition rows_Exec (db : rowsDb) (stmt : string) (a : list arg)
    : rowsDb * option error :=
  match a with
  | [ArgInt id] => (filter (fun x => negb (x =? id)%Z) db, None)
  | [ArgInt id; ArgInt fk] => ((db ++ [id])%list, None)
  | _ => (db, Some "bad arguments")
  end.

Definition rows_NamedExec (db : rowsDb) (stmt : string) (obj : object)
    : rowsDb * option error := (db, None).

Definition tagsTable : repository := mkRepository "tags" "id".

Definition scenesTags : joinRepository :=
  mkJoinRepository (mkRepository "scenes_tags" "scene_id") "tag_id".

(* ================================================================== *)
(** * Part II-d. Package manager: further catalogs and file tables *)
(* ================================================================== *)

(** A catalog without records. *)
Definition emptyStore : MemStore := mkMemStore [] [] [] [] 1%Z.

(** A catalog whose lookups by path fail, as when the database cannot be
    read; everything else is [memRepository]. *)
Definition databaseLocked : error := "database is locked".

Definition lockedRepository : Repository MemStore :=
  mkRepositoryOps MemStore
    (fun _ _ => (None, Some databaseLocked))
    (Scene_Find memRepository)
    (Scene_FindByChecksum memRepository)
    (Scene_FindByOSHash memRepository)
    (Scene_Update memRepository)
    (Scene_Create memRepository)
    (scene_UpdateFileModTime memRepository)
    (scene_UpdateFormat memRepository)
    (scene_UpdateOSHash memRepository)
    (scene_UpdateChecksum memRepository)
    (fun _ _ => (None, Some databaseLocked))
    (Image_Find memRepository)
    (Image_FindByChecksum memRepository)
    (Image_CountByGalleryID memRepository)
    (Image_FindByGalleryID memRepository)
    (Image_Update memRepository)
    (Image_Create memRepository)
    (image_UpdateFileModTime memRepository)
    (fun _ _ => (None, Some databaseLocked))
    (Gallery_Find memRepository)
    (Gallery_FindByChecksum memRepository)
    (Gallery_Update memRepository)
    (Gallery_UpdatePartial memRepository)
    (Gallery_Create memRepository)
    (gallery_UpdateFileModTime memRepository)
    (gallery_AddImage memRepository).

(** A folder whose name ends like a media file. *)
Definition folderFiles : list FileInfo :=
  [mkFileInfo "clips.mp4" true (seconds 1600000000) "" "" []].

Definition folderEnv : Env := memEnv folderFiles false.

Definition isSceneWrite (w : WriteOp) : bool :=
  match w with
  | WSceneUpdateFileModTime _ _ | WSceneUpdateFormat _ _ | WSceneUpdateOSHash _ _
  | WSceneUpdateChecksum _ _ | WSceneUpdate _ | WSceneCreate _ => true
  | _ => false
  end.

Definition isCreate (w : WriteOp) : bool :=
  match w with
  | WSceneCreate _ | WImageCreate _ | WGalleryCreate _ => true
  | _ => false
  end.

(** A scene recorded before oshashes were stored, whose file has the
    oshash of another record. *)
Definition clashFiles : list FileInfo :=
  [mkFileInfo "b.mp4" false (seconds 1600000000) "md5-b" "os-c" []].

Definition legacyScene : Scene :=
  mkScene 1 (mkNullString "md5-b" true) (mkNullString "" false) "b.mp4"
    (mkNullString "b" true) (mkNullString "" false) "" (Some 60%Z)
    (mkNullString "h264" true) (mkNullString "aac" true) (mkNullString "mp4" true)
    (Some 1280%Z) (Some 720%Z) (Some 30%Z) (Some 4000%Z) (mkNullString "1024" true)
    (mkNullSQLiteTimestamp (seconds 1600000000) true)
    (seconds 1600000100) (seconds 1600000100).

Definition otherScene : Scene :=
  mkScene 2 (mkNullString "md5-c" true) (mkNullString "os-c" true) "c.mp4"
    (mkNullString "c" true) (mkNullString "" false) "" (Some 60%Z)
    (mkNullString "h264" true) (mkNullString "aac" true) (mkNullString "mp4" true)
    (Some 1280%Z) (Some 720%Z) (Some 30%Z) (Some 4000%Z) (mkNullString "1024" true)
    (mkNullSQLiteTimestamp (seconds 1600000000) true)
    (seconds 1600000100) (seconds 1600000100).

Definition clashStore : MemStore :=
  mkMemStore [legacyScene; otherScene] [] [] [] 3.

Definition clashEnv : Env := memEnv clashFiles false.

(** The zip of [zipGalleryRecord] under a new name, the old file gone. *)
Definition renamedZipFiles : list FileInfo :=
  [mkFileInfo "h.zip" false (seconds 1600000000) "md5-g" "os-g"
     ["1.jpg"; "2.jpg"; "3.jpg"]].

Definition renamedZipEnv : Env := memEnv renamedZipFiles false.



(* ================================================================== *)
(** * Part III. Package sqlite: properties *)
(* ================================================================== *)

(** ** Strings *)

Lemma append_empty_r (s : string) : s ++ "" = s.
Proof. induction s as [|c s IH]; simpl; [reflexivity | now rewrite IH]. Qed.

Lemma append_eq_empty (a b : string) : a ++ b = "" -> a = "" /\ b = "".
Proof. destruct a; simpl; [auto | discriminate]. Qed.

Lemma append_assoc (a b c : string) : (a ++ b) ++ c = a ++ (b ++ c).
Proof. induction a as [|x a IH]; simpl; [reflexivity | now rewrite IH]. Qed.

Lemma prefix_append (a b : string) : String.prefix a (a ++ b) = true.
Proof.
  induction a as [|c a IH]; simpl.
  - now destruct b.
  - destruct (ascii_dec c c); [assumption | congruence].
Qed.

Lemma placeholders_app (a b : string) :
  placeholders (a ++ b) = placeholders a + placeholders b.
Proof.
  induction a as [|c a IH]; simpl; [reflexivity|].
  rewrite IH. apply Nat.add_assoc.
Qed.

(** ** An induction principle for filter trees *)

Lemma filterBuilder_induction (P : filterBuilder -> Prop) :
  (forall op js ws hs e, P (mkFilterBuilder None op js ws hs e)) ->
  (forall s op js ws hs e, P s -> P (mkFilterBuilder (Some s) op js ws hs e)) ->
  forall f, P f.
Proof.
  intros Hleaf Hnode.
  fix IH 1.
  intros [[s|] op js ws hs e].
  - apply Hnode, IH.
  - apply Hleaf.
Qed.

(** ** Joins *)

Lemma existsb_equals_alias (n : join) (j : joins) :
  existsb (fun jj => equals jj n) j = true <-> In (alias n) (map alias j).
Proof.
  unfold equals. rewrite existsb_exists, in_map_iff.
  split; intros [x [H1 H2]]; exists x.
  - apply String.eqb_eq in H2. auto.
  - split; [assumption | now apply String.eqb_eq].
Qed.

Lemma NoDup_snoc {A} (l : list A) (x : A) :
  NoDup l -> ~ In x l -> NoDup (l ++ [x])%list.
Proof.
  intros Hl Hx. apply NoDup_app.
  - assumption.
  - constructor; [intros [] | constructor].
  - intros a Ha [Hax | []]. subst. contradiction.
Qed.

(** [joins.add] keeps the aliases of the receiver pairwise distinct. *)
Lemma joins_add_NoDup (newJoins : list join) :
  forall j, NoDup (map alias j) -> NoDup (map alias (joins_add j newJoins)).
Proof.
  induction newJoins as [|n rest IH]; intros j Hj; simpl.
  - assumption.
  - destruct (existsb (fun jj => equals jj n) j) eqn:E.
    + assumption.
    + apply IH. rewrite map_app. simpl. apply NoDup_snoc; [assumption|].
      intros Hin. apply existsb_equals_alias in Hin. congruence.
Qed.

(** [joins.add] only ever appends joins of its argument. *)
Lemma joins_add_aliases (newJoins : list join) :
  forall j a, In a (map alias (joins_add j newJoins)) ->
              In a (map alias j) \/ In a (map alias newJoins).
Proof.
  induction newJoins as [|n rest IH]; intros j a Ha; simpl in *.
  - now left.
  - destruct (existsb (fun jj => equals jj n) j).
    + now left.
    + apply IH in Ha. rewrite map_app, in_app_iff in Ha. simpl in Ha.
      tauto.
Qed.

(** The join list of a whole tree never carries an alias twice. *)
Lemma getAllJoins_NoDup (f : filterBuilder) : NoDup (map alias (getAllJoins f)).
Proof.
  induction f as [op js ws hs e | s op js ws hs e IH] using filterBuilder_induction;
    simpl.
  - apply joins_add_NoDup. constructor.
  - destruct (0 <? List.length (getAllJoins s))%nat.
    + apply joins_add_NoDup, joins_add_NoDup. constructor.
    + apply joins_add_NoDup. constructor.
Qed.

Lemma NoDup_filter_le_1 (a : string) (js : joins) :
  NoDup (map alias js) -> aliasCount a js <= 1.
Proof.
  unfold aliasCount.
  induction js as [|j js IH]; simpl; intros Hnd; [lia|].
  inversion Hnd as [|x l Hnotin Hnd']; subst.
  destruct (alias j =? a) eqn:E; simpl.
  - apply String.eqb_eq in E. subst.
    assert (Hnone : filter (fun j0 => alias j0 =? alias j) js = []).
    { clear - Hnotin. induction js as [|k js IH]; simpl; [reflexivity|].
      destruct (alias k =? alias j) eqn:E.
      - apply String.eqb_eq in E. exfalso. apply Hnotin. simpl. now left.
      - apply IH. intros H. apply Hnotin. simpl. now right. }
    rewrite Hnone. simpl. lia.
  - now apply IH.
Qed.

Lemma getAllJoins_at_most_one (f : filterBuilder) (a : string) :
  aliasCount a (getAllJoins f) <= 1.
Proof. apply NoDup_filter_le_1, getAllJoins_NoDup. Qed.

(** C7. The join list of a filter tree never has two joins with one alias,
    but a join that two nodes attached can be missing from it: here
    [performers_join] is requested by the sub-filter and by its own
    sub-filter, and [getAllJoins] returns the tag join alone, because
    [joins.add] returns at the first join it already has. *)
Theorem getAllJoins_loses_requested_join :
  requested "performers_join" lostJoinFilter = 2 /\
  getAllJoins lostJoinFilter
    = [mkJoin "scenes_tags" "tags_join" "tags_join.scene_id = scenes.id"] /\
  aliasCount "performers_join" (getAllJoins lostJoinFilter) = 0 /\
  joins_toSQL (qb_joins (addFilter (newQuery (mkRepository "scenes" "id")) lostJoinFilter))
    = "LEFT JOIN scenes_tags AS tags_join ON tags_join.scene_id = scenes.id" /\
  (forall f a, aliasCount a (getAllJoins f) <= 1).
Proof.
  split; [reflexivity|].
  split; [reflexivity|].
  split; [reflexivity|].
  split; [reflexivity|].
  intros f a. apply getAllJoins_at_most_one.
Qed.

(** C8. When a join of the slice passed to [joins.add] has the alias of a
    join already in the receiver, the method returns there: the result is
    what the joins before it produced, and no later join of the slice is
    added, not even one whose alias is new. *)
Theorem joins_add_returns_at_first_duplicate :
  forall (j : joins) (pre : list join) (d : join) (post : list join),
    In (alias d) (map alias j) ->
    joins_add j (pre ++ d :: post)%list = joins_add j pre /\
    (forall x, In x post ->
               ~ In (alias x) (map alias j) ->
               ~ In (alias x) (map alias pre) ->
               ~ In (alias x) (map alias (joins_add j (pre ++ d :: post)%list))).
Proof.
  intros j pre d post Hd.
  assert (Heq : joins_add j (pre ++ d :: post)%list = joins_add j pre).
  { revert j Hd. induction pre as [|p pre IH]; intros j Hd; simpl.
    - apply existsb_equals_alias in Hd. now rewrite Hd.
    - destruct (existsb (fun jj => equals jj p) j); [reflexivity|].
      apply IH. rewrite map_app. apply in_or_app. now left. }
  split; [exact Heq|].
  intros x _ Hj Hpre Hin. rewrite Heq in Hin.
  apply joins_add_aliases in Hin. tauto.
Qed.

Lemma joins_add_returns_at_first_duplicate_witness :
  let a := mkJoin "scenes_tags" "tags_join" "tags_join.scene_id = scenes.id" in
  let b := mkJoin "performers_scenes" "performers_join"
             "performers_join.scene_id = scenes.id" in
  joins_add [a] [a; b] = [a].
Proof.
  intros a b.
  exact (proj1 (joins_add_returns_at_first_duplicate [a] [] a [b]
                  (or_introl eq_refl))).
Defined.

(** ** Clause generation *)

Lemma andClauses_args (input : list sqlClause) :
  snd (andClauses input) = flat_map args input.
Proof. destruct input; reflexivity. Qed.

Lemma andClauses_empty_text (input : list sqlClause) :
  fst (andClauses input) = "" -> input = [].
Proof. destruct input; [reflexivity | discriminate]. Qed.

Lemma getSubFilterClause_nonempty (f : filterBuilder) (clause c : string) :
  c <> "" -> getSubFilterClause f clause c <> "".
Proof.
  intros Hc H. unfold getSubFilterClause in H.
  apply String.eqb_neq in Hc. rewrite Hc in H. simpl in H.
  apply append_eq_empty in H. destruct H as [_ H].
  apply append_eq_empty in H. destruct H as [_ H].
  subst. discriminate.
Qed.

(** A tree that compiles to no text binds no argument. *)
Lemma generateWhereClauses_empty_text (f : filterBuilder) :
  fst (generateWhereClauses f) = "" -> snd (generateWhereClauses f) = [].
Proof.
  induction f as [op js ws hs e | s op js ws hs e IH] using filterBuilder_induction;
    simpl.
  - destruct (andClauses ws) as [clause a] eqn:E. simpl. intros ->.
    apply (f_equal fst) in E as E1. apply andClauses_empty_text in E1. subst ws.
    now inversion E.
  - destruct (andClauses ws) as [clause a] eqn:E.
    destruct (generateWhereClauses s) as [c sa] eqn:Es. simpl in IH.
    destruct (c =? "") eqn:Ec; simpl.
    + intros ->. apply (f_equal fst) in E as E1. apply andClauses_empty_text in E1.
      subst ws. now inversion E.
    + intros H. exfalso. apply String.eqb_neq in Ec.
      exact (getSubFilterClause_nonempty _ _ _ Ec H).
Qed.

(** Own arguments first, then those of the sub-filter. *)
Lemma generateWhereClauses_args :
  forall f : filterBuilder,
    snd (generateWhereClauses f)
    = (flat_map args (whereClauses f)
       ++ match subFilter f with
          | Some s => snd (generateWhereClauses s)
          | None => []
          end)%list.
Proof.
  intros [[s|] op js ws hs e]; simpl.
  - pose proof (andClauses_args ws) as Ha.
    pose proof (generateWhereClauses_empty_text s) as Hempty.
    destruct (andClauses ws) as [clause a].
    destruct (generateWhereClauses s) as [c sa]. simpl in *. subst a.
    destruct (c =? "") eqn:Ec; simpl.
    + apply String.eqb_eq in Ec. rewrite (Hempty Ec). now rewrite app_nil_r.
    + destruct sa; simpl; [now rewrite app_nil_r | reflexivity].
  - pose proof (andClauses_args ws) as Ha.
    destruct (andClauses ws) as [clause a]. simpl in *. subst a.
    now rewrite app_nil_r.
Qed.

Lemma placeholders_Join (sep : string) (l : list string) :
  placeholders sep = 0 ->
  placeholders (Join l sep) = list_sum (map placeholders l).
Proof.
  intros Hsep. unfold Join.
  induction l as [|x l IH]; [reflexivity|].
  destruct l as [|y l].
  - simpl. lia.
  - change (String.concat sep (x :: y :: l)) with (x ++ sep ++ String.concat sep (y :: l)).
    rewrite !placeholders_app, IH, Hsep. simpl. lia.
Qed.

Lemma placeholders_balanced_sum (l : list sqlClause) :
  forallb (fun c => (placeholders (sql c) =? List.length (args c))%nat) l = true ->
  list_sum (map placeholders (map sql l)) = List.length (flat_map args l).
Proof.
  induction l as [|c l IH]; simpl; intros Hb; [reflexivity|].
  apply andb_prop in Hb. destruct Hb as [Hc Hl].
  apply Nat.eqb_eq in Hc. rewrite length_app, IH by assumption. lia.
Qed.

Lemma placeholders_andClauses (ws : list sqlClause) :
  forallb (fun c => (placeholders (sql c) =? List.length (args c))%nat) ws = true ->
  placeholders (fst (andClauses ws)) = List.length (snd (andClauses ws)).
Proof.
  intros Hb. destruct ws as [|w ws]; [reflexivity|].
  assert (E : andClauses (w :: ws)
              = ("(" ++ Join (map sql (w :: ws)) " AND " ++ ")",
                 flat_map args (w :: ws))) by reflexivity.
  rewrite E. cbv [fst snd].
  rewrite !placeholders_app, placeholders_Join by reflexivity.
  rewrite (placeholders_balanced_sum _ Hb). simpl placeholders. lia.
Qed.

(** In a tree whose clauses are balanced, the compiled text has exactly as
    many placeholders as there are arguments. *)
Lemma generateWhereClauses_placeholders (f : filterBuilder) :
  balanced f = true ->
  placeholders (fst (generateWhereClauses f))
  = List.length (snd (generateWhereClauses f)).
Proof.
  induction f as [op js ws hs e | s op js ws hs e IH] using filterBuilder_induction;
    simpl; intros Hb.
  - apply andb_prop in Hb. destruct Hb as [Hb _].
    apply andb_prop in Hb. destruct Hb as [Hb _].
    pose proof (placeholders_andClauses ws Hb) as H.
    now destruct (andClauses ws).
  - apply andb_prop in Hb. destruct Hb as [Hb Hs].
    apply andb_prop in Hb. destruct Hb as [Hb Hop]. apply Nat.eqb_eq in Hop.
    pose proof (placeholders_andClauses ws Hb) as H. specialize (IH Hs).
    destruct (andClauses ws) as [clause a].
    destruct (generateWhereClauses s) as [c sa]. simpl in *.
    destruct (c =? "") eqn:Ec; simpl; [assumption|].
    unfold getSubFilterClause. rewrite Ec. simpl.
    assert (Hlen : List.length (if (0 <? List.length sa)%nat then (a ++ sa)%list else a)
                   = List.length a + List.length sa).
    { destruct sa; simpl; [lia | now rewrite length_app]. }
    rewrite Hlen, !placeholders_app, H, IH.
    destruct (0 <? String.length clause)%nat.
    + simpl. rewrite ?placeholders_app, Hop. simpl. lia.
    + destruct (op =? notOp); simpl; lia.
Qed.

(** Two woven texts with a separator between them are one woven text: the
    last separator of the first, the middle and the first separator of the
    second merge into one separator. *)
Lemma weave_join (texts1 : list string) :
  forall (seps1 : list string) (a mid b : string) (seps2 texts2 : list string),
    List.length seps1 = List.length texts1 ->
    weave (seps1 ++ [a]) texts1 ++ mid ++ weave (b :: seps2) texts2
    = weave (seps1 ++ (a ++ mid ++ b) :: seps2) (texts1 ++ texts2).
Proof.
  induction texts1 as [|t texts1 IH]; intros seps1 a mid b seps2 texts2 Hlen.
  - destruct seps1; [|discriminate]. simpl.
    destruct texts2 as [|t2 texts2]; simpl; now rewrite ?append_assoc.
  - destruct seps1 as [|s seps1]; [discriminate|]. simpl in Hlen.
    injection Hlen as Hlen. simpl.
    rewrite !append_assoc. f_equal. f_equal. now apply IH.
Qed.

Lemma Join_weave (x : string) (l : list string) (sep : string) :
  Join (x :: l) sep = x ++ weave (repeat sep (List.length l) ++ [""]) l.
Proof.
  unfold Join. revert x.
  induction l as [|y l IH]; intros x.
  - simpl. now rewrite append_empty_r.
  - change (String.concat sep (x :: y :: l)) with (x ++ sep ++ String.concat sep (y :: l)).
    rewrite IH. reflexivity.
Qed.

(** The text of a node's own clauses: an opening parenthesis, the clause
    texts separated by [ AND ], a closing parenthesis. *)
Lemma andClauses_weave (ws : list sqlClause) :
  exists seps last,
    List.length seps = List.length ws /\
    Forall (fun s => placeholders s = 0) (seps ++ [last])%list /\
    fst (andClauses ws) = weave (seps ++ [last]) (map sql ws).
Proof.
  destruct ws as [|w ws].
  - exists [], "". repeat split. repeat constructor.
  - exists ("(" :: repeat " AND " (List.length ws)), ")".
    split; [simpl; now rewrite repeat_length|].
    split.
    + apply Forall_app. split; [|repeat constructor].
      constructor; [reflexivity|].
      apply Forall_forall. intros s Hs. apply repeat_spec in Hs. now subst.
    + change (fst (andClauses (w :: ws)))
        with ("(" ++ Join (map sql (w :: ws)) " AND " ++ ")").
      simpl map. rewrite Join_weave, length_map.
      change (weave (("(" :: repeat " AND " (List.length ws)) ++ [")"])
                (sql w :: map sql ws))
        with ("(" ++ sql w ++ weave (repeat " AND " (List.length ws) ++ [")"]) (map sql ws)).
      rewrite append_assoc. f_equal. f_equal.
      generalize (map sql ws) as texts, (length_map sql ws).
      generalize (List.length ws) as n.
      induction n as [|n IH]; intros texts Hn.
      * destruct texts; [reflexivity | discriminate].
      * destruct texts as [|t texts]; [discriminate|]. simpl in Hn. injection Hn as Hn.
        simpl. rewrite !append_assoc. do 5 f_equal. f_equal. now apply IH.
Qed.

Lemma segments_empty_text (f : filterBuilder) :
  fst (generateWhereClauses f) = "" -> segments f = [].
Proof.
  induction f as [op js ws hs e | s op js ws hs e IH] using filterBuilder_induction;
    simpl.
  - destruct (andClauses ws) as [clause a] eqn:E. simpl. intros ->.
    apply (f_equal fst) in E. apply andClauses_empty_text in E. subst ws. reflexivity.
  - destruct (andClauses ws) as [clause a] eqn:E.
    destruct (generateWhereClauses s) as [c sa] eqn:Es. simpl in IH.
    destruct (c =? "") eqn:Ec; simpl.
    + intros ->. apply (f_equal fst) in E. apply andClauses_empty_text in E. subst ws.
      apply String.eqb_eq in Ec. now rewrite IH.
    + intros H. exfalso. apply String.eqb_neq in Ec.
      exact (getSubFilterClause_nonempty _ _ _ Ec H).
Qed.

Lemma generateWhereClauses_segments_args (f : filterBuilder) :
  snd (generateWhereClauses f) = flat_map args (segments f).
Proof.
  induction f as [op js ws hs e | s op js ws hs e IH] using filterBuilder_induction.
  - rewrite generateWhereClauses_args. simpl. now rewrite !app_nil_r.
  - rewrite generateWhereClauses_args. simpl.
    now rewrite flat_map_app, IH.
Qed.

Lemma getSubFilterClause_separator (f : filterBuilder) (clause c : string) :
  c <> "" ->
  placeholders (subFilterOp f) = 0 ->
  exists mid,
    placeholders mid = 0 /\ getSubFilterClause f clause c = clause ++ mid ++ c.
Proof.
  intros Hc Hop. unfold getSubFilterClause.
  apply String.eqb_neq in Hc. rewrite Hc. cbn [negb].
  destruct (0 <? String.length clause)%nat.
  - exists (" " ++ subFilterOp f ++ " "). split; [|reflexivity].
    rewrite !placeholders_app, Hop. reflexivity.
  - destruct (subFilterOp f =? notOp).
    + exists "NOT ". split; reflexivity.
    + exists "". split; reflexivity.
Qed.

(** The compiled text is the clause texts of the tree in order, own
    clauses first, woven with separators that hold no placeholder. *)
Lemma generateWhereClauses_weave (f : filterBuilder) :
  balanced f = true ->
  exists seps last,
    List.length seps = List.length (segments f) /\
    Forall (fun s => placeholders s = 0) (seps ++ [last])%list /\
    fst (generateWhereClauses f) = weave (seps ++ [last]) (map sql (segments f)).
Proof.
  induction f as [op js ws hs e | s op js ws hs e IH] using filterBuilder_induction;
    intros Hb.
  - destruct (andClauses_weave ws) as [seps [last [Hlen [Hclean Htext]]]].
    exists seps, last. simpl. rewrite app_nil_r.
    destruct (andClauses ws) as [clause a]. simpl in *. auto.
  - simpl in Hb. apply andb_prop in Hb. destruct Hb as [Hb Hs].
    apply andb_prop in Hb. destruct Hb as [_ Hop]. apply Nat.eqb_eq in Hop.
    destruct (IH Hs) as [seps2 [last2 [Hlen2 [Hclean2 Htext2]]]].
    destruct (andClauses_weave ws) as [seps1 [last1 [Hlen1 [Hclean1 Htext1]]]].
    pose proof (segments_empty_text s) as Hempty.
    simpl.
    destruct (andClauses ws) as [clause a].
    destruct (generateWhereClauses s) as [c sa]. simpl in *.
    destruct (c =? "") eqn:Ec; simpl.
    + apply String.eqb_eq in Ec. rewrite (Hempty Ec), app_nil_r.
      exists seps1, last1. auto.
    + apply String.eqb_neq in Ec.
      destruct (getSubFilterClause_separator
                  (mkFilterBuilder (Some s) op js ws hs e) clause c Ec Hop)
        as [mid [Hmid ->]].
      apply Forall_app in Hclean1. destruct Hclean1 as [Hc1 Hl1].
      apply Forall_inv in Hl1. rename Hl1 into Hlast1.
      rewrite Htext1, Htext2, map_app.
      destruct seps2 as [|b seps2].
      * exists seps1, (last1 ++ mid ++ last2).
        destruct (segments s); [|discriminate]. simpl. rewrite !app_nil_r.
        split; [assumption|]. split.
        -- apply Forall_app. split; [assumption|]. constructor; [|constructor].
           apply Forall_inv in Hclean2. cbv beta in Hclean2.
           rewrite !placeholders_app. lia.
        -- assert (Hl : List.length seps1 = List.length (map sql ws))
             by now rewrite length_map.
           pose proof (weave_join (map sql ws) seps1 last1 mid last2 [] [] Hl) as Hw.
           simpl in Hw. rewrite ?app_nil_r in Hw. rewrite ?app_nil_r. exact Hw.
      * exists (seps1 ++ (last1 ++ mid ++ b)%string :: seps2)%list, last2.
        split; [rewrite !length_app; simpl in *; lia|]. split.
        -- simpl in Hclean2. pose proof (Forall_inv Hclean2) as Hb2. cbv beta in Hb2.
           apply Forall_inv_tail in Hclean2.
           rewrite <- app_assoc. apply Forall_app. split; [assumption|].
           simpl. constructor; [rewrite !placeholders_app; lia | assumption].
        -- rewrite <- app_assoc. simpl.
           apply (weave_join (map sql ws) seps1 last1 mid b (seps2 ++ [last2])).
           now rewrite length_map.
Qed.

(** C9. The arguments returned by [generateWhereClauses] are the node's own
    clause arguments, in the order the clauses were added, followed by the
    arguments of the sub-filter; over the whole tree they are the arguments
    of the clauses in compilation order.  The text is made of the same
    clauses in the same order, between separators without placeholder, so
    in a tree whose clauses each bind as many arguments as they have
    placeholders the n-th placeholder of the text belongs to the clause
    that supplied the n-th argument. *)
Theorem generateWhereClauses_args_own_then_sub :
  forall f : filterBuilder,
    snd (generateWhereClauses f)
    = (flat_map args (whereClauses f)
       ++ match subFilter f with
          | Some s => snd (generateWhereClauses s)
          | None => []
          end)%list /\
    snd (generateWhereClauses f) = flat_map args (segments f) /\
    (balanced f = true ->
     placeholders (fst (generateWhereClauses f))
     = List.length (snd (generateWhereClauses f)) /\
     exists seps last,
       List.length seps = List.length (segments f) /\
       Forall (fun s => placeholders s = 0) (seps ++ [last])%list /\
       fst (generateWhereClauses f) = weave (seps ++ [last]) (map sql (segments f))).
Proof.
  intros f. split; [apply generateWhereClauses_args|].
  split; [apply generateWhereClauses_segments_args|].
  intros Hb. split.
  - now apply generateWhereClauses_placeholders.
  - now apply generateWhereClauses_weave.
Qed.

Lemma generateWhereClauses_args_own_then_sub_witness :
  generateWhereClauses tagsNotStudioFilter
    = ("(tags.id IN (?, ?)) AND NOT (not exists (select s.id from scenes as s where s.id = scenes.id and s.studio_id in (?)))",
       [ArgString "5"; ArgString "7"; ArgString "9"]) /\
  placeholders (fst (generateWhereClauses tagsNotStudioFilter))
    = List.length (snd (generateWhereClauses tagsNotStudioFilter)).
Proof.
  split; [reflexivity|].
  exact (proj1 (proj2 (proj2 (generateWhereClauses_args_own_then_sub tagsNotStudioFilter))
                  eq_refl)).
Defined.

(** With no clause of its own and a sub-filter attached by [not], the WHERE
    text is the sub-filter's text behind [NOT ]. *)
Lemma generateWhereClauses_not_without_local (s : filterBuilder) js hs e :
  fst (generateWhereClauses s) <> "" ->
  fst (generateWhereClauses (mkFilterBuilder (Some s) notOp js [] hs e))
  = "NOT " ++ fst (generateWhereClauses s).
Proof.
  intros Hc. simpl.
  destruct (generateWhereClauses s) as [c sa]. simpl in *.
  apply String.eqb_neq in Hc. rewrite Hc. simpl.
  unfold getSubFilterClause. rewrite Hc. reflexivity.
Qed.

(** In the same situation the HAVING text starts with the binary operator. *)
Lemma generateHavingClauses_not_without_local (s : filterBuilder) js ws e :
  fst (generateHavingClauses s) <> "" ->
  fst (generateHavingClauses (mkFilterBuilder (Some s) notOp js ws [] e))
  = " AND NOT " ++ fst (generateHavingClauses s).
Proof.
  intros Hc. simpl.
  destruct (generateHavingClauses s) as [c sa]. simpl in *.
  apply String.eqb_neq in Hc. rewrite Hc. reflexivity.
Qed.

(** C2. A node without clauses of its own whose sub-filter was attached
    with [not]: the WHERE clause is the sub-filter's clause behind [NOT ],
    but the HAVING clause is the sub-filter's clause behind [ AND NOT ],
    a binary operator with no left-hand side. *)
Theorem having_not_without_local_clauses_keeps_binary_operator :
  generateWhereClauses notOnlyFilter
    = ("NOT (studios.id IN (?))", [ArgString "9"]) /\
  generateHavingClauses notOnlyFilter
    = (" AND NOT (count(distinct tags.id) IS 2)", []) /\
  whereClauses notOnlyFilter = [] /\
  havingClauses notOnlyFilter = [] /\
  subFilterOp notOnlyFilter = notOp.
Proof. repeat split; reflexivity. Qed.

(** ** Deferred errors *)

Lemma getError_own (f : filterBuilder) (e : error) :
  err f = Some e -> getError f = Some e.
Proof. destruct f as [sub op js ws hs e0]. simpl. now intros ->. Qed.

(** A filter in error state stops the query before any statement runs. *)
Lemma executeFind_addFilter_error
    (runCountQuery : string -> list arg -> Z * option error)
    (runIdsQuery : string -> list arg -> list Z * option error)
    (fmt_args : list arg -> string)
    (qb : queryBuilder) (f : filterBuilder) (e : error) :
  getError f = Some e ->
  executeFind runCountQuery runIdsQuery fmt_args (addFilter qb f)
  = (([], 0%Z, Some e), []).
Proof. intros H. unfold addFilter. rewrite H. reflexivity. Qed.

(** The error of a sub-filter is the error of the tree when the nodes above
    it carry none. *)
Lemma getError_through_parent (p s : filterBuilder) (op : string) :
  err p = None ->
  getError (setSubFilter p (Some s) op) = getError s.
Proof. destruct p as [sub op0 js ws hs e]. simpl. now intros ->. Qed.

(** C5. On a node without sub-filter, the first [and], [or] or [not]
    attaches its argument and sets the operator, and leaves the error state
    as it was.  A second call, of any of the three, keeps the first
    sub-filter and operator and leaves the node in error state; the error
    comes out when the filter is handed to the query builder:
    [executeFind] returns it and runs no statement. *)
Theorem sub_filter_single_attach :
  forall (m1 m2 : attachOp) (f a : filterBuilder) (b : option filterBuilder),
    subFilter f = None ->
    let f1 := attach m1 f (Some a) in
    let f2 := attach m2 f1 b in
    (subFilter f1 = Some a /\ subFilterOp f1 = attachOperator m1 /\ err f1 = err f) /\
    (subFilter f2 = Some a /\ subFilterOp f2 = attachOperator m1 /\
     err f2 = Some (orElse (err f) errSubFilterAlreadySet)) /\
    (forall runCountQuery runIdsQuery fmt_args qb,
        executeFind runCountQuery runIdsQuery fmt_args (addFilter qb f2)
        = (([], 0%Z, Some (orElse (err f) errSubFilterAlreadySet)), [])).
Proof.
  intros m1 m2 [sub op js ws hs e] a b Hsub. simpl in Hsub. subst sub.
  assert (H2 : forall f2, f2 = attach m2 (attach m1 (mkFilterBuilder None op js ws hs e) (Some a)) b ->
            subFilter f2 = Some a /\ subFilterOp f2 = attachOperator m1 /\
            err f2 = Some (orElse e errSubFilterAlreadySet)).
  { intros f2 ->. destruct m1, m2, e; repeat split; reflexivity. }
  cbv zeta. split; [destruct m1; repeat split; reflexivity|].
  split; [apply H2; reflexivity|].
  intros rc ri fa qb. apply executeFind_addFilter_error, getError_own.
  apply (H2 _ eq_refl).
Qed.

Lemma sub_filter_single_attach_witness :
  let a := addWhere emptyFilter "scenes.rating > ?" [ArgInt 3] in
  let b := addWhere emptyFilter "scenes.o_counter = ?" [ArgInt 0] in
  let f2 := f_or (f_and emptyFilter (Some a)) (Some b) in
  subFilter f2 = Some a /\ subFilterOp f2 = "AND" /\
  err f2 = Some "sub-filter already set".
Proof.
  intros a b f2.
  exact (proj1 (proj2 (sub_filter_single_attach AttachAnd AttachOr emptyFilter a (Some b)
                         eq_refl))).
Defined.

(** ** Criterion handlers *)

Lemma addWhere_text (f : filterBuilder) (text : string) (a : list arg) :
  text <> "" ->
  addWhere f text a
  = mkFilterBuilder (subFilter f) (subFilterOp f) (fjoins f)
      (whereClauses f ++ [makeClause text a])%list (havingClauses f) (err f).
Proof. intros H. unfold addWhere. apply String.eqb_neq in H. now rewrite H. Qed.

Lemma addHaving_empty (f : filterBuilder) (a : list arg) : addHaving f "" a = f.
Proof. reflexivity. Qed.

Lemma TrimRight_cons_keep (c : ascii) (rest cutset : string) :
  TrimRight rest cutset <> "" ->
  TrimRight (String c rest) cutset = String c (TrimRight rest cutset).
Proof.
  intros H. simpl. apply String.eqb_neq in H. now rewrite H.
Qed.

Lemma Repeat_placeholders_trimmed (n : nat) :
  TrimRight (Repeat "?, " (S n)) ", " = "?" ++ Repeat ", ?" n.
Proof.
  induction n as [|n IH]; [reflexivity|].
  change (Repeat "?, " (S (S n)))
    with (String "?" (String "," (String " " (Repeat "?, " (S n))))).
  assert (Hne : TrimRight (Repeat "?, " (S n)) ", " <> "") by (rewrite IH; discriminate).
  rewrite TrimRight_cons_keep.
  - rewrite TrimRight_cons_keep.
    + rewrite TrimRight_cons_keep by assumption. rewrite IH. reflexivity.
    + rewrite TrimRight_cons_keep by assumption. discriminate.
  - rewrite TrimRight_cons_keep.
    + discriminate.
    + rewrite TrimRight_cons_keep by assumption. discriminate.
Qed.

Lemma Join_placeholders (n : nat) :
  Join (repeat "?" (S n)) ", " = "?" ++ Repeat ", ?" n.
Proof.
  unfold Join. induction n as [|n IH]; [reflexivity|].
  change (repeat "?" (S (S n))) with ("?" :: repeat "?" (S n)).
  change (String.concat ", " ("?" :: repeat "?" (S n)))
    with ("?" ++ ", " ++ String.concat ", " (repeat "?" (S n))).
  rewrite IH. reflexivity.
Qed.

Lemma getInBinding_placeholderList (n : nat) : getInBinding n = placeholderList n.
Proof.
  destruct n as [|n]; [reflexivity|].
  unfold getInBinding, placeholderList.
  now rewrite Repeat_placeholders_trimmed, Join_placeholders.
Qed.

Lemma existsb_false_filter {A} (p : A -> bool) (l : list A) :
  existsb p l = false <-> filter p l = [].
Proof.
  induction l as [|x l IH]; simpl; [tauto|].
  destruct (p x); simpl; [split; discriminate | exact IH].
Qed.

Lemma existsb_pointwise {A} (p q : A -> bool) (l : list A) :
  (forall x : A, p x = q x) -> existsb p l = existsb q l.
Proof. intros H. induction l as [|x l IH]; simpl; [reflexivity | now rewrite H, IH]. Qed.

Lemma excludesCondition_holds (m : multiCriterionHandlerBuilder) (db : database)
    (outer : row) (bound : list arg) :
  associationName m <> primaryTable m ->
  holds db [(primaryTable m, outer)] bound (excludesCondition m (List.length bound))
  = negb (existsb (fun r => arg_eqb (r (associationKey m)) (outer "id")
                            && existsb (arg_eqb (r (foreignFK m))) bound)
                  (db (associationTable m))).
Proof.
  unfold associationName, associationKey, associationTable, excludesCondition.
  intros Hname. apply String.eqb_neq in Hname.
  destruct (joinTable m =? "") eqn:Ej; cbn [holds]; f_equal;
    apply existsb_pointwise; intros r;
    unfold valueOf; cbn [holds parameters Nat.add skipn rowOf col_table col_name];
    rewrite ?String.eqb_refl, Hname, ?String.eqb_refl, firstn_all; reflexivity.
Qed.

(** C6. A multi-value criterion with the EXCLUDES modifier and at least one
    value adds exactly one WHERE clause, after the joins function ran, and
    no HAVING clause; with no value it adds nothing at all.  The text of
    the clause is that of a [not exists] subquery over the association
    table (the join table when there is one, the primary table under the
    alias [s] otherwise), correlated on the primary table's id, with one
    placeholder per value; it is never a NOT IN over a column.  The values
    are its arguments.  For a row of the primary table the condition holds
    exactly when no row of the association table belongs to it and has one
    of the values: a row with one excluded association is excluded
    whatever other associations it has.  This needs the name of the
    association rows in the subquery to differ from the primary table's,
    so that the correlation reaches the outer row. *)
Theorem excludes_compiles_to_not_exists :
  forall (m : multiCriterionHandlerBuilder) (values : list string) (f : filterBuilder),
    let criterion := mkMultiCriterionInput values CriterionModifierExcludes in
    let f' := multi_handler m (Some criterion) f in
    let joined := match addJoinsFunc m with Some addJoins => addJoins f | None => f end in
    let q := excludesCondition m (List.length values) in
    let bound := map ArgString values in
    match values with
    | [] => f' = f
    | _ :: _ =>
        (exists clause : sqlClause,
            whereClauses f' = (whereClauses joined ++ [clause])%list /\
            sql clause = render q /\
            args clause = bound /\
            String.prefix "not exists (select " (sql clause) = true) /\
        havingClauses f' = havingClauses joined /\
        (forall (db : database) (outer : row),
            associationName m <> primaryTable m ->
            (holds db [(primaryTable m, outer)] bound q = true <->
             excludedAssociations m db outer bound = []) /\
            (forall r : row,
                In r (db (associationTable m)) ->
                arg_eqb (r (associationKey m)) (outer "id") = true ->
                existsb (arg_eqb (r (foreignFK m))) bound = true ->
                holds db [(primaryTable m, outer)] bound q = false))
    end.
Proof.
  intros m values f. cbv zeta.
  destruct values as [|v vs]; [reflexivity|].
  split; [|split].
  - unfold multi_handler.
    change (0 <? List.length (mci_Value (mkMultiCriterionInput (v :: vs)
              CriterionModifierExcludes)))%nat with true.
    cbv iota.
    unfold getMultiCriterionClause, excludesCondition.
    cbn [mci_Modifier mci_Value].
    rewrite getInBinding_placeholderList.
    destruct (joinTable m =? "") eqn:Ej; cbn [negb]; cbv iota;
      rewrite addHaving_empty, addWhere_text by discriminate;
      cbn [whereClauses];
      eexists; (split; [reflexivity|]); cbn [sql args];
      (split;
       [ cbn [render]; unfold renderColumn; cbn [col_table col_name];
         rewrite ?append_assoc; simpl; reflexivity
       | split; [reflexivity | first [apply prefix_append | reflexivity]] ]).
  - unfold multi_handler.
    change (0 <? List.length (mci_Value (mkMultiCriterionInput (v :: vs)
              CriterionModifierExcludes)))%nat with true.
    cbv iota.
    unfold getMultiCriterionClause. cbn [mci_Modifier mci_Value].
    destruct (joinTable m =? "") eqn:Ej; cbn [negb]; cbv iota;
      rewrite addHaving_empty, addWhere_text by discriminate; reflexivity.
  - intros db outer Hname.
    pose proof (excludesCondition_holds m db outer (map ArgString (v :: vs)) Hname) as H.
    rewrite length_map in H. rewrite H. unfold excludedAssociations. split.
    + rewrite Bool.negb_true_iff. apply existsb_false_filter.
    + intros r Hin Hkey Hval. apply Bool.negb_false_iff.
      apply existsb_exists. exists r. split; [exact Hin|].
      now rewrite Hkey, Hval.
Qed.

Lemma excludes_compiles_to_not_exists_witness :
  holds taggedDb [("scenes", taggedScene)] [ArgString "5"]
    (excludesCondition tagsHandler 1) = false /\
  holds taggedDb [("tags", fun _ => ArgString "7")] [ArgString "5"]
    (CondNotIn (mkColumn "tags" "id") 1) = true.
Proof.
  split; [|reflexivity].
  destruct (excludes_compiles_to_not_exists tagsHandler ["5"] emptyFilter)
    as [_ [_ H]].
  destruct (H taggedDb taggedScene ltac:(discriminate)) as [_ Hrow].
  exact (Hrow (sceneTag 1 "5") (or_introl eq_refl) eq_refl eq_refl).
Defined.

Section RegexCriterion.

Variable regexp_Compile : string -> option error.

(** C10. A string criterion with MATCHES_REGEX or NOT_MATCHES_REGEX whose
    pattern does not compile adds no clause, no argument and no join; it
    leaves the builder in error state, with the compile error unless an
    earlier error is already recorded.  Handing the builder to the query
    builder makes [executeFind] return that error and run no statement. *)
Theorem invalid_regex_is_deferred_error :
  forall (c : StringCriterionInput) (column : string) (f : filterBuilder)
         (compileError : error),
    sci_Modifier c = CriterionModifierMatchesRegex
    \/ sci_Modifier c = CriterionModifierNotMatchesRegex ->
    regexp_Compile (sci_Value c) = Some compileError ->
    let f' := stringCriterionHandler regexp_Compile (Some c) column f in
    whereClauses f' = whereClauses f /\
    havingClauses f' = havingClauses f /\
    fjoins f' = fjoins f /\
    subFilter f' = subFilter f /\
    err f' = Some (orElse (err f) compileError) /\
    (forall runCountQuery runIdsQuery fmt_args qb,
        executeFind runCountQuery runIdsQuery fmt_args (addFilter qb f')
        = (([], 0%Z, Some (orElse (err f) compileError)), [])).
Proof.
  intros c column f compileError Hm Hc. cbv zeta.
  assert (Hf : stringCriterionHandler regexp_Compile (Some c) column f
               = setError f compileError).
  { unfold stringCriterionHandler.
    destruct Hm as [Hm | Hm]; rewrite Hm; simpl; now rewrite Hc. }
  rewrite Hf.
  assert (He : err (setError f compileError) = Some (orElse (err f) compileError)).
  { unfold setError. destruct (err f) eqn:E; simpl; [assumption | reflexivity]. }
  repeat split; try (unfold setError; destruct (err f); reflexivity).
  - exact He.
  - intros. apply executeFind_addFilter_error, getError_own, He.
Qed.

End RegexCriterion.

Lemma invalid_regex_is_deferred_error_witness :
  let c := mkStringCriterionInput "(abc" CriterionModifierMatchesRegex in
  let f' := stringCriterionHandler parenCompile (Some c) "scenes.title" emptyFilter in
  whereClauses f' = [] /\
  err f' = Some "error parsing regexp: missing closing ): `(abc`".
Proof.
  intros c f'.
  pose proof (invalid_regex_is_deferred_error parenCompile c "scenes.title" emptyFilter
                "error parsing regexp: missing closing ): `(abc`"
                (or_introl eq_refl) eq_refl) as H.
  exact (conj (proj1 H) (proj1 (proj2 (proj2 (proj2 (proj2 H)))))).
Defined.

(* ================================================================== *)
(** * Part IV. Package manager: properties *)
(* ================================================================== *)

(** Unfolding of the pass monad. *)
Ltac pass_step :=
  cbv beta iota zeta delta
    [bind ret exit emit log panic call run failOn WithReadTxn WithTxn
     generateThumbnail makeScreenshots fst snd app negb andb orb errOf].

Section ScanProperties.

Variable Store : Type.
Variable repo : Repository Store.
Variable env : Env.

Lemma isFileModified_same (t : Time) (ts : NullSQLiteTimestamp) :
  Timestamp ts = t -> isFileModified t ts = false.
Proof. intros <-. unfold isFileModified. now rewrite Z.eqb_refl. Qed.

(** *** A second pass over an unchanged file *)

Lemma scanScene_unchanged (t : ScanTask) (st : Store) (s : Scene) (mt : Time) :
  Scene_FindByPath repo st (FilePath t) = (Some s, None) ->
  os_Stat env (FilePath t) = (mt, None) ->
  Valid (sc_FileModTime s) = true ->
  Timestamp (sc_FileModTime s) = Truncate_Second mt ->
  NValid (sc_Size s) = true ->
  NValid (sc_Format s) = true ->
  NValid (sc_OSHash s) = true ->
  NValid (sc_Checksum s) = true ->
  run (scanScene repo env t) st
  = (None, st,
     [EvReadTxn; EvMakeScreenshots None (Scene_GetHash env s (fileNamingAlgorithm t))]).
Proof.
  intros Hfind Hstat Hvalid Htime Hsize Hformat Hoshash Hchecksum.
  unfold scanScene, getFileModTime. pass_step.
  rewrite Hfind, Hstat. pass_step.
  rewrite Hvalid. pass_step.
  rewrite (isFileModified_same _ _ Htime), Hsize. pass_step.
  rewrite Hformat, Hoshash, Hchecksum. pass_step.
  destruct (calculateMD5 t); reflexivity.
Qed.

Lemma scanImage_unchanged (t : ScanTask) (st : Store) (i : Image) (mt : Time) :
  Image_FindByPath repo st (FilePath t) = (Some i, None) ->
  image_GetFileModTime env (FilePath t) = (mt, None) ->
  Valid (im_FileModTime i) = true ->
  Timestamp (im_FileModTime i) = mt ->
  run (scanImage repo env t) st
  = (tt, st, [EvReadTxn; EvGenerateThumbnail i; EvGenerateThumbnail i]).
Proof.
  intros Hfind Hstat Hvalid Htime.
  unfold scanImage. pass_step.
  rewrite Hfind, Hstat. pass_step.
  rewrite Hvalid. pass_step.
  rewrite (isFileModified_same _ _ Htime). pass_step.
  reflexivity.
Qed.

(** *** Zip galleries *)

Lemma forEach_emit {R A} (f : A -> Event) (l : list A) (st : Store) :
  forEach (R := R) l (fun x => emit (f x)) st = (inl tt, (st, map f l)).
Proof.
  induction l as [|x l IH]; [reflexivity|].
  simpl. unfold bind, emit at 1. rewrite IH. reflexivity.
Qed.

(** For an existing gallery found without error, the image count is not
    read: the pass always walks the zip again, running the image pass for
    every entry. *)
Lemma scanGallery_found_rescans (t : ScanTask) (st : Store) (g : Gallery) (mt : Time) :
  Gallery_FindByPath repo st (FilePath t) = (Some g, None) ->
  os_Stat env (FilePath t) = (mt, None) ->
  Valid (ga_FileModTime g) = true ->
  Timestamp (ga_FileModTime g) = Truncate_Second mt ->
  run (scanGallery repo env t) st
  = (tt, snd (fst (run (scanZipImages repo env t g) st)),
     (EvReadTxn :: snd (run (scanZipImages repo env t g) st))%list).
Proof.
  intros Hfind Hstat Hvalid Htime.
  unfold scanGallery, getFileModTime. pass_step.
  rewrite Hfind, Hstat. pass_step.
  rewrite Hvalid. pass_step.
  rewrite (isFileModified_same _ _ Htime). pass_step.
  change (0 =? 0)%Z with true. cbv iota.
  destruct (scanZipImages repo env t g st) as [[[]|[]] [st' tr]]; reflexivity.
Qed.

(** *** A new path whose hash is already in the catalog *)

Lemma scanScene_hash_match (t : ScanTask) (st : Store) (s : Scene)
    (oshash checksum : string) (vf : VideoFile) :
  Scene_FindByPath repo st (FilePath t) = (None, None) ->
  snd (os_Stat env (FilePath t)) = None ->
  fst (utils_DirExists env (FilePath t)) = false ->
  ffmpeg_NewVideoFile env (FilePath t) (StripFileExtension t) = inl vf ->
  utils_OSHashFromFilePath env (FilePath t) = (oshash, None) ->
  (if isMd5 (fileNamingAlgorithm t) || calculateMD5 t
   then utils_MD5FromFilePath env (FilePath t) = (checksum, None)
   else checksum = "") ->
  findSceneByHashes repo st checksum oshash = Some s ->
  let tr := snd (run (scanScene repo env t) st) in
  if fst (utils_FileExists env (sc_Path s)) then
    snd (fst (run (scanScene repo env t) st)) = st /\
    writeTxns tr = 0 /\ writes tr = [] /\
    In (EvLog Info (FilePath t ++ " already exists. Duplicate of " ++ sc_Path s)) tr
  else
    writeTxns tr = 1 /\
    writes tr = [WSceneUpdate (scenePathPartial (sc_ID s) (FilePath t))].
Proof.
  intros Hfind Hstat Hdir Hprobe Hos Hmd5 Hmatch.
  unfold scanScene, getFileModTime, calculateChecksum.
  rewrite Hprobe, Hos.
  destruct (os_Stat env (FilePath t)) as [mt e]. simpl in Hstat. subst e.
  destruct (utils_DirExists env (FilePath t)) as [isDir e]. simpl in Hdir. subst isDir.
  destruct (utils_FileExists env (sc_Path s)) as [ex e'] eqn:Eex.
  destruct (isMd5 (fileNamingAlgorithm t) || calculateMD5 t);
    [rewrite Hmd5 | subst checksum];
    pass_step; rewrite Hfind; pass_step; rewrite Hmatch, Eex;
    (destruct ex; pass_step;
     [ cbv; tauto
     | destruct (Scene_Update repo st (scenePathPartial (sc_ID s) (FilePath t)))
         as [st1 [s'|e1]]; split; reflexivity ]).
Qed.

Ltac split_pass :=
  repeat (pass_step;
          match goal with
          | |- context [match ?x with _ => _ end] =>
              lazymatch x with
              | context [match _ with _ => _ end] => fail
              | _ => destruct x eqn:?
              end
          end).

Lemma scanImage_hash_match (t : ScanTask) (st : Store) (i : Image)
    (checksum : string) (mt : Time) :
  Image_FindByPath repo st (FilePath t) = (None, None) ->
  image_GetFileModTime env (FilePath t) = (mt, None) ->
  fst (utils_DirExists env (FilePath t)) = false ->
  image_CalculateMD5 env (FilePath t) = (checksum, None) ->
  Image_FindByChecksum repo st checksum = (Some i, None) ->
  let tr := snd (run (scanImage repo env t) st) in
  let p := imagePathPartial (im_ID i) (FilePath t) in
  let folder := filepath_Dir env (FilePath t) in
  let newGallery :=
    mkGallery 0%Z (utils_MD5FromString env folder) false (mkNullString folder true)
      (mkNullSQLiteTimestamp 0%Z false) (time_Now env) (time_Now env) in
  let association (st1 : Store) : list WriteOp :=
    match zipGallery t with
    | Some zg => [WGalleryAddImage (ga_ID zg) (im_ID i)]
    | None =>
        if config_GetCreateGalleriesFromFolders env then
          match Gallery_FindByPath repo st1 folder with
          | (_, Some _) => []
          | (Some g, None) => [WGalleryAddImage (ga_ID g) (im_ID i)]
          | (None, None) =>
              WGalleryCreate newGallery
              :: match Gallery_Create repo st1 newGallery with
                 | (_, inl g) => [WGalleryAddImage (ga_ID g) (im_ID i)]
                 | (_, inr _) => []
                 end
          end
        else []
    end in
  (if image_FileExists env (im_Path i) then
     filter isImageWrite (writes tr) = [] /\
     In (EvLog Info (image_PathDisplayName env (FilePath t)
                       ++ " already exists.  Duplicate of "
                       ++ image_PathDisplayName env (im_Path i) ++ " ")) tr
   else
     filter isImageWrite (writes tr) = [WImageUpdate p]) /\
  forallb (fun w => isImageWrite w || isGalleryWrite w) (writes tr) = true /\
  (if image_FileExists env (im_Path i) then writes tr = association st
   else
     match Image_Update repo st p with
     | (st1, inl _) => writes tr = WImageUpdate p :: association st1
     | (_, inr e) => writes tr = [WImageUpdate p] /\ In (EvLog Error e) tr
     end) /\
  (zipGallery t = None ->
   config_GetCreateGalleriesFromFolders env = false ->
   if image_FileExists env (im_Path i) then
     writeTxns tr = 0 /\ snd (fst (run (scanImage repo env t) st)) = st
   else
     writeTxns tr = 1 /\ writes tr = [WImageUpdate p]).
Proof.
  intros Hfind Hstat Hdir Hmd5 Hmatch tr p folder newGallery association.
  subst tr association.
  unfold scanImage, calculateImageChecksum, associateImageWithFolderGallery.
  rewrite Hstat, Hmd5.
  destruct (utils_DirExists env (FilePath t)) as [isDir e]. simpl in Hdir. subst isDir.
  pass_step. rewrite Hfind. pass_step. rewrite Hmatch.
  fold p. fold folder. fold newGallery.
  destruct (image_FileExists env (im_Path i)) eqn:Eex;
    split_pass;
    repeat split; try reflexivity; try discriminate;
    try (cbv [In]; tauto).
Qed.

End ScanProperties.

(** ** The claims about the scan task *)

(** C1. An existing zip gallery whose stored modification time equals the
    one on disk and which has three images in the catalog: the lookup
    returns the record without error, so the image count is never read,
    [images] stays 0 and the pass walks the zip again, starting a sub-task
    for each entry, each of which looks its image up in a read transaction
    of its own and checks its thumbnail.  Regenerating the thumbnails, which
    is what the pass is meant to do for a gallery that has its images, is
    one read transaction and one check per image. *)
Theorem scanGallery_rescans_gallery_that_has_images :
  Gallery_FindByPath memRepository zipStore "g.zip" = (Some zipGalleryRecord, None) /\
  Image_CountByGalleryID memRepository zipStore (ga_ID zipGalleryRecord) = (3%Z, None) /\
  getFileModTime zipEnv (plainTask "g.zip")
    = (Timestamp (ga_FileModTime zipGalleryRecord), None) /\
  run (scanGallery memRepository zipEnv (plainTask "g.zip")) zipStore
    = (tt, zipStore,
       [EvReadTxn;
        EvStartSubTask (zipSubTask zipEnv (plainTask "g.zip") zipGalleryRecord "1.jpg");
        EvReadTxn;
        EvGenerateThumbnail (zipImage 2 "1.jpg"); EvGenerateThumbnail (zipImage 2 "1.jpg");
        EvStartSubTask (zipSubTask zipEnv (plainTask "g.zip") zipGalleryRecord "2.jpg");
        EvReadTxn;
        EvGenerateThumbnail (zipImage 3 "2.jpg"); EvGenerateThumbnail (zipImage 3 "2.jpg");
        EvStartSubTask (zipSubTask zipEnv (plainTask "g.zip") zipGalleryRecord "3.jpg");
        EvReadTxn;
        EvGenerateThumbnail (zipImage 4 "3.jpg"); EvGenerateThumbnail (zipImage 4 "3.jpg")]) /\
  run (regenerateZipImages memRepository zipGalleryRecord) zipStore
    = (tt, zipStore,
       [EvReadTxn;
        EvGenerateThumbnail (zipImage 2 "1.jpg");
        EvGenerateThumbnail (zipImage 3 "2.jpg");
        EvGenerateThumbnail (zipImage 4 "3.jpg")]).
Proof. repeat split; vm_compute; reflexivity. Qed.

(** C3, as the code has it.  A path with no record whose hash matches an
    existing record.  Scene: when the file at the matched record's path
    exists the pass opens no write transaction and logs the duplicate;
    otherwise its one write sets the matched record's path, and nothing
    else, and no record is created.  Image: the image record is treated
    the same way, but the pass then associates the matched image with a
    gallery, unless the path update failed, which ends the pass.  With a
    zip gallery on the task the image is added to it.  Without one and with
    galleries created from folders the gallery of the path's folder is
    looked up in the catalog as the image step left it: the image is added
    to the gallery found, or a gallery is created for the folder and the
    image is added to the stored gallery; a failed lookup or creation adds
    the image to nothing.  Without a zip gallery and with folder galleries
    off the image pass writes nothing else. *)
Theorem hash_match_migrates_path_or_reports_duplicate :
  forall (Store : Type) (repo : Repository Store) (env : Env) (t : ScanTask) (st : Store),
    (forall (s : Scene) (oshash checksum : string) (vf : VideoFile),
        Scene_FindByPath repo st (FilePath t) = (None, None) ->
        snd (os_Stat env (FilePath t)) = None ->
        fst (utils_DirExists env (FilePath t)) = false ->
        ffmpeg_NewVideoFile env (FilePath t) (StripFileExtension t) = inl vf ->
        utils_OSHashFromFilePath env (FilePath t) = (oshash, None) ->
        (if isMd5 (fileNamingAlgorithm t) || calculateMD5 t
         then utils_MD5FromFilePath env (FilePath t) = (checksum, None)
         else checksum = "") ->
        findSceneByHashes repo st checksum oshash = Some s ->
        let tr := snd (run (scanScene repo env t) st) in
        if fst (utils_FileExists env (sc_Path s)) then
          snd (fst (run (scanScene repo env t) st)) = st /\
          writeTxns tr = 0 /\ writes tr = [] /\
          In (EvLog Info (FilePath t ++ " already exists. Duplicate of " ++ sc_Path s)) tr
        else
          writeTxns tr = 1 /\
          writes tr = [WSceneUpdate (scenePathPartial (sc_ID s) (FilePath t))]) /\
    (forall (i : Image) (checksum : string) (mt : Time),
        Image_FindByPath repo st (FilePath t) = (None, None) ->
        image_GetFileModTime env (FilePath t) = (mt, None) ->
        fst (utils_DirExists env (FilePath t)) = false ->
        image_CalculateMD5 env (FilePath t) = (checksum, None) ->
        Image_FindByChecksum repo st checksum = (Some i, None) ->
        let tr := snd (run (scanImage repo env t) st) in
        let p := imagePathPartial (im_ID i) (FilePath t) in
        let folder := filepath_Dir env (FilePath t) in
        let newGallery :=
          mkGallery 0%Z (utils_MD5FromString env folder) false (mkNullString folder true)
            (mkNullSQLiteTimestamp 0%Z false) (time_Now env) (time_Now env) in
        let association (st1 : Store) : list WriteOp :=
          match zipGallery t with
          | Some zg => [WGalleryAddImage (ga_ID zg) (im_ID i)]
          | None =>
              if config_GetCreateGalleriesFromFolders env then
                match Gallery_FindByPath repo st1 folder with
                | (_, Some _) => []
                | (Some g, None) => [WGalleryAddImage (ga_ID g) (im_ID i)]
                | (None, None) =>
                    WGalleryCreate newGallery
                    :: match Gallery_Create repo st1 newGallery with
                       | (_, inl g) => [WGalleryAddImage (ga_ID g) (im_ID i)]
                       | (_, inr _) => []
                       end
                end
              else []
          end in
        (if image_FileExists env (im_Path i) then
           filter isImageWrite (writes tr) = [] /\
           In (EvLog Info (image_PathDisplayName env (FilePath t)
                             ++ " already exists.  Duplicate of "
                             ++ image_PathDisplayName env (im_Path i) ++ " ")) tr
         else
           filter isImageWrite (writes tr) = [WImageUpdate p]) /\
        forallb (fun w => isImageWrite w || isGalleryWrite w) (writes tr) = true /\
        (if image_FileExists env (im_Path i) then writes tr = association st
         else
           match Image_Update repo st p with
           | (st1, inl _) => writes tr = WImageUpdate p :: association st1
           | (_, inr e) => writes tr = [WImageUpdate p] /\ In (EvLog Error e) tr
           end) /\
        (zipGallery t = None ->
         config_GetCreateGalleriesFromFolders env = false ->
         if image_FileExists env (im_Path i) then
           writeTxns tr = 0 /\ snd (fst (run (scanImage repo env t) st)) = st
         else
           writeTxns tr = 1 /\ writes tr = [WImageUpdate p])).
Proof.
  intros Store repo env t st. split.
  - intros s oshash checksum vf. apply scanScene_hash_match.
  - intros i checksum mt. apply scanImage_hash_match.
Qed.

Lemma hash_match_migrates_path_or_reports_duplicate_witness :
  writes (snd (run (scanScene memRepository movedEnv (plainTask "new/a.mp4")) movedStore))
    = [WSceneUpdate (scenePathPartial 1%Z "new/a.mp4")] /\
  writes (snd (run (scanImage memRepository movedEnv (plainTask "new/p.jpg")) movedStore))
    = [WImageUpdate (imagePathPartial 2%Z "new/p.jpg")] /\
  writes (snd (run (scanImage memRepository duplicateEnv (plainTask "pics/b.jpg"))
                 duplicateStore))
    = [WGalleryCreate
         (mkGallery 0%Z "md5:pics" false (mkNullString "pics" true)
            (mkNullSQLiteTimestamp 0%Z false) (time_Now duplicateEnv) (time_Now duplicateEnv));
       WGalleryAddImage 2%Z 1%Z].
Proof.
  split; [|split].
  - exact (proj2
             (proj1 (hash_match_migrates_path_or_reports_duplicate
                       MemStore memRepository movedEnv (plainTask "new/a.mp4") movedStore)
                movedScene "os-a" "" probedFile
                eq_refl eq_refl eq_refl eq_refl eq_refl eq_refl eq_refl)).
  - exact (proj2
             (proj2 (proj2 (proj2
                (proj2 (hash_match_migrates_path_or_reports_duplicate
                          MemStore memRepository movedEnv (plainTask "new/p.jpg") movedStore)
                   movedImage "md5-p" (seconds 1600000007)
                   eq_refl eq_refl eq_refl eq_refl eq_refl)))
                eq_refl eq_refl)).
  - exact (proj1 (proj2 (proj2
             (proj2 (hash_match_migrates_path_or_reports_duplicate
                       MemStore memRepository duplicateEnv (plainTask "pics/b.jpg")
                       duplicateStore)
                duplicateImage "md5-x" (seconds 1600000050)
                eq_refl eq_refl eq_refl eq_refl eq_refl)))).
Defined.

(** C3 as stated fails for images: the second of two identical image files
    in a folder, with galleries created from folders.  No record has the
    path, the checksum matches a record whose file exists, and the pass
    still opens a write transaction, in which it creates a gallery for the
    folder and adds the matched image to it. *)
Lemma duplicate_image_pass_writes_gallery :
  Image_FindByPath memRepository duplicateStore "pics/b.jpg" = (None, None) /\
  image_CalculateMD5 duplicateEnv "pics/b.jpg" = ("md5-x", None) /\
  Image_FindByChecksum memRepository duplicateStore "md5-x" = (Some duplicateImage, None) /\
  image_FileExists duplicateEnv (im_Path duplicateImage) = true /\
  let tr := snd (run (scanImage memRepository duplicateEnv (plainTask "pics/b.jpg"))
                   duplicateStore) in
  writeTxns tr <> 0 /\
  writes tr
    = [WGalleryCreate
         (mkGallery 0%Z "md5:pics" false (mkNullString "pics" true)
            (mkNullSQLiteTimestamp 0%Z false) (time_Now duplicateEnv) (time_Now duplicateEnv));
       WGalleryAddImage 2%Z 1%Z] /\
  ms_galleries
    (snd (fst (run (scanImage memRepository duplicateEnv (plainTask "pics/b.jpg"))
                 duplicateStore)))
    <> ms_galleries duplicateStore.
Proof.
  repeat split; try (vm_compute; reflexivity); vm_compute; discriminate.
Qed.

(** C4. A second pass over an unchanged file opens no write transaction.
    Scene: the record exists, its modification time is valid and equal to
    the one on disk truncated to seconds, and size, format, oshash and
    checksum are set; the pass reads the record and checks the
    screenshots.  Image: the record exists with a valid modification time
    equal to the one on disk; the pass reads the record and checks the
    thumbnail.  In both the store is left as it was. *)
Theorem rescan_of_unchanged_file_opens_no_write_transaction :
  forall (Store : Type) (repo : Repository Store) (env : Env) (t : ScanTask) (st : Store),
    (forall (s : Scene) (mt : Time),
        Scene_FindByPath repo st (FilePath t) = (Some s, None) ->
        os_Stat env (FilePath t) = (mt, None) ->
        Valid (sc_FileModTime s) = true ->
        Timestamp (sc_FileModTime s) = Truncate_Second mt ->
        NValid (sc_Size s) = true ->
        NValid (sc_Format s) = true ->
        NValid (sc_OSHash s) = true ->
        NValid (sc_Checksum s) = true ->
        run (scanScene repo env t) st
        = (None, st,
           [EvReadTxn;
            EvMakeScreenshots None (Scene_GetHash env s (fileNamingAlgorithm t))]) /\
        writeTxns (snd (run (scanScene repo env t) st)) = 0 /\
        writes (snd (run (scanScene repo env t) st)) = []) /\
    (forall (i : Image) (mt : Time),
        Image_FindByPath repo st (FilePath t) = (Some i, None) ->
        image_GetFileModTime env (FilePath t) = (mt, None) ->
        Valid (im_FileModTime i) = true ->
        Timestamp (im_FileModTime i) = mt ->
        run (scanImage repo env t) st
        = (tt, st, [EvReadTxn; EvGenerateThumbnail i; EvGenerateThumbnail i]) /\
        writeTxns (snd (run (scanImage repo env t) st)) = 0 /\
        writes (snd (run (scanImage repo env t) st)) = []).
Proof.
  intros Store repo env t st. split.
  - intros s mt H1 H2 H3 H4 H5 H6 H7 H8.
    rewrite (scanScene_unchanged Store repo env t st s mt H1 H2 H3 H4 H5 H6 H7 H8).
    repeat split.
  - intros i mt H1 H2 H3 H4.
    rewrite (scanImage_unchanged Store repo env t st i mt H1 H2 H3 H4).
    repeat split.
Qed.

Lemma rescan_of_unchanged_file_opens_no_write_transaction_witness :
  writeTxns (snd (run (scanScene memRepository unchangedEnv (plainTask "a.mp4"))
                    unchangedStore)) = 0 /\
  writeTxns (snd (run (scanImage memRepository unchangedEnv (plainTask "p.jpg"))
                    unchangedStore)) = 0.
Proof.
  split.
  - exact (proj1 (proj2
             (proj1 (rescan_of_unchanged_file_opens_no_write_transaction
                       MemStore memRepository unchangedEnv (plainTask "a.mp4")
                       unchangedStore)
                unchangedScene (seconds 1600000000 + 123456)%Z
                eq_refl eq_refl eq_refl eq_refl eq_refl eq_refl eq_refl eq_refl))).
  - exact (proj1 (proj2
             (proj2 (rescan_of_unchanged_file_opens_no_write_transaction
                       MemStore memRepository unchangedEnv (plainTask "p.jpg")
                       unchangedStore)
                unchangedImage (seconds 1600000007)
                eq_refl eq_refl eq_refl eq_refl))).
Defined.

(* ================================================================== *)
(** * Part V. Further properties of package sqlite *)
(* ================================================================== *)

(** ** Errors and joins of a tree *)

(** X1. [getError] returns the error of the first node, from the root down
    the sub-filter chain, that has one; it returns nil exactly when no node
    of the tree is in error state. *)
Theorem getError_is_first_error_of_tree :
  forall f : filterBuilder,
    getError f = hd_error (errorsOf f) /\
    (getError f = None <-> errorsOf f = []).
Proof.
  assert (H : forall f, getError f = hd_error (errorsOf f)).
  { induction f as [op js ws hs e | s op js ws hs e IH] using filterBuilder_induction;
      simpl; destruct e; simpl; auto. }
  intros f. split; [apply H|].
  rewrite H. destruct (errorsOf f); simpl; split; intros; congruence.
Qed.

Lemma joins_add_distinct (newJoins : list join) :
  forall j : joins,
    NoDup (map alias (j ++ newJoins)) -> joins_add j newJoins = (j ++ newJoins)%list.
Proof.
  induction newJoins as [|n rest IH]; intros j Hnd; simpl.
  - now rewrite app_nil_r.
  - rewrite map_app in Hnd. simpl in Hnd.
    pose proof (NoDup_remove_2 _ _ _ Hnd) as Hnotin.
    destruct (existsb (fun jj => equals jj n) j) eqn:E.
    + exfalso. apply Hnotin. apply in_or_app. left. now apply existsb_equals_alias.
    + rewrite IH.
      * now rewrite <- app_assoc.
      * rewrite <- app_assoc. simpl. now rewrite map_app.
Qed.

(** X2. When no alias is requested twice anywhere in a filter tree,
    [getAllJoins] returns every join of every node, the root's first and in
    the order they were attached: nothing is dropped. *)
Theorem getAllJoins_keeps_all_when_aliases_distinct :
  forall f : filterBuilder,
    NoDup (map alias (requestedJoins f)) ->
    getAllJoins f = requestedJoins f.
Proof.
  assert (Hown : forall js : joins, NoDup (map alias js) -> joins_add [] js = js).
  { intros js H. now apply (joins_add_distinct js []). }
  induction f as [op js ws hs e | s op js ws hs e IH] using filterBuilder_induction;
    simpl; intros Hnd.
  - rewrite app_nil_r in *. now apply Hown.
  - rewrite map_app in Hnd.
    rewrite (IH (NoDup_app_remove_l _ _ Hnd)), (Hown js (NoDup_app_remove_r _ _ Hnd)).
    destruct (requestedJoins s) as [|x l] eqn:E.
    + simpl. now rewrite app_nil_r.
    + change (0 <? List.length (x :: l))%nat with true. cbv iota.
      apply joins_add_distinct. now rewrite map_app.
Qed.

Lemma getAllJoins_keeps_all_when_aliases_distinct_witness :
  getAllJoins tagsNotStudioFilter
  = [mkJoin "scenes_tags" "tags_join" "tags_join.scene_id = scenes.id";
     mkJoin "tags" "" "tags_join.tag_id = tags.id";
     mkJoin "studios" "studio" "studio.id = scenes.studio_id"].
Proof.
  apply (getAllJoins_keeps_all_when_aliases_distinct tagsNotStudioFilter).
  repeat constructor; simpl; intuition discriminate.
Defined.

(** X3. [addJoin] keeps the aliases of a node's joins pairwise distinct.
    When the alias (the [as] string, or the table when [as] is empty) is
    already present the node is left as it is, whatever table and ON clause
    the new request carries; otherwise the join is appended. *)
Theorem addJoin_first_request_wins :
  forall (f : filterBuilder) (table as_ onClause : string),
    let new := mkJoin table as_ onClause in
    (In (alias new) (map alias (fjoins f)) -> addJoin f table as_ onClause = f) /\
    (~ In (alias new) (map alias (fjoins f)) ->
     fjoins (addJoin f table as_ onClause) = (fjoins f ++ [new])%list) /\
    (NoDup (map alias (fjoins f)) ->
     NoDup (map alias (fjoins (addJoin f table as_ onClause)))).
Proof.
  intros [sub op js ws hs e] t a o new. simpl. split; [|split].
  - intros Hin. unfold addJoin. simpl.
    apply existsb_equals_alias in Hin. fold new. now rewrite Hin.
  - intros Hnotin. fold new.
    destruct (existsb (fun jj => equals jj new) js) eqn:E; [|reflexivity].
    exfalso. apply Hnotin. now apply existsb_equals_alias.
  - intros Hnd. apply (joins_add_NoDup [new] js Hnd).
Qed.

Lemma addJoin_first_request_wins_witness :
  let f := addJoin emptyFilter "scenes_tags" "tags_join" "tags_join.scene_id = scenes.id" in
  addJoin f "tags" "tags_join" "tags_join.id = 1" = f.
Proof.
  intros f.
  apply (proj1 (addJoin_first_request_wins f "tags" "tags_join" "tags_join.id = 1")).
  simpl. now left.
Defined.

(** ** Compilation of where and having clauses *)

(** X4. How a node's own WHERE text combines with its sub-filter's: with no
    clause of its own and a sub-filter attached by [and] or [or] the node
    compiles exactly as its sub-filter (no operator is emitted); with
    clauses on both sides the texts are joined by the operator between
    spaces; and a sub-filter that compiles to nothing is dropped together
    with its operator, [not] included. *)
Theorem where_clause_composition :
  forall (f s : filterBuilder),
    subFilter f = Some s ->
    (whereClauses f = [] -> subFilterOp f <> notOp ->
     generateWhereClauses f = generateWhereClauses s) /\
    (whereClauses f <> [] -> fst (generateWhereClauses s) <> "" ->
     fst (generateWhereClauses f)
     = fst (andClauses (whereClauses f)) ++ " " ++ subFilterOp f ++ " "
         ++ fst (generateWhereClauses s)) /\
    (fst (generateWhereClauses s) = "" ->
     generateWhereClauses f = andClauses (whereClauses f)).
Proof.
  intros [sub op js ws hs e] s Hsub. simpl in Hsub. subst sub.
  pose proof (generateWhereClauses_empty_text s) as Hempty.
  cbn [whereClauses subFilterOp].
  change (generateWhereClauses (mkFilterBuilder (Some s) op js ws hs e))
    with (let '(clause, args) := andClauses ws in
          let '(c, a) := generateWhereClauses s in
          if negb (c =? "")
          then (getSubFilterClause (mkFilterBuilder (Some s) op js ws hs e) clause c,
                if (0 <? List.length a)%nat then (args ++ a)%list else args)
          else (clause, args)).
  destruct (generateWhereClauses s) as [c a]. cbn [fst snd] in *.
  split; [|split].
  - intros -> Hop. cbn. apply String.eqb_neq in Hop.
    destruct (c =? "") eqn:Ec; cbn.
    + apply String.eqb_eq in Ec. now rewrite Ec, (Hempty Ec).
    + unfold getSubFilterClause. cbn. rewrite Ec, Hop. cbn.
      destruct a; reflexivity.
  - intros Hws Hc. destruct ws as [|w ws]; [congruence|].
    destruct (andClauses (w :: ws)) as [clause args] eqn:E.
    apply String.eqb_neq in Hc. rewrite Hc. cbn [negb fst].
    unfold getSubFilterClause. rewrite Hc. cbn [negb subFilterOp].
    assert (Hlen : (0 <? String.length clause)%nat = true).
    { inversion E. reflexivity. }
    rewrite Hlen. now rewrite !append_assoc.
  - intros ->. destruct (andClauses ws) as [clause args]. reflexivity.
Qed.

Lemma where_clause_composition_witness :
  let s := addWhere emptyFilter "scenes.rating > ?" [ArgInt 3] in
  generateWhereClauses (f_or emptyFilter (Some s)) = ("(scenes.rating > ?)", [ArgInt 3]).
Proof.
  intros s.
  exact (proj1 (where_clause_composition (f_or emptyFilter (Some s)) s eq_refl)
           eq_refl ltac:(discriminate)).
Defined.

Lemma segments_nil_text (f : filterBuilder) :
  segments f = [] -> generateWhereClauses f = ("", []).
Proof.
  induction f as [op js ws hs e | s op js ws hs e IH] using filterBuilder_induction;
    simpl; intros H.
  - rewrite app_nil_r in H. now subst ws.
  - apply app_eq_nil in H. destruct H as [-> Hs]. rewrite (IH Hs). reflexivity.
Qed.

(** X5. A filter tree compiles to an empty WHERE text exactly when no node
    of it has a where clause, and then it binds no argument; [addFilter]
    then adds neither a clause nor an argument for it. *)
Theorem where_text_empty_iff_no_clause :
  forall f : filterBuilder,
    (fst (generateWhereClauses f) = "" <-> segments f = []) /\
    (segments f = [] -> generateWhereClauses f = ("", [])) /\
    (segments f = [] -> getError f = None ->
     forall qb, qb_whereClauses (addFilter qb f) = qb_whereClauses qb).
Proof.
  intros f. split; [split|split].
  - apply segments_empty_text.
  - intros H. now rewrite (segments_nil_text f H).
  - apply segments_nil_text.
  - intros Hseg Herr qb. unfold addFilter. rewrite Herr, (segments_nil_text f Hseg).
    cbn [String.length Nat.ltb Nat.leb List.length].
    destruct (generateHavingClauses f) as [[|c0 c] [|a0 a]]; reflexivity.
Qed.

Lemma where_text_empty_iff_no_clause_witness :
  let f := f_and (addJoin emptyFilter "tags" "" "tags.id = scenes_tags.tag_id")
                 (Some (addHaving emptyFilter "count(tags.id) > ?" [ArgInt 1])) in
  generateWhereClauses f = ("", []).
Proof.
  intros f. exact (proj1 (proj2 (where_text_empty_iff_no_clause f)) eq_refl).
Defined.

Lemma generateHavingClauses_empty_text (f : filterBuilder) :
  fst (generateHavingClauses f) = "" -> snd (generateHavingClauses f) = [].
Proof.
  induction f as [op js ws hs e | s op js ws hs e IH] using filterBuilder_induction;
    simpl.
  - destruct (andClauses hs) as [clause a] eqn:E. simpl. intros ->.
    apply (f_equal fst) in E as E1. apply andClauses_empty_text in E1. subst hs.
    now inversion E.
  - destruct (andClauses hs) as [clause a] eqn:E.
    destruct (generateHavingClauses s) as [c sa] eqn:Es. simpl in IH.
    destruct (c =? "") eqn:Ec; simpl.
    + intros ->. apply (f_equal fst) in E as E1. apply andClauses_empty_text in E1.
      subst hs. now inversion E.
    + intros H. exfalso.
      apply append_eq_empty in H. destruct H as [_ H]. discriminate.
Qed.

(** X6. The arguments returned by [generateHavingClauses] are the having
    arguments of the tree in compilation order: the node's own, in the
    order the clauses were added, then those of its sub-filter. *)
Theorem generateHavingClauses_args_in_order :
  forall f : filterBuilder,
    snd (generateHavingClauses f) = flat_map args (havingSegments f) /\
    snd (generateHavingClauses f)
    = (flat_map args (havingClauses f)
       ++ match subFilter f with
          | Some s => snd (generateHavingClauses s)
          | None => []
          end)%list.
Proof.
  assert (Hstep : forall f,
            snd (generateHavingClauses f)
            = (flat_map args (havingClauses f)
               ++ match subFilter f with
                  | Some s => snd (generateHavingClauses s)
                  | None => []
                  end)%list).
  { intros [[s|] op js ws hs e]; simpl.
    - pose proof (andClauses_args hs) as Ha.
      pose proof (generateHavingClauses_empty_text s) as Hempty.
      destruct (andClauses hs) as [clause a].
      destruct (generateHavingClauses s) as [c sa]. simpl in *. subst a.
      destruct (c =? "") eqn:Ec; simpl.
      + apply String.eqb_eq in Ec. rewrite (Hempty Ec). now rewrite app_nil_r.
      + destruct sa; simpl; [now rewrite app_nil_r | reflexivity].
    - pose proof (andClauses_args hs) as Ha.
      destruct (andClauses hs) as [clause a]. simpl in *. subst a.
      now rewrite app_nil_r. }
  intros f. split; [|apply Hstep].
  induction f as [op js ws hs e | s op js ws hs e IH] using filterBuilder_induction;
    rewrite Hstep; simpl.
  - now rewrite !app_nil_r.
  - now rewrite flat_map_app, IH.
Qed.

(** ** Placeholder lists *)

Lemma placeholders_Repeat (s : string) (n : nat) :
  placeholders (Repeat s n) = n * placeholders s.
Proof.
  induction n as [|n IH]; simpl; [reflexivity|].
  now rewrite placeholders_app, IH.
Qed.

(** X7. [getInBinding n] is a parenthesised list of exactly [n]
    placeholders separated by a comma and a space, with no trailing
    separator; for [n = 0] it is the empty list [()]. *)
Theorem getInBinding_has_n_placeholders :
  forall n : nat,
    placeholders (getInBinding n) = n /\
    getInBinding 0 = "()" /\
    getInBinding (S n) = "(?" ++ Repeat ", ?" n ++ ")".
Proof.
  intros n.
  assert (Hs : forall k, getInBinding (S k) = "(?" ++ Repeat ", ?" k ++ ")").
  { intros k. unfold getInBinding. now rewrite Repeat_placeholders_trimmed. }
  split; [|split; [reflexivity | apply Hs]].
  destruct n as [|n]; [reflexivity|].
  rewrite Hs. simpl. rewrite placeholders_app, placeholders_Repeat. simpl. lia.
Qed.

(** ** Handing a filter to the query builder *)

Lemma nonEmpty_filter (text : string) :
  filter (fun clause => (0 <? String.length clause)%nat) [text] = nonEmpty text.
Proof. destruct text; reflexivity. Qed.

Lemma addFilter_without_error (qb : queryBuilder) (f : filterBuilder) :
  getError f = None ->
  addFilter qb f
  = mkQueryBuilder (qb_repository qb) (qb_body qb)
      (joins_add (qb_joins qb) (getAllJoins f))
      (qb_whereClauses qb ++ nonEmpty (fst (generateWhereClauses f)))%list
      (qb_havingClauses qb ++ nonEmpty (fst (generateHavingClauses f)))%list
      (qb_args qb ++ snd (generateWhereClauses f) ++ snd (generateHavingClauses f))%list
      (qb_sortAndPagination qb) (qb_err qb).
Proof.
  intros Herr. unfold addFilter. rewrite Herr.
  destruct qb as [r body js ws hs a sp e].
  destruct (generateWhereClauses f) as [[|wc wt] wa];
    destruct (generateHavingClauses f) as [[|hc ht] ha];
    destruct wa, ha; cbn;
    unfold qb_addJoins, qb_addArg, qb_addWhere, qb_addHaving; cbn;
    rewrite ?app_nil_r, <- ?app_assoc; reflexivity.
Qed.

(** X8. What [addFilter] does to a query builder.  For a tree without
    error it appends the compiled WHERE text and the compiled HAVING text
    (each only when not empty), appends the WHERE arguments followed by the
    HAVING arguments, and adds the tree's joins; body, sort, pagination and
    error state are untouched.  For a tree in error state it changes
    nothing but the error state, which it overwrites. *)
Theorem addFilter_effect :
  forall (qb : queryBuilder) (f : filterBuilder),
    match getError f with
    | None =>
        qb_whereClauses (addFilter qb f)
          = (qb_whereClauses qb ++ nonEmpty (fst (generateWhereClauses f)))%list /\
        qb_havingClauses (addFilter qb f)
          = (qb_havingClauses qb ++ nonEmpty (fst (generateHavingClauses f)))%list /\
        qb_args (addFilter qb f)
          = (qb_args qb ++ snd (generateWhereClauses f)
               ++ snd (generateHavingClauses f))%list /\
        qb_joins (addFilter qb f) = joins_add (qb_joins qb) (getAllJoins f) /\
        qb_body (addFilter qb f) = qb_body qb /\
        qb_sortAndPagination (addFilter qb f) = qb_sortAndPagination qb /\
        qb_err (addFilter qb f) = qb_err qb
    | Some e =>
        qb_whereClauses (addFilter qb f) = qb_whereClauses qb /\
        qb_havingClauses (addFilter qb f) = qb_havingClauses qb /\
        qb_args (addFilter qb f) = qb_args qb /\
        qb_joins (addFilter qb f) = qb_joins qb /\
        qb_err (addFilter qb f) = Some e
    end.
Proof.
  intros qb f. destruct (getError f) as [e|] eqn:Herr.
  - unfold addFilter. rewrite Herr. repeat split.
  - rewrite (addFilter_without_error qb f Herr). repeat split.
Qed.

(** ** The statements that [executeFind] runs *)

Section ExecuteFind.

Variable runCountQuery : string -> list arg -> Z * option error.
Variable runIdsQuery : string -> list arg -> list Z * option error.
Variable fmt_args : list arg -> string.

Lemma placeholders_Join_and (l : list string) :
  placeholders (Join l " AND ") = placeholdersOf l.
Proof. now apply placeholders_Join. Qed.

Lemma executeFindQuery_statements (r : repository) (body : string) (a : list arg)
    (sortAndPagination : string) (ws hs : list string) :
  exists text : string,
    snd (executeFindQuery runCountQuery runIdsQuery fmt_args r body a
           sortAndPagination ws hs)
    = [(buildCountQuery text, a); (text ++ sortAndPagination, a)] /\
    placeholders text
    = placeholders body + placeholdersOf ws + placeholders (tableName r)
      + placeholdersOf hs.
Proof.
  unfold executeFindQuery.
  set (b1 := if (0 <? List.length ws)%nat
             then body ++ " WHERE " ++ Join ws " AND " else body).
  set (b2 := b1 ++ " GROUP BY " ++ tableName r ++ ".id ").
  set (b3 := if (0 <? List.length hs)%nat
             then b2 ++ " HAVING " ++ Join hs " AND " else b2).
  exists b3. split.
  - destruct (runCountQuery (buildCountQuery b3) a) as [cr [ce|]];
      destruct (runIdsQuery (b3 ++ sortAndPagination) a) as [ir [ie|]]; reflexivity.
  - assert (H1 : placeholders b1 = placeholders body + placeholdersOf ws).
    { unfold b1. destruct ws as [|w ws]; [simpl; unfold placeholdersOf; simpl; lia|].
      change (0 <? List.length (w :: ws))%nat with true. cbv iota.
      rewrite !placeholders_app, placeholders_Join_and. simpl. lia. }
    assert (H2 : placeholders b2 = placeholders b1 + placeholders (tableName r)).
    { unfold b2. rewrite !placeholders_app. simpl. lia. }
    unfold b3. destruct hs as [|h hs].
    + simpl. unfold placeholdersOf at 2. simpl. lia.
    + change (0 <? List.length (h :: hs))%nat with true. cbv iota.
      rewrite !placeholders_app, placeholders_Join_and. simpl. lia.
Qed.

(** X9. A query builder without error always runs two statements, in this
    order: the count query, which wraps the assembled query text, and the
    ids query, which is the same text followed by sort and pagination;
    both are bound to all the arguments.  The result carries ids and count
    only when both succeeded; when both fail the count query's error is
    the one reported. *)
Theorem executeFind_runs_count_then_ids :
  forall qb : queryBuilder,
    qb_err qb = None ->
    exists text : string,
      let countQuery := buildCountQuery text in
      let idsQuery := text ++ qb_sortAndPagination qb in
      let '(countResult, countErr) := runCountQuery countQuery (qb_args qb) in
      let '(idsResult, idsErr) := runIdsQuery idsQuery (qb_args qb) in
      let '((ids, count, err), ran) :=
        executeFind runCountQuery runIdsQuery fmt_args qb in
      ran = [(countQuery, qb_args qb); (idsQuery, qb_args qb)] /\
      (countErr = None -> idsErr = None ->
       ids = idsResult /\ count = countResult /\ err = None) /\
      (forall e, countErr = Some e ->
       ids = [] /\ count = 0%Z /\
       err = Some ("Error executing count query with SQL: " ++ countQuery
                     ++ ", args: " ++ fmt_args (qb_args qb) ++ ", error: " ++ e)) /\
      (forall e, countErr = None -> idsErr = Some e ->
       ids = [] /\ count = 0%Z /\
       err = Some ("Error executing find query with SQL: " ++ idsQuery
                     ++ ", args: " ++ fmt_args (qb_args qb) ++ ", error: " ++ e)).
Proof.
  intros qb Herr. unfold executeFind. rewrite Herr. unfold executeFindQuery.
  set (body := qb_body qb ++ joins_toSQL (qb_joins qb)).
  set (b1 := if (0 <? List.length (qb_whereClauses qb))%nat
             then body ++ " WHERE " ++ Join (qb_whereClauses qb) " AND " else body).
  set (b2 := b1 ++ " GROUP BY " ++ tableName (qb_repository qb) ++ ".id ").
  set (b3 := if (0 <? List.length (qb_havingClauses qb))%nat
             then b2 ++ " HAVING " ++ Join (qb_havingClauses qb) " AND " else b2).
  exists b3. cbv zeta.
  destruct (runCountQuery (buildCountQuery b3) (qb_args qb)) as [cr [ce|]];
    destruct (runIdsQuery (b3 ++ qb_sortAndPagination qb) (qb_args qb)) as [ir [ie|]];
    repeat split; intros; try congruence.
Qed.

End ExecuteFind.

Lemma executeFind_runs_count_then_ids_witness :
  let qb := addFilter (mkQueryBuilder (mkRepository "scenes" "id")
                         "SELECT DISTINCT scenes.id FROM scenes " [] [] [] []
                         " ORDER BY scenes.title ASC" None)
              tagsNotStudioFilter in
  exists text : string,
    snd (executeFind (fun _ _ => (3%Z, None)) (fun _ _ => ([1; 2; 3]%Z, None))
           (fun _ => "") qb)
    = [(buildCountQuery text, [ArgString "5"; ArgString "7"; ArgString "9"]);
       (text ++ " ORDER BY scenes.title ASC",
        [ArgString "5"; ArgString "7"; ArgString "9"])].
Proof.
  intros qb.
  destruct (executeFind_runs_count_then_ids
              (fun _ _ => (3%Z, None)) (fun _ _ => ([1; 2; 3]%Z, None)) (fun _ => "")
              qb eq_refl) as [text H].
  exists text. cbv zeta in H.
  destruct (executeFind (fun _ _ => (3%Z, None)) (fun _ _ => ([1; 2; 3]%Z, None))
              (fun _ => "") qb) as [[[ids count] err] ran].
  exact (proj1 H).
Defined.

(** ** Placeholders and arguments of the executed statements *)

Lemma generateHavingClauses_placeholders (f : filterBuilder) :
  balancedHaving f = true ->
  placeholders (fst (generateHavingClauses f))
  = List.length (snd (generateHavingClauses f)).
Proof.
  induction f as [op js ws hs e | s op js ws hs e IH] using filterBuilder_induction;
    simpl; intros Hb.
  - apply andb_prop in Hb. destruct Hb as [Hb _].
    apply andb_prop in Hb. destruct Hb as [Hb _].
    pose proof (placeholders_andClauses hs Hb) as H.
    now destruct (andClauses hs).
  - apply andb_prop in Hb. destruct Hb as [Hb Hs].
    apply andb_prop in Hb. destruct Hb as [Hb Hop]. apply Nat.eqb_eq in Hop.
    pose proof (placeholders_andClauses hs Hb) as H. specialize (IH Hs).
    destruct (andClauses hs) as [clause a].
    destruct (generateHavingClauses s) as [c sa]. simpl in *.
    destruct (c =? "") eqn:Ec; simpl; [assumption|].
    assert (Hlen : List.length (if (0 <? List.length sa)%nat then (a ++ sa)%list else a)
                   = List.length a + List.length sa).
    { destruct sa; simpl; [lia | now rewrite length_app]. }
    rewrite Hlen, placeholders_app. simpl. rewrite placeholders_app. simpl. lia.
Qed.

Lemma placeholders_join_toSQL (j : join) :
  cleanJoin j = true -> placeholders (join_toSQL j) = 0.
Proof.
  unfold cleanJoin, join_toSQL. intros H. apply Nat.eqb_eq in H.
  destruct (negb (as_ j =? "") && negb (as_ j =? table j));
    rewrite !placeholders_app; simpl; lia.
Qed.

Lemma placeholders_joins_toSQL (js : joins) :
  forallb cleanJoin js = true -> placeholders (joins_toSQL js) = 0.
Proof.
  intros H. unfold joins_toSQL. rewrite placeholders_Join by reflexivity.
  induction js as [|j js IH]; [reflexivity|].
  cbn [forallb] in H. apply andb_prop in H. destruct H as [Hj Hjs].
  change (list_sum (map placeholders (map join_toSQL (j :: js))))
    with (placeholders (join_toSQL j) + list_sum (map placeholders (map join_toSQL js))).
  rewrite (placeholders_join_toSQL j Hj), (IH Hjs). reflexivity.
Qed.

Lemma joins_add_In (newJoins : list join) :
  forall (j : joins) (x : join),
    In x (joins_add j newJoins) -> In x j \/ In x newJoins.
Proof.
  induction newJoins as [|n rest IH]; intros j x Hx; simpl in *.
  - now left.
  - destruct (existsb (fun jj => equals jj n) j); [now left|].
    apply IH in Hx. rewrite in_app_iff in Hx. simpl in Hx. tauto.
Qed.

(** Every join of the compiled list was attached to some node. *)
Lemma getAllJoins_In (f : filterBuilder) (x : join) :
  In x (getAllJoins f) -> In x (requestedJoins f).
Proof.
  assert (Hroot : forall js, In x (joins_add [] js) -> In x js).
  { intros js H. apply joins_add_In in H. destruct H as [[] | H]. exact H. }
  induction f as [op js ws hs e | s op js ws hs e IH] using filterBuilder_induction;
    simpl; intros Hx.
  - rewrite app_nil_r. now apply Hroot.
  - apply in_or_app.
    destruct (0 <? List.length (getAllJoins s))%nat.
    + apply joins_add_In in Hx. destruct Hx as [Hx | Hx].
      * left. now apply Hroot.
      * right. now apply IH.
    + left. now apply Hroot.
Qed.

Lemma placeholdersOf_nonEmpty (ws : list string) (text : string) :
  placeholdersOf (ws ++ nonEmpty text) = placeholdersOf ws + placeholders text.
Proof.
  unfold placeholdersOf, nonEmpty. rewrite map_app, list_sum_app.
  destruct text; simpl; lia.
Qed.

(** X10. In every statement that [executeFind] runs for a balanced filter
    tree the number of placeholders equals the number of bound arguments:
    this holds when the query builder was in balance before the filter was
    added, the tree's where and having clauses each bind as many arguments
    as they have placeholders, and body, joins, table name, sort and
    pagination contain no placeholder. *)
Theorem executed_statements_bind_every_placeholder :
  forall (runCountQuery : string -> list arg -> Z * option error)
         (runIdsQuery : string -> list arg -> list Z * option error)
         (fmt_args : list arg -> string)
         (qb : queryBuilder) (f : filterBuilder),
    qb_err qb = None ->
    getError f = None ->
    balanced f = true ->
    balancedHaving f = true ->
    forallb cleanJoin (qb_joins qb) = true ->
    forallb cleanJoin (requestedJoins f) = true ->
    placeholders (qb_body qb) = 0 ->
    placeholders (qb_sortAndPagination qb) = 0 ->
    placeholders (tableName (qb_repository qb)) = 0 ->
    placeholdersOf (qb_whereClauses qb) + placeholdersOf (qb_havingClauses qb)
      = List.length (qb_args qb) ->
    Forall (fun stmt : statement => placeholders (fst stmt) = List.length (snd stmt))
      (snd (executeFind runCountQuery runIdsQuery fmt_args (addFilter qb f))).
Proof.
  intros rc ri fa qb f Hqerr Hferr Hw Hh Hqj Hfj Hbody Hsort Htable Hqb.
  rewrite (addFilter_without_error qb f Hferr).
  unfold executeFind. cbn [qb_err qb_body qb_joins qb_repository qb_args
                            qb_sortAndPagination qb_whereClauses qb_havingClauses].
  rewrite Hqerr.
  destruct (executeFindQuery_statements rc ri fa (qb_repository qb)
              (qb_body qb ++ joins_toSQL (joins_add (qb_joins qb) (getAllJoins f)))
              (qb_args qb ++ snd (generateWhereClauses f)
                 ++ snd (generateHavingClauses f))%list
              (qb_sortAndPagination qb)
              (qb_whereClauses qb ++ nonEmpty (fst (generateWhereClauses f)))%list
              (qb_havingClauses qb ++ nonEmpty (fst (generateHavingClauses f)))%list)
    as [text [Hran Htext]].
  rewrite Hran.
  assert (Hjoins : placeholders
                     (joins_toSQL (joins_add (qb_joins qb) (getAllJoins f))) = 0).
  { apply placeholders_joins_toSQL. apply forallb_forall. intros x Hx.
    apply joins_add_In in Hx. destruct Hx as [Hx | Hx].
    - exact (proj1 (forallb_forall _ _) Hqj x Hx).
    - exact (proj1 (forallb_forall _ _) Hfj x (getAllJoins_In f x Hx)). }
  assert (Hcount : placeholders text
                   = List.length (qb_args qb ++ snd (generateWhereClauses f)
                                    ++ snd (generateHavingClauses f))%list).
  { rewrite Htext, !placeholdersOf_nonEmpty, placeholders_app, Hbody, Hjoins, Htable.
    rewrite (generateWhereClauses_placeholders f Hw),
            (generateHavingClauses_placeholders f Hh).
    rewrite !length_app. lia. }
  constructor; [|constructor; [|constructor]]; cbn [fst snd].
  - unfold buildCountQuery. rewrite !placeholders_app, Hcount. simpl. lia.
  - rewrite placeholders_app, Hsort, Hcount. lia.
Qed.

Lemma executed_statements_bind_every_placeholder_witness :
  let qb := mkQueryBuilder (mkRepository "scenes" "id")
              "SELECT DISTINCT scenes.id FROM scenes " [] [] [] []
              " ORDER BY scenes.title ASC" None in
  Forall (fun stmt : statement => placeholders (fst stmt) = List.length (snd stmt))
    (snd (executeFind (fun _ _ => (3%Z, None)) (fun _ _ => ([1; 2; 3]%Z, None))
            (fun _ => "") (addFilter qb tagsNotStudioFilter))).
Proof.
  intros qb.
  apply (executed_statements_bind_every_placeholder
           (fun _ _ => (3%Z, None)) (fun _ _ => ([1; 2; 3]%Z, None)) (fun _ => "")
           qb tagsNotStudioFilter); reflexivity.
Defined.

(** ** Criterion handlers keep clauses and arguments in step *)

Lemma append_cons_nonempty (a : string) (c : ascii) (b : string) :
  a ++ String c b <> "".
Proof. intros H. apply append_eq_empty in H. destruct H as [_ H]. discriminate. Qed.

Lemma addsAtMostOne_refl (f : filterBuilder) : addsAtMostOneBalancedClause f f.
Proof.
  repeat split. exists []. rewrite app_nil_r. repeat split; auto.
Qed.

Lemma addsAtMostOne_setError (f : filterBuilder) (e : error) :
  addsAtMostOneBalancedClause f (setError f e).
Proof.
  unfold setError. destruct (err f); [apply addsAtMostOne_refl|].
  repeat split. exists []. cbn. rewrite app_nil_r. repeat split; auto. congruence.
Qed.

Lemma addsAtMostOne_addWhere (f : filterBuilder) (text : string) (a : list arg) :
  placeholders text = List.length a ->
  addsAtMostOneBalancedClause f (addWhere f text a).
Proof.
  intros Hb. unfold addWhere. destruct (text =? ""); [apply addsAtMostOne_refl|].
  repeat split. exists [makeClause text a]. cbn. repeat split; auto.
  unfold balancedClause. cbn. now rewrite Hb, Nat.eqb_refl.
Qed.

Lemma getSearchBinding_balanced (column q : string) (not : bool) :
  placeholders column = 0 ->
  placeholders (fst (getSearchBinding [column] q not))
  = List.length (snd (getSearchBinding [column] q not)).
Proof.
  intros Hcol. unfold getSearchBinding.
  set (notStr := if not then " NOT" else "").
  set (binaryType := if not then " AND " else " OR ").
  assert (Hsep : placeholders binaryType = 0) by (unfold binaryType; now destruct not).
  assert (Hone : placeholders (column ++ notStr ++ " LIKE ?") = 1).
  { unfold notStr. rewrite !placeholders_app, Hcol. now destruct not. }
  destruct (Trim q quoteStr =? q); cbn [fst snd].
  - rewrite !placeholders_app, (placeholders_Join _ _ Hsep). simpl placeholders.
    induction (Split q " "%char) as [|w ws IH]; [reflexivity|].
    cbn [flat_map map app list_sum List.length] in *.
    change (list_sum ?l) with (fold_right plus 0 l) in *. cbn [fold_right] in *.
    rewrite Hone. lia.
  - rewrite !placeholders_app, (placeholders_Join _ _ Hsep). cbn [map list_sum List.length].
    change (list_sum ?l) with (fold_right plus 0 l). cbn [fold_right].
    rewrite Hone. simpl. lia.
Qed.

Section StringCriterionBalance.

Variable regexp_Compile : string -> option error.

(** X11. Whatever the modifier, the value and the outcome of the regular
    expression check, [stringCriterionHandler] leaves the joins, the having
    clauses and the sub-filter of the node alone and appends at most one
    where clause; when the column name holds no placeholder that clause
    binds exactly as many arguments as it has placeholders.  A nil
    criterion and an invalid modifier leave the node as it is. *)
Theorem stringCriterionHandler_adds_at_most_one_balanced_clause :
  forall (c : option StringCriterionInput) (column : string) (f : filterBuilder),
    placeholders column = 0 ->
    addsAtMostOneBalancedClause f (stringCriterionHandler regexp_Compile c column f) /\
    (c = None -> stringCriterionHandler regexp_Compile c column f = f) /\
    (forall v s,
        c = Some (mkStringCriterionInput v (CriterionModifierOther s)) ->
        stringCriterionHandler regexp_Compile c column f = f).
Proof.
  intros c column f Hcol. split; [|split].
  - destruct c as [[v m]|]; [|apply addsAtMostOne_refl].
    unfold stringCriterionHandler. cbn [sci_Modifier sci_Value].
    pose proof (getSearchBinding_balanced column v false Hcol) as Hinc.
    pose proof (getSearchBinding_balanced column v true Hcol) as Hexc.
    destruct m; cbn [IsValid getSimpleCriterionClause CriterionModifier_String];
      try apply addsAtMostOne_refl;
      try (destruct (regexp_Compile v); [apply addsAtMostOne_setError|]);
      try (destruct (getSearchBinding [column] v false) as [t a]);
      try (destruct (getSearchBinding [column] v true) as [t' a']);
      cbn; apply addsAtMostOne_addWhere;
      rewrite ?placeholders_app, ?Hcol; cbn; auto.
  - now intros ->.
  - intros v s ->. reflexivity.
Qed.

End StringCriterionBalance.

Lemma stringCriterionHandler_adds_at_most_one_balanced_clause_witness :
  let c := Some (mkStringCriterionInput "blue sky" CriterionModifierIncludes) in
  addsAtMostOneBalancedClause emptyFilter
    (stringCriterionHandler parenCompile c "scenes.title" emptyFilter).
Proof.
  intros c.
  exact (proj1 (stringCriterionHandler_adds_at_most_one_balanced_clause parenCompile c
                  "scenes.title" emptyFilter eq_refl)).
Defined.

Lemma qb_addWhere_text (qb : queryBuilder) (text : string) :
  text <> "" ->
  qb_addWhere qb [text]
  = mkQueryBuilder (qb_repository qb) (qb_body qb) (qb_joins qb)
      (qb_whereClauses qb ++ [text])%list (qb_havingClauses qb) (qb_args qb)
      (qb_sortAndPagination qb) (qb_err qb).
Proof. intros H. unfold qb_addWhere. destruct text; [congruence | reflexivity]. Qed.

(** X12. An integer criterion is never dropped: for every modifier,
    recognised or not, [intCriterionHandler] appends exactly one where
    clause, binding the value for every modifier but IS_NULL and NOT_NULL,
    and an unrecognised modifier is compiled as equality with the value.
    With a placeholder-free column the clause is balanced.  The query
    builder's own [handleIntCriterionInput] adds the same text and the same
    arguments. *)
Theorem intCriterion_always_compiles_to_one_clause :
  forall (c : IntCriterionInput) (column : string) (f : filterBuilder) (qb : queryBuilder),
    exists (text : string) (a : list arg),
      intCriterionHandler (Some c) column f
        = mkFilterBuilder (subFilter f) (subFilterOp f) (fjoins f)
            (whereClauses f ++ [makeClause text a])%list (havingClauses f) (err f) /\
      qb_whereClauses (handleIntCriterionInput qb (Some c) column)
        = (qb_whereClauses qb ++ [text])%list /\
      qb_args (handleIntCriterionInput qb (Some c) column) = (qb_args qb ++ a)%list /\
      (a = [ArgInt (ici_Value c)]
       \/ a = [] /\ (ici_Modifier c = CriterionModifierIsNull
                     \/ ici_Modifier c = CriterionModifierNotNull)) /\
      (placeholders column = 0 -> placeholders text = List.length a) /\
      (IsValid (ici_Modifier c) = false ->
       text = column ++ " = ?" /\ a = [ArgInt (ici_Value c)]).
Proof.
  intros [v m] column f qb.
  unfold intCriterionHandler, handleIntCriterionInput, getIntCriterionWhereClause.
  cbn [ici_Value ici_Modifier].
  destruct m;
    match goal with
    | |- context [getCriterionModifierBinding ?m ?x] =>
        let b := eval vm_compute in (getCriterionModifierBinding m x) in
        change (getCriterionModifierBinding m x) with b
    end;
    cbn -[addWhere qb_addWhere qb_addArg];
    match goal with
    | |- context [addWhere f (column ++ String ?ch ?rest) ?args] =>
        exists (column ++ String ch rest), args;
        rewrite (addWhere_text f _ args (append_cons_nonempty column ch rest)),
                (qb_addWhere_text qb _ (append_cons_nonempty column ch rest))
    end;
    cbn [Nat.eqb];
    (split; [reflexivity|]); (split; [reflexivity|]);
    (split; [cbn; now rewrite ?app_nil_r|]);
    (split; [auto|]);
    (split; [intros Hcol; rewrite placeholders_app, Hcol; reflexivity|]);
    cbn; intros; try discriminate; auto.
Qed.

Lemma intCriterion_always_compiles_to_one_clause_witness :
  let c := mkIntCriterionInput 3 (CriterionModifierOther "BETWEEN") in
  exists (text : string) (a : list arg),
    whereClauses (intCriterionHandler (Some c) "scenes.rating" emptyFilter)
    = [makeClause text a] /\
    text = "scenes.rating = ?" /\ a = [ArgInt 3] /\
    placeholders text = List.length a.
Proof.
  intros c.
  destruct (intCriterion_always_compiles_to_one_clause c "scenes.rating" emptyFilter
              (newQuery (mkRepository "scenes" "id")))
    as [text [a [Hf [_ [_ [_ [Hbal Hinv]]]]]]].
  exists text, a. rewrite Hf.
  destruct (Hinv eq_refl) as [Ht Ha].
  split; [reflexivity|]. split; [exact Ht|]. split; [exact Ha|].
  exact (Hbal eq_refl).
Defined.

Lemma getSearchBinding_nonempty (columns : list string) (q : string) (not : bool) :
  fst (getSearchBinding columns q not) <> "".
Proof.
  unfold getSearchBinding. destruct (Trim q quoteStr =? q); cbn; discriminate.
Qed.

Section StringCriterionPaths.

Variable regexp_Compile : string -> option error.

(** X13. The two ways of compiling a string criterion, through a filter
    node ([stringCriterionHandler]) and directly on the query builder
    ([handleStringCriterionInput]), add the same clause text and the same
    arguments for every valid modifier other than IS_NULL and NOT_NULL, and
    both add nothing and record the error when a regular expression does
    not compile.  For IS_NULL and NOT_NULL they differ: the filter node
    tests only for NULL, the query builder also for a string that is empty
    after trimming. *)
Theorem string_criterion_paths_agree_except_null_tests :
  forall (c : StringCriterionInput) (column : string) (f : filterBuilder)
         (qb : queryBuilder),
    let f' := stringCriterionHandler regexp_Compile (Some c) column f in
    let qb' := handleStringCriterionInput regexp_Compile qb (Some c) column in
    (IsValid (sci_Modifier c) = true ->
     sci_Modifier c <> CriterionModifierIsNull ->
     sci_Modifier c <> CriterionModifierNotNull ->
     (exists (text : string) (a : list arg),
         whereClauses f' = (whereClauses f ++ [makeClause text a])%list /\
         qb_whereClauses qb' = (qb_whereClauses qb ++ [text])%list /\
         qb_args qb' = (qb_args qb ++ a)%list /\
         err f' = err f /\ qb_err qb' = qb_err qb)
     \/
     (exists e : error,
         regexp_Compile (sci_Value c) = Some e /\
         whereClauses f' = whereClauses f /\
         qb_whereClauses qb' = qb_whereClauses qb /\
         qb_args qb' = qb_args qb /\
         err f' = Some (orElse (err f) e) /\ qb_err qb' = Some e)) /\
    (sci_Modifier c = CriterionModifierIsNull ->
     whereClauses f'
     = (whereClauses f ++ [makeClause (column ++ " IS NULL")%string []])%list /\
     qb_whereClauses qb'
     = (qb_whereClauses qb
          ++ [("(" ++ column ++ " IS NULL OR TRIM(" ++ column ++ ") = '')")%string])%list) /\
    (sci_Modifier c = CriterionModifierNotNull ->
     whereClauses f'
     = (whereClauses f ++ [makeClause (column ++ " IS NOT NULL")%string []])%list /\
     qb_whereClauses qb'
     = (qb_whereClauses qb
          ++ [("(" ++ column ++ " IS NOT NULL AND TRIM(" ++ column ++ ") != '')")%string])%list).
Proof.
  intros [v m] column f qb. cbv zeta.
  unfold stringCriterionHandler, handleStringCriterionInput.
  cbn [sci_Modifier sci_Value].
  assert (Herr : forall e, err (setError f e) = Some (orElse (err f) e)
                           /\ whereClauses (setError f e) = whereClauses f).
  { intros e. unfold setError. destruct (err f) eqn:E; cbn; rewrite ?E; split; reflexivity. }
  pose proof (getSearchBinding_nonempty [column] v false) as Hinc.
  pose proof (getSearchBinding_nonempty [column] v true) as Hexc.
  split; [|split].
  - intros Hvalid Hn1 Hn2.
    destruct m; try discriminate; try congruence;
      cbn [IsValid getSimpleCriterionClause CriterionModifier_String];
      try (match goal with
           | |- context [regexp_Compile v] =>
               destruct (regexp_Compile v) as [e|] eqn:Ere;
               [ right; exists e; destruct (Herr e) as [H1 H2];
                 repeat split; solve [auto]
               | ]
           end);
      try (destruct (getSearchBinding [column] v false) as [t a]; cbn [fst] in Hinc);
      try (destruct (getSearchBinding [column] v true) as [t' a']; cbn [fst] in Hexc);
      cbn -[addWhere qb_addWhere qb_addArg];
      left;
      match goal with
      | |- context [addWhere f (column ++ String ?ch ?rest) ?args] =>
          exists (column ++ String ch rest), args;
          rewrite (addWhere_text f _ args (append_cons_nonempty column ch rest)),
                  (qb_addWhere_text qb _ (append_cons_nonempty column ch rest))
      | |- context [addWhere f ?t ?args] =>
          exists t, args;
          rewrite (addWhere_text f t args ltac:(assumption)),
                  (qb_addWhere_text qb t ltac:(assumption))
      end;
      repeat split.
  - intros ->. cbn -[addWhere qb_addWhere].
    rewrite (addWhere_text f _ [] (append_cons_nonempty column _ _)).
    rewrite qb_addWhere_text by discriminate. split; reflexivity.
  - intros ->. cbn -[addWhere qb_addWhere].
    rewrite (addWhere_text f _ [] (append_cons_nonempty column _ _)).
    rewrite qb_addWhere_text by discriminate. split; reflexivity.
Qed.

End StringCriterionPaths.

Lemma string_criterion_paths_agree_except_null_tests_witness :
  let c := mkStringCriterionInput "" CriterionModifierIsNull in
  whereClauses (stringCriterionHandler parenCompile (Some c) "scenes.url" emptyFilter)
    = [makeClause "scenes.url IS NULL" []] /\
  qb_whereClauses
    (handleStringCriterionInput parenCompile (newQuery (mkRepository "scenes" "id"))
       (Some c) "scenes.url")
    = ["(scenes.url IS NULL OR TRIM(scenes.url) = '')"].
Proof.
  intros c.
  exact (proj1 (proj2 (string_criterion_paths_agree_except_null_tests parenCompile c
                         "scenes.url" emptyFilter (newQuery (mkRepository "scenes" "id"))))
           eq_refl).
Defined.

(** ** The multi-value handler *)

Lemma placeholders_getInBinding (n : nat) : placeholders (getInBinding n) = n.
Proof.
  destruct n as [|n]; [reflexivity|].
  unfold getInBinding. rewrite Repeat_placeholders_trimmed.
  simpl. rewrite placeholders_app, placeholders_Repeat. simpl. lia.
Qed.

Lemma placeholders_string_of_uint (d : Decimal.uint) :
  placeholders (NilEmpty.string_of_uint d) = 0.
Proof. induction d; simpl; auto. Qed.

Lemma placeholders_Itoa (n : nat) : placeholders (Itoa n) = 0.
Proof. apply placeholders_string_of_uint. Qed.

Lemma addHaving_text (f : filterBuilder) (text : string) (a : list arg) :
  text <> "" ->
  addHaving f text a
  = mkFilterBuilder (subFilter f) (subFilterOp f) (fjoins f)
      (whereClauses f) (havingClauses f ++ [makeClause text a])%list (err f).
Proof. intros H. unfold addHaving. apply String.eqb_neq in H. now rewrite H. Qed.

(** A text with a literal piece in it is not empty. *)
Ltac nonempty_text :=
  let H := fresh in
  intros H;
  repeat (first [discriminate H | apply append_eq_empty in H; destruct H as [_ H]]).

(** X14. What the multi-value handler adds, relative to the node as the
    joins function left it.  With no value it does nothing at all: the
    joins function is not even called.  With values, INCLUDES and EXCLUDES
    add one where clause and no having clause; INCLUDES_ALL adds one where
    clause and the having clause that requires as many distinct foreign
    ids as there are values; every other modifier adds no clause, although
    the joins function has run.  When the identifiers hold no placeholder
    each added where clause has exactly one placeholder per value, and the
    values are its arguments; the having clause binds nothing. *)
Theorem multi_handler_clauses :
  forall (m : multiCriterionHandlerBuilder) (c : MultiCriterionInput) (f : filterBuilder),
    let f' := multi_handler m (Some c) f in
    let joined := match addJoinsFunc m with Some addJoins => addJoins f | None => f end in
    let n := List.length (mci_Value c) in
    (mci_Value c = [] -> f' = f) /\
    (mci_Value c <> [] ->
     (multiSupported (mci_Modifier c) = false ->
      whereClauses f' = whereClauses joined /\ havingClauses f' = havingClauses joined) /\
     (multiSupported (mci_Modifier c) = true ->
      exists text : string,
        whereClauses f'
        = (whereClauses joined ++ [makeClause text (map ArgString (mci_Value c))])%list /\
        (cleanHandler m = true -> placeholders text = n) /\
        havingClauses f'
        = (havingClauses joined
             ++ match mci_Modifier c with
                | CriterionModifierIncludesAll =>
                    [makeClause ("count(distinct " ++ foreignTable m ++ ".id) IS "
                                   ++ Itoa n)%string []]
                | _ => []
                end)%list) /\
     fjoins f' = fjoins joined /\ subFilter f' = subFilter joined /\ err f' = err joined).
Proof.
  intros m [vals md] f. cbv zeta. cbn [mci_Value mci_Modifier].
  split.
  - intros ->. reflexivity.
  - intros Hne. destruct vals as [|v vs]; [congruence|].
    unfold multi_handler. cbn [mci_Value mci_Modifier].
    change (0 <? List.length (v :: vs))%nat with true. cbv iota.
    set (joined := match addJoinsFunc m with Some addJoins => addJoins f | None => f end).
    set (n := List.length (v :: vs)).
    assert (Hin : forall t : string, placeholders t = 0 ->
              placeholders (t ++ ".id IN " ++ getInBinding n) = n).
    { intros t Ht. rewrite !placeholders_app, Ht, placeholders_getInBinding.
      reflexivity. }
    unfold getMultiCriterionClause. cbn [mci_Modifier mci_Value]. fold n.
    assert (Hclean5 : cleanHandler m = true ->
              placeholders (primaryTable m) = 0 /\ placeholders (foreignTable m) = 0 /\
              placeholders (joinTable m) = 0 /\ placeholders (primaryFK m) = 0 /\
              placeholders (foreignFK m) = 0).
    { unfold cleanHandler. intros H. apply Nat.eqb_eq in H. lia. }
    destruct md; cbn [multiSupported];
      try solve [repeat split; intros; try discriminate; reflexivity].
    + (* INCLUDES_ALL *)
      rewrite addHaving_text by discriminate.
      rewrite addWhere_text by nonempty_text.
      cbn [whereClauses havingClauses fjoins subFilter err].
      split; [discriminate|]. split; [|repeat split]. intros _.
      exists (foreignTable m ++ ".id IN " ++ getInBinding n).
      repeat split. intros Hclean. apply Hin. now apply Hclean5.
    + (* INCLUDES *)
      rewrite addHaving_empty.
      rewrite addWhere_text by nonempty_text.
      cbn [whereClauses havingClauses fjoins subFilter err].
      split; [discriminate|]. split; [|repeat split]. intros _.
      exists (foreignTable m ++ ".id IN " ++ getInBinding n).
      rewrite app_nil_r. repeat split. intros Hclean. apply Hin. now apply Hclean5.
    + (* EXCLUDES *)
      destruct (joinTable m =? "") eqn:Ej; cbn [negb]; cbv iota;
        rewrite addHaving_empty, addWhere_text by discriminate;
        cbn [whereClauses havingClauses fjoins subFilter err];
        (split; [discriminate|]); (split; [|repeat split]); intros _;
        eexists; (split; [reflexivity|]); (split; [|now rewrite app_nil_r]);
        intros Hclean; destruct (Hclean5 Hclean) as [H1 [H2 [H3 [H4 H5]]]];
        pose proof (placeholders_getInBinding n) as Hg;
        rewrite ?placeholders_app, Hg, ?H1, ?H2, ?H3, ?H4, ?H5;
        cbn; lia.
Qed.

Lemma multi_handler_clauses_witness :
  let c := mkMultiCriterionInput ["5"; "7"] CriterionModifierIncludesAll in
  let f' := multi_handler tagsHandler (Some c) emptyFilter in
  whereClauses f' = [makeClause "tags.id IN (?, ?)" [ArgString "5"; ArgString "7"]] /\
  havingClauses f' = [makeClause "count(distinct tags.id) IS 2" []].
Proof.
  intros c f'.
  destruct (proj2 (multi_handler_clauses tagsHandler c emptyFilter)
              ltac:(discriminate)) as [_ [H _]].
  destruct (H eq_refl) as [text [Hw [_ Hh]]].
  split; [|exact Hh].
  vm_compute. reflexivity.
Defined.

(* ================================================================== *)
(** * Part VI. Package manager: further properties *)
(* ================================================================== *)

Section ScanPasses.

Variable Store : Type.
Variable repo : Repository Store.
Variable env : Env.

(** X15. A path that has no record and is a directory is ignored by all
    three passes: after the lookup and the stat nothing is hashed, probed,
    logged or written, and the scene pass returns no scene. *)
Theorem scan_pass_ignores_directory (t : ScanTask) (st : Store) :
  fst (utils_DirExists env (FilePath t)) = true ->
  (Gallery_FindByPath repo st (FilePath t) = (None, None) ->
   snd (os_Stat env (FilePath t)) = None ->
   run (scanGallery repo env t) st = (tt, st, [EvReadTxn])) /\
  (Scene_FindByPath repo st (FilePath t) = (None, None) ->
   snd (os_Stat env (FilePath t)) = None ->
   run (scanScene repo env t) st = (None, st, [EvReadTxn])) /\
  (Image_FindByPath repo st (FilePath t) = (None, None) ->
   snd (image_GetFileModTime env (FilePath t)) = None ->
   run (scanImage repo env t) st = (tt, st, [EvReadTxn])).
Proof.
  intros Hdir.
  destruct (utils_DirExists env (FilePath t)) as [isDir e0] eqn:Edir.
  simpl in Hdir. subst isDir.
  split; [|split]; intros Hfind Hstat.
  - unfold scanGallery, getFileModTime.
    destruct (os_Stat env (FilePath t)) as [mt e]. simpl in Hstat. subst e.
    pass_step. rewrite Hfind. pass_step. rewrite Edir. reflexivity.
  - unfold scanScene, getFileModTime.
    destruct (os_Stat env (FilePath t)) as [mt e]. simpl in Hstat. subst e.
    pass_step. rewrite Hfind. pass_step. rewrite Edir. reflexivity.
  - unfold scanImage.
    destruct (image_GetFileModTime env (FilePath t)) as [mt e]. simpl in Hstat. subst e.
    pass_step. rewrite Hfind. pass_step. rewrite Edir. reflexivity.
Qed.

(** X16. A pass whose lookup by path or whose stat fails logs the error
    and ends: it opens no write transaction, starts no sub-task, checks no
    thumbnail or screenshot, and the catalog is left as it was.  For the
    scene and gallery passes the stat error is wrapped in a message naming
    the path; the image pass logs it as it is. *)
Theorem failed_lookup_or_stat_ends_pass (t : ScanTask) (st : Store) (e : error) :
  (Gallery_FindByPath repo st (FilePath t) = (None, Some e) ->
   run (scanGallery repo env t) st = (tt, st, [EvReadTxn; EvLog Error e])) /\
  (forall s : option Scene,
      Scene_FindByPath repo st (FilePath t) = (s, Some e) ->
      run (scanScene repo env t) st = (None, st, [EvReadTxn; EvLog Error e])) /\
  (forall i : option Image,
      Image_FindByPath repo st (FilePath t) = (i, Some e) ->
      run (scanImage repo env t) st = (tt, st, [EvReadTxn; EvLog Error e])) /\
  (forall g : option Gallery,
      Gallery_FindByPath repo st (FilePath t) = (g, None) ->
      snd (os_Stat env (FilePath t)) = Some e ->
      run (scanGallery repo env t) st
      = (tt, st, [EvReadTxn;
                  EvLog Error ("error performing stat on " ++ FilePath t ++ ": " ++ e)])) /\
  (forall s : option Scene,
      Scene_FindByPath repo st (FilePath t) = (s, None) ->
      snd (os_Stat env (FilePath t)) = Some e ->
      run (scanScene repo env t) st
      = (None, st, [EvReadTxn;
                    EvLog Error ("error performing stat on " ++ FilePath t ++ ": " ++ e)])) /\
  (forall i : option Image,
      Image_FindByPath repo st (FilePath t) = (i, None) ->
      snd (image_GetFileModTime env (FilePath t)) = Some e ->
      run (scanImage repo env t) st = (tt, st, [EvReadTxn; EvLog Error e])).
Proof.
  repeat split.
  - intros Hfind. unfold scanGallery. pass_step. rewrite Hfind. reflexivity.
  - intros s Hfind. unfold scanScene. pass_step. rewrite Hfind. reflexivity.
  - intros i Hfind. unfold scanImage. pass_step. rewrite Hfind. reflexivity.
  - intros g Hfind Hstat. unfold scanGallery, getFileModTime.
    destruct (os_Stat env (FilePath t)) as [mt e1]. simpl in Hstat. subst e1.
    pass_step. rewrite Hfind. destruct g; reflexivity.
  - intros s Hfind Hstat. unfold scanScene, getFileModTime.
    destruct (os_Stat env (FilePath t)) as [mt e1]. simpl in Hstat. subst e1.
    pass_step. rewrite Hfind. reflexivity.
  - intros i Hfind Hstat. unfold scanImage.
    destruct (image_GetFileModTime env (FilePath t)) as [mt e1]. simpl in Hstat. subst e1.
    pass_step. rewrite Hfind. reflexivity.
Qed.

(** Case analysis of a pass: unfold the monad and split on the innermost
    scrutinee until the trace is explicit. *)
Ltac explore_pass :=
  repeat (pass_step;
          match goal with
          | |- context [match ?x with _ => _ end] =>
              lazymatch x with
              | context [match _ with _ => _ end] => fail
              | _ => destruct x eqn:?
              end
          end).

(** X17. A file that has no record, is not a directory, can be probed and
    hashed, and whose hashes match no record: the pass opens exactly one
    write transaction, whose only write creates a record with the file's
    path, the modification time truncated to seconds, the oshash, and the
    MD5 checksum when one was calculated (the naming algorithm is MD5 or
    MD5 calculation is on) and an unset checksum otherwise.  Screenshots
    are made under the hash of the task's naming algorithm.  When the
    creation succeeds the pass returns the stored record; when it fails the
    pass returns no scene, logs the error and leaves the catalog as it
    was. *)
Theorem scanScene_new_file_creates_record (t : ScanTask) (st : Store) (mt : Time)
    (vf : VideoFile) (oshash checksum : string) :
  Scene_FindByPath repo st (FilePath t) = (None, None) ->
  os_Stat env (FilePath t) = (mt, None) ->
  fst (utils_DirExists env (FilePath t)) = false ->
  ffmpeg_NewVideoFile env (FilePath t) (StripFileExtension t) = inl vf ->
  utils_OSHashFromFilePath env (FilePath t) = (oshash, None) ->
  (if isMd5 (fileNamingAlgorithm t) || calculateMD5 t
   then utils_MD5FromFilePath env (FilePath t) = (checksum, None)
   else checksum = "") ->
  findSceneByHashes repo st checksum oshash = None ->
  let vf' := if negb (UseFileMetadata t)
             then SetTitleFromPath env vf (FilePath t) (StripFileExtension t) else vf in
  let tr := snd (run (scanScene repo env t) st) in
  exists newScene : Scene,
    writeTxns tr = 1 /\ writes tr = [WSceneCreate newScene] /\
    sc_Path newScene = FilePath t /\
    sc_FileModTime newScene = mkNullSQLiteTimestamp (Truncate_Second mt) true /\
    sc_OSHash newScene = mkNullString oshash (negb (oshash =? "")) /\
    sc_Checksum newScene = mkNullString checksum (negb (checksum =? "")) /\
    sc_Title newScene = mkNullString (vf_Title vf') true /\
    In (EvMakeScreenshots (Some vf')
          (if isMd5 (fileNamingAlgorithm t) then checksum else oshash)) tr /\
    match Scene_Create repo st newScene with
    | (st1, inl s) => fst (run (scanScene repo env t) st) = (Some s, st1)
    | (_, inr e) =>
        fst (run (scanScene repo env t) st) = (None, st) /\ In (EvLog Error e) tr
    end.
Proof.
  intros Hfind Hstat Hdir Hprobe Hos Hmd5 Hmatch vf'.
  unfold scanScene, getFileModTime, calculateChecksum.
  rewrite Hprobe, Hos, Hstat.
  destruct (utils_DirExists env (FilePath t)) as [isDir e]. simpl in Hdir. subst isDir.
  fold vf'.
  destruct (isMd5 (fileNamingAlgorithm t) || calculateMD5 t);
    [rewrite Hmd5 | subst checksum];
    pass_step; rewrite Hfind; pass_step; rewrite Hmatch; pass_step;
    eexists;
    match goal with
    | |- context [Scene_Create repo st ?n] =>
        destruct (Scene_Create repo st n) as [st1 [s'|e1]] eqn:Ecreate
    end;
    (split; [reflexivity|]); (split; [reflexivity|]);
    cbn [sc_Path sc_FileModTime sc_OSHash sc_Checksum sc_Title];
    rewrite ?Ecreate;
    repeat (split; [reflexivity|]);
    (split; [cbv [In]; tauto|]);
    try reflexivity;
    (split; [reflexivity | cbv [In]; tauto]).
Qed.

(** X18. The scene pass returns a scene only when it has just created its
    record: whatever the catalog and the file system answer, a returned
    scene is the record stored by the single write of the pass, the
    creation of a record for the task's path.  An existing record, a
    duplicate and a moved file all return nil, so the caller generates
    sprites and previews for new records only. *)
Theorem scanScene_returns_only_created_scene (t : ScanTask) (st : Store) (s : Scene) :
  fst (fst (run (scanScene repo env t) st)) = Some s ->
  exists newScene : Scene,
    writes (snd (run (scanScene repo env t) st)) = [WSceneCreate newScene] /\
    sc_Path newScene = FilePath t /\
    Scene_Create repo st newScene = (snd (fst (run (scanScene repo env t) st)), inl s).
Proof.
  unfold scanScene, rescanScene, getFileModTime, calculateChecksum.
  explore_pass; cbn [fst snd]; intros Hret; try discriminate Hret;
    eexists; (split; [reflexivity|]); (split; [reflexivity|]);
    match goal with
    | H : Scene_Create repo st _ = _ |- _ => rewrite H
    end; congruence.
Qed.

Ltac rescan_tail :=
  match goal with
  | |- context [ffmpeg_NewVideoFile ?env ?p ?b] =>
      destruct (ffmpeg_NewVideoFile env p b) as [vf|e]; [|cbv; auto]
  end;
  pass_step;
  match goal with
  | |- context [Scene_Update ?repo ?st ?p] =>
      let E := fresh "Eupd" in
      destruct (Scene_Update repo st p) as [st1 [s'|e1]] eqn:E;
      cbn [fst snd];
      (split; [cbv; lia|]);
      (split; [right; eexists; repeat split; reflexivity|]);
      [eexists; split; [reflexivity | exact E] | reflexivity]
  end.

(** X19. Rescanning a modified scene file, whatever the tools and the
    catalog answer: at most one write transaction is opened and its only
    write updates the scene's own record, by id, with the new oshash and
    the new modification time; the path is never touched, and the MD5
    checksum is touched only when MD5 calculation is on.  The call returns
    either the updated record, as stored, or an error, in which case the
    catalog is left as it was. *)
Theorem rescanScene_updates_own_record_once (t : ScanTask) (s : Scene)
    (fileModTime : Time) (st : Store) :
  let result := fst (fst (run (rescanScene repo env t s fileModTime) st)) in
  let st' := snd (fst (run (rescanScene repo env t s fileModTime) st)) in
  let tr := snd (run (rescanScene repo env t s fileModTime) st) in
  writeTxns tr <= 1 /\
  (writes tr = [] \/
   exists p : ScenePartial,
     writes tr = [WSceneUpdate p] /\ sp_ID p = sc_ID s /\ sp_Path p = None /\
     sp_FileModTime p = Some (mkNullSQLiteTimestamp fileModTime true) /\
     sp_OSHash p
     = Some (mkNullString (fst (utils_OSHashFromFilePath env (FilePath t))) true) /\
     sp_Checksum p
     = (if calculateMD5 t
        then Some (mkNullString (fst (utils_MD5FromFilePath env (FilePath t))) true)
        else None)) /\
  match result with
  | (Some s', None) =>
      exists p : ScenePartial,
        writes tr = [WSceneUpdate p] /\ Scene_Update repo st p = (st', inl s')
  | (None, Some _) => st' = st
  | _ => False
  end.
Proof.
  unfold rescanScene, calculateChecksum.
  destruct (utils_OSHashFromFilePath env (FilePath t)) as [oshash [e|]];
    [cbv; auto|].
  destruct (calculateMD5 t).
  - destruct (utils_MD5FromFilePath env (FilePath t)) as [cs [e|]]; [cbv; auto|].
    rescan_tail.
  - rescan_tail.
Qed.

(** X20. Rescanning a modified image file, whatever the tools and the
    catalog answer.  On success the only write of the call updates the
    image's own record, by id, with the new checksum and modification time
    and without touching the path, and the old thumbnail is removed
    exactly when the checksum changed.  On failure the catalog is left as
    it was and no thumbnail is removed. *)
Theorem rescanImage_updates_own_record_once (t : ScanTask) (i : Image)
    (fileModTime : Time) (st : Store) :
  let result := fst (fst (run (rescanImage repo env t i fileModTime) st)) in
  let st' := snd (fst (run (rescanImage repo env t i fileModTime) st)) in
  let tr := snd (run (rescanImage repo env t i fileModTime) st) in
  writeTxns tr <= 1 /\
  match result with
  | (Some i', None) =>
      let checksum := fst (image_CalculateMD5 env (FilePath t)) in
      (exists p : ImagePartial,
          writes tr = [WImageUpdate p] /\ ip_ID p = im_ID i /\ ip_Path p = None /\
          ip_Checksum p = Some checksum /\
          ip_FileModTime p = Some (mkNullSQLiteTimestamp fileModTime true) /\
          Image_Update repo st p = (st', inl i')) /\
      (In (EvRemoveThumbnail (im_Checksum i)) tr <-> im_Checksum i <> checksum) /\
      (forall c : string, In (EvRemoveThumbnail c) tr -> c = im_Checksum i)
  | (None, Some _) =>
      st' = st /\ forall c : string, ~ In (EvRemoveThumbnail c) tr
  | _ => False
  end.
Proof.
  unfold rescanImage, calculateImageChecksum.
  destruct (image_CalculateMD5 env (FilePath t)) as [checksum [e|]].
  { cbv. split; [lia|]. split; [reflexivity|]. intros c H. intuition discriminate. }
  destruct (image_GetFileDetails env (FilePath t)) as [fd|e].
  2:{ cbv. split; [lia|]. split; [reflexivity|]. intros c H. intuition discriminate. }
  pass_step.
  match goal with
  | |- context [Image_Update repo st ?p] =>
      destruct (Image_Update repo st p) as [st1 [i'|e1]] eqn:Eupd
  end; cbn [fst snd].
  - destruct (String.eqb_spec (im_Checksum i) checksum) as [Heq|Hne];
      pass_step; cbn [fst snd]; (split; [cbv; lia|]);
      (split; [eexists; repeat split; try reflexivity; exact Eupd|]).
    + split.
      * split; [|intros H; contradiction].
        intros H. cbv [In] in H. intuition discriminate.
      * intros c H. cbv [In] in H. intuition discriminate.
    + split.
      * split; [intros _; exact Hne|]. intros _. cbv [In]. tauto.
      * intros c H. cbv [In] in H.
        repeat (destruct H as [H|H]; try discriminate H); [now inversion H | contradiction].
  - split; [cbv; lia|]. split; [reflexivity|].
    intros c H. cbv [In] in H. intuition discriminate.
Qed.

(** X21. Filling in a missing hash of an existing, unchanged scene.  When
    the oshash is missing and the file's oshash already belongs to a record,
    the pass writes nothing, logs the clash and ends, without going on to
    the MD5 checksum; when it belongs to no record the first write of the
    pass sets it on the scene's own record.  With the oshash present, MD5
    calculation on and the checksum missing, a checksum that belongs to a
    record is refused in the same way, and one that belongs to none is set
    by the only write of the pass. *)
Theorem scanScene_fills_missing_hash_unless_taken (t : ScanTask) (st : Store)
    (s : Scene) (mt : Time) :
  Scene_FindByPath repo st (FilePath t) = (Some s, None) ->
  os_Stat env (FilePath t) = (mt, None) ->
  Valid (sc_FileModTime s) = true ->
  Timestamp (sc_FileModTime s) = Truncate_Second mt ->
  NValid (sc_Size s) = true ->
  NValid (sc_Format s) = true ->
  let tr := snd (run (scanScene repo env t) st) in
  (forall oshash : string,
      NValid (sc_OSHash s) = false ->
      utils_OSHashFromFilePath env (FilePath t) = (oshash, None) ->
      match fst (Scene_FindByOSHash repo st oshash) with
      | Some dupe =>
          run (scanScene repo env t) st
          = (None, st,
             [EvReadTxn;
              EvMakeScreenshots None (Scene_GetHash env s (fileNamingAlgorithm t));
              EvLog Info ("Calculating oshash for existing file " ++ FilePath t ++ " ...");
              EvWriteTxn;
              EvLog Error ("OSHash for file " ++ FilePath t
                             ++ " is the same as that of " ++ sc_Path dupe)])
      | None => hd_error (writes tr) = Some (WSceneUpdateOSHash (sc_ID s) oshash)
      end) /\
  (forall checksum : string,
      NValid (sc_OSHash s) = true ->
      calculateMD5 t = true ->
      NValid (sc_Checksum s) = false ->
      utils_MD5FromFilePath env (FilePath t) = (checksum, None) ->
      writeTxns tr = 1 /\
      match fst (Scene_FindByChecksum repo st checksum) with
      | Some dupe =>
          writes tr = [] /\ snd (fst (run (scanScene repo env t) st)) = st /\
          In (EvLog Error ("MD5 for file " ++ FilePath t
                             ++ " is the same as that of " ++ sc_Path dupe)) tr
      | None => writes tr = [WSceneUpdateChecksum (sc_ID s) checksum]
      end).
Proof.
  intros Hfind Hstat Hvalid Htime Hsize Hformat tr. subst tr. split.
  - intros oshash Hno Hos.
    unfold scanScene, getFileModTime, calculateChecksum. pass_step.
    rewrite Hfind, Hstat. pass_step. rewrite Hvalid. pass_step.
    rewrite (isFileModified_same _ _ Htime), Hsize. pass_step.
    rewrite Hformat, Hno. pass_step. rewrite Hos. pass_step.
    destruct (Scene_FindByOSHash repo st oshash) as [[dupe|] e0]; cbn [fst snd].
    + reflexivity.
    + explore_pass; reflexivity.
  - intros checksum Hos Hmd5 Hno Hsum.
    unfold scanScene, getFileModTime, calculateChecksum. pass_step.
    rewrite Hfind, Hstat. pass_step. rewrite Hvalid. pass_step.
    rewrite (isFileModified_same _ _ Htime), Hsize. pass_step.
    rewrite Hformat, Hos, Hmd5, Hno. pass_step. rewrite Hsum. pass_step.
    destruct (Scene_FindByChecksum repo st checksum) as [[dupe|] e0]; cbn [fst snd].
    + split; [reflexivity|]. split; [reflexivity|]. split; [reflexivity|].
      cbv [In]. tauto.
    + destruct (scene_UpdateChecksum repo st (sc_ID s) checksum) as [st1 [s'|e1]];
        split; reflexivity.
Qed.

(** *** Zip galleries *)






Lemma regenerateZipImages_events {R} (g : Gallery) (st : Store) :
  regenerateZipImages (R := R) repo g st
  = (inl tt,
     (st, EvReadTxn ::
          match Image_FindByGalleryID repo st (ga_ID g) with
          | (_, Some e) => [EvLog Warn ("failed to find gallery images: " ++ e)]
          | (images, None) => map EvGenerateThumbnail images
          end)).
Proof.
  unfold regenerateZipImages. pass_step.
  destruct (Image_FindByGalleryID repo st (ga_ID g)) as [images [e|]]; [reflexivity|].
  pose proof (forEach_emit _ (R := R) EvGenerateThumbnail images st) as H.
  unfold emit in H. rewrite H. reflexivity.
Qed.

Lemma filter_isSubTask_thumbnails (images : list Image) :
  filter isSubTask (map EvGenerateThumbnail images) = [].
Proof. induction images; simpl; auto. Qed.

Lemma writes_thumbnails (images : list Image) :
  writes (map EvGenerateThumbnail images) = [].
Proof. induction images; simpl; auto. Qed.

Lemma writes_app (a b : list Event) : writes (a ++ b) = (writes a ++ writes b)%list.
Proof.
  induction a as [|e a IH]; [reflexivity|].
  destruct e; simpl; rewrite IH; reflexivity.
Qed.

(** Evaluation of an explicit pass, leaving times and texts folded. *)
Ltac pass_eval :=
  cbv -[Truncate_Second append]; repeat split; try reflexivity; try tauto.


(** X23. A zip file that has no record at its path but whose checksum is
    that of a gallery in the catalog.  No record is created and no image
    sub-task is started in either case.  When the file at the matched
    gallery's path exists the pass writes nothing, logs the duplicate and
    leaves the catalog as it was; otherwise its only write stores the
    matched gallery with the new path and every other field as it was. *)
Theorem scanGallery_hash_match_moves_or_reports (t : ScanTask) (st : Store)
    (mt : Time) (checksum : string) (g0 : Gallery) :
  Gallery_FindByPath repo st (FilePath t) = (None, None) ->
  os_Stat env (FilePath t) = (mt, None) ->
  fst (utils_DirExists env (FilePath t)) = false ->
  utils_MD5FromFilePath env (FilePath t) = (checksum, None) ->
  fst (Gallery_FindByChecksum repo st checksum) = Some g0 ->
  let tr := snd (run (scanGallery repo env t) st) in
  let st' := snd (fst (run (scanGallery repo env t) st)) in
  writeTxns tr = 1 /\ filter isSubTask tr = [] /\
  if fst (utils_FileExists env (NString (ga_Path g0))) then
    writes tr = [] /\ st' = st /\
    In (EvLog Info (FilePath t ++ " already exists.  Duplicate of "
                      ++ NString (ga_Path g0) ++ " ")) tr
  else
    writes tr
    = [WGalleryUpdate
         (mkGallery (ga_ID g0) (ga_Checksum g0) (ga_Zip g0)
            (mkNullString (FilePath t) true) (ga_FileModTime g0)
            (ga_CreatedAt g0) (ga_UpdatedAt g0))].
Proof.
  intros Hfind Hstat Hdir Hsum Hmatch tr st'. subst tr st'.
  unfold scanGallery, getFileModTime, calculateChecksum.
  rewrite Hstat, Hsum.
  destruct (utils_DirExists env (FilePath t)) as [isDir e0]. simpl in Hdir. subst isDir.
  pass_step. rewrite Hfind. pass_step.
  destruct (Gallery_FindByChecksum repo st checksum) as [g e1]. simpl in Hmatch.
  subst g.
  destruct (utils_FileExists env (NString (ga_Path g0))) as [[|] e2]; cbn [fst].
  - pass_step. rewrite regenerateZipImages_events.
    destruct (Image_FindByGalleryID repo st (ga_ID g0)) as [images [e|]];
      cbn [fst snd app]; unfold writeTxns;
      cbn [filter isWriteTxn isSubTask writes List.length];
      rewrite ?filter_app, ?writes_app, ?filter_isSubTask_thumbnails, ?writes_thumbnails;
      (split; [|split; [|split; [|split]]]); try reflexivity;
      try (cbv [In]; tauto).
    induction images; simpl; auto.
  - match goal with
    | |- context [Gallery_Update repo st ?g1] =>
        destruct (Gallery_Update repo st g1) as [st1 [g2|e]]
    end.
    + pass_step. rewrite regenerateZipImages_events.
      destruct (Image_FindByGalleryID repo st1 (ga_ID g2)) as [images [e|]];
        cbn [fst snd app]; unfold writeTxns;
        cbn [filter isWriteTxn isSubTask writes List.length];
        rewrite ?filter_app, ?writes_app, ?filter_isSubTask_thumbnails, ?writes_thumbnails;
        (split; [|split]); try reflexivity.
      induction images; simpl; auto.
    + pass_eval.
Qed.


(** *** Images *)

(** X25. An image file that has no record, is not a directory and whose
    checksum matches no image: the first write of the pass creates a
    record with the file's path, checksum and modification time.  When the
    creation fails the error is logged, nothing else is written, no
    thumbnail is generated and the catalog is left as it was.  When it
    succeeds: for an entry of a zip gallery the stored image is added to
    that gallery, by a second transaction, and nothing else is written;
    for a plain file with folder galleries off the creation is the only
    write. *)
Theorem scanImage_new_file_creates_record (t : ScanTask) (st : Store) (mt : Time)
    (checksum : string) (newImage : Image) :
  Image_FindByPath repo st (FilePath t) = (None, None) ->
  image_GetFileModTime env (FilePath t) = (mt, None) ->
  fst (utils_DirExists env (FilePath t)) = false ->
  image_CalculateMD5 env (FilePath t) = (checksum, None) ->
  Image_FindByChecksum repo st checksum = (None, None) ->
  image_SetFileDetails env
    (mkImage 0%Z checksum (FilePath t) None None None
       (mkNullSQLiteTimestamp mt true) (time_Now env) (time_Now env))
  = (newImage, None) ->
  let tr := snd (run (scanImage repo env t) st) in
  let st' := snd (fst (run (scanImage repo env t) st)) in
  hd_error (writes tr) = Some (WImageCreate newImage) /\
  match Image_Create repo st newImage with
  | (st1, inl i) =>
      match zipGallery t with
      | Some zg =>
          writeTxns tr = 2 /\
          writes tr = [WImageCreate newImage; WGalleryAddImage (ga_ID zg) (im_ID i)]
      | None =>
          config_GetCreateGalleriesFromFolders env = false ->
          writeTxns tr = 1 /\ writes tr = [WImageCreate newImage] /\ st' = st1 /\
          filter isGenerateThumbnail tr = [EvGenerateThumbnail i]
      end
  | (_, inr e) =>
      writes tr = [WImageCreate newImage] /\ st' = st /\ In (EvLog Error e) tr /\
      filter isGenerateThumbnail tr = []
  end.
Proof.
  intros Hfind Hstat Hdir Hsum Hmatch Hdetails tr st'. subst tr st'.
  unfold scanImage, calculateImageChecksum.
  rewrite Hstat, Hsum.
  destruct (utils_DirExists env (FilePath t)) as [isDir e0]. simpl in Hdir. subst isDir.
  pass_step. rewrite Hfind. pass_step. rewrite Hmatch. pass_step. rewrite Hdetails.
  pass_step.
  destruct (Image_Create repo st newImage) as [st1 [i|e]].
  - destruct (zipGallery t) as [zg|].
    + pass_step.
      destruct (gallery_AddImage repo st1 (ga_ID zg) (im_ID i)) as [st2 [e|]];
        pass_eval.
    + destruct (config_GetCreateGalleriesFromFolders env) eqn:Hcfg.
      * split; [|discriminate].
        unfold associateImageWithFolderGallery. explore_pass; reflexivity.
      * split; [reflexivity|]. intros _. pass_eval.
  - pass_eval.
Qed.

(** X26. A new image outside a zip gallery, with galleries created from
    folders: after the record is created the pass looks for a gallery whose
    path is the image's folder.  When there is one, the stored image is
    added to it and no gallery is created.  When there is none, a gallery
    is created for the folder (not a zip, with the folder as its path, the
    MD5 of the path as its checksum and no modification time) and the
    image is added to the stored gallery; when that creation fails the
    image is added to nothing.  A failed lookup writes nothing. *)
Theorem scanImage_new_file_joins_folder_gallery (t : ScanTask) (st st1 : Store)
    (mt : Time) (checksum : string) (newImage i : Image) :
  Image_FindByPath repo st (FilePath t) = (None, None) ->
  image_GetFileModTime env (FilePath t) = (mt, None) ->
  fst (utils_DirExists env (FilePath t)) = false ->
  image_CalculateMD5 env (FilePath t) = (checksum, None) ->
  Image_FindByChecksum repo st checksum = (None, None) ->
  image_SetFileDetails env
    (mkImage 0%Z checksum (FilePath t) None None None
       (mkNullSQLiteTimestamp mt true) (time_Now env) (time_Now env))
  = (newImage, None) ->
  Image_Create repo st newImage = (st1, inl i) ->
  zipGallery t = None ->
  config_GetCreateGalleriesFromFolders env = true ->
  let tr := snd (run (scanImage repo env t) st) in
  let folder := filepath_Dir env (FilePath t) in
  let newGallery :=
    mkGallery 0%Z (utils_MD5FromString env folder) false (mkNullString folder true)
      (mkNullSQLiteTimestamp 0%Z false) (time_Now env) (time_Now env) in
  writeTxns tr = 2 /\
  match Gallery_FindByPath repo st1 folder with
  | (_, Some e) => writes tr = [WImageCreate newImage] /\ In (EvLog Error e) tr
  | (Some g, None) =>
      writes tr = [WImageCreate newImage; WGalleryAddImage (ga_ID g) (im_ID i)]
  | (None, None) =>
      match Gallery_Create repo st1 newGallery with
      | (_, inl g) =>
          writes tr = [WImageCreate newImage; WGalleryCreate newGallery;
                       WGalleryAddImage (ga_ID g) (im_ID i)]
      | (_, inr e) =>
          writes tr = [WImageCreate newImage; WGalleryCreate newGallery] /\
          In (EvLog Error e) tr
      end
  end.
Proof.
  intros Hfind Hstat Hdir Hsum Hmatch Hdetails Hcreate Hzip Hon tr folder newGallery.
  subst tr.
  unfold scanImage, calculateImageChecksum, associateImageWithFolderGallery.
  rewrite Hstat, Hsum, Hzip, Hon.
  destruct (utils_DirExists env (FilePath t)) as [isDir e0]. simpl in Hdir. subst isDir.
  pass_step. rewrite Hfind. pass_step. rewrite Hmatch. pass_step. rewrite Hdetails.
  pass_step. rewrite Hcreate.
  pass_step. fold folder. fold newGallery.
  destruct (Gallery_FindByPath repo st1 folder) as [[g|] [e|]].
  - pass_eval.
  - destruct (gallery_AddImage repo st1 (ga_ID g) (im_ID i)) as [st2 [e|]]; pass_eval.
  - pass_eval.
  - destruct (Gallery_Create repo st1 newGallery) as [st2 [g|e]].
    + destruct (gallery_AddImage repo st2 (ga_ID g) (im_ID i)) as [st3 [e|]]; pass_eval.
    + pass_eval.
Qed.

(** X27. Whatever the catalog, the file system and the tools answer: the
    scene pass writes scene records only, with at most one write in each
    of at most five write transactions, starts no sub-task, and creates no
    record when one exists at the path; the image pass writes image and
    gallery records only, in at most two write transactions, and creates
    no image record when one exists at the path or has the file's
    checksum. *)
Theorem scan_passes_write_their_own_records (t : ScanTask) (st : Store) :
  (let tr := snd (run (scanScene repo env t) st) in
   forallb isSceneWrite (writes tr) = true /\
   List.length (writes tr) <= writeTxns tr /\ writeTxns tr <= 5 /\
   filter isSubTask tr = [] /\
   (fst (Scene_FindByPath repo st (FilePath t)) <> None ->
    filter isCreate (writes tr) = [])) /\
  (let tr := snd (run (scanImage repo env t) st) in
   forallb (fun w => isImageWrite w || isGalleryWrite w) (writes tr) = true /\
   writeTxns tr <= 2 /\
   filter isSubTask tr = [] /\
   (fst (Image_FindByPath repo st (FilePath t)) <> None ->
    filter isCreate (writes tr) = [])).
Proof.
  split.
  - unfold scanScene, rescanScene, getFileModTime, calculateChecksum.
    explore_pass; cbn [fst snd];
      (split; [reflexivity|]); (split; [cbv -[Truncate_Second append]; lia|]); (split; [cbv -[Truncate_Second append]; lia|]);
      (split; [reflexivity|]); intros Hpath; try reflexivity;
      exfalso; apply Hpath; reflexivity.
  - unfold scanImage, rescanImage, calculateImageChecksum, associateImageWithFolderGallery.
    explore_pass; cbn [fst snd];
      (split; [reflexivity|]); (split; [cbv -[Truncate_Second append]; lia|]);
      (split; [reflexivity|]); intros Hpath; try reflexivity;
      exfalso; apply Hpath; reflexivity.
Qed.

End ScanPasses.

Lemma scan_pass_ignores_directory_witness :
  run (scanGallery memRepository folderEnv (plainTask "clips.mp4")) emptyStore
    = (tt, emptyStore, [EvReadTxn]) /\
  run (scanScene memRepository folderEnv (plainTask "clips.mp4")) emptyStore
    = (None, emptyStore, [EvReadTxn]) /\
  run (scanImage memRepository folderEnv (plainTask "clips.mp4")) emptyStore
    = (tt, emptyStore, [EvReadTxn]).
Proof.
  pose proof (scan_pass_ignores_directory MemStore memRepository folderEnv
                (plainTask "clips.mp4") emptyStore eq_refl) as [Hg [Hs Hi]].
  split; [|split].
  - exact (Hg eq_refl eq_refl).
  - exact (Hs eq_refl eq_refl).
  - exact (Hi eq_refl eq_refl).
Defined.

Lemma failed_lookup_or_stat_ends_pass_witness :
  run (scanScene lockedRepository unchangedEnv (plainTask "a.mp4")) unchangedStore
    = (None, unchangedStore, [EvReadTxn; EvLog Error databaseLocked]) /\
  run (scanImage memRepository folderEnv (plainTask "p.jpg")) unchangedStore
    = (tt, unchangedStore, [EvReadTxn; EvLog Error noSuchFile]).
Proof.
  split.
  - exact (proj1 (proj2 (failed_lookup_or_stat_ends_pass MemStore lockedRepository
                           unchangedEnv (plainTask "a.mp4") unchangedStore databaseLocked))
             None eq_refl).
  - exact (proj2 (proj2 (proj2 (proj2 (proj2
             (failed_lookup_or_stat_ends_pass MemStore memRepository folderEnv
                (plainTask "p.jpg") unchangedStore noSuchFile)))))
             (Some unchangedImage) eq_refl eq_refl).
Defined.

Lemma scanScene_new_file_creates_record_witness :
  exists newScene : Scene,
    writes (snd (run (scanScene memRepository unchangedEnv (plainTask "a.mp4")) emptyStore))
    = [WSceneCreate newScene] /\
    sc_Path newScene = "a.mp4" /\
    sc_Checksum newScene = mkNullString "" false.
Proof.
  destruct (scanScene_new_file_creates_record MemStore memRepository unchangedEnv
              (plainTask "a.mp4") emptyStore (seconds 1600000000 + 123456)%Z
              probedFile "os-a" ""
              eq_refl eq_refl eq_refl eq_refl eq_refl eq_refl eq_refl)
    as [n [_ [Hw [Hp [_ [_ [Hc _]]]]]]].
  exists n. split; [exact Hw|]. split; [exact Hp | exact Hc].
Defined.

Lemma scanScene_returns_only_created_scene_witness :
  exists newScene : Scene,
    writes (snd (run (scanScene memRepository unchangedEnv (plainTask "a.mp4")) emptyStore))
    = [WSceneCreate newScene] /\
    sc_Path newScene = "a.mp4".
Proof.
  destruct (scanScene_returns_only_created_scene MemStore memRepository unchangedEnv
              (plainTask "a.mp4") emptyStore
              (mkScene 1 (mkNullString "" false) (mkNullString "os-a" true) "a.mp4"
                 (mkNullString "a.mp4" true) (mkNullString "" false) "" (Some 60%Z)
                 (mkNullString "h264" true) (mkNullString "aac" true)
                 (mkNullString "mp4" true) (Some 1280%Z) (Some 720%Z) (Some 30%Z)
                 (Some 4000%Z) (mkNullString "1024" true)
                 (mkNullSQLiteTimestamp (seconds 1600000000) true)
                 1700000000000000000%Z 1700000000000000000%Z)
              eq_refl)
    as [n [Hw [Hp _]]].
  exists n. split; [exact Hw | exact Hp].
Defined.

Lemma scanScene_fills_missing_hash_unless_taken_witness :
  run (scanScene memRepository clashEnv (plainTask "b.mp4")) clashStore
  = (None, clashStore,
     [EvReadTxn;
      EvMakeScreenshots None "";
      EvLog Info "Calculating oshash for existing file b.mp4 ...";
      EvWriteTxn;
      EvLog Error "OSHash for file b.mp4 is the same as that of c.mp4"]).
Proof.
  exact (proj1 (scanScene_fills_missing_hash_unless_taken MemStore memRepository clashEnv
                  (plainTask "b.mp4") clashStore legacyScene (seconds 1600000000)
                  eq_refl eq_refl eq_refl eq_refl eq_refl eq_refl)
           "os-c" eq_refl eq_refl).
Defined.


Lemma scanGallery_hash_match_moves_or_reports_witness :
  writes (snd (run (scanGallery memRepository renamedZipEnv (plainTask "h.zip")) zipStore))
  = [WGalleryUpdate
       (mkGallery 1 "md5-g" true (mkNullString "h.zip" true)
          (mkNullSQLiteTimestamp (seconds 1600000000) true)
          (seconds 1600000100) (seconds 1600000100))].
Proof.
  exact (proj2 (proj2
           (scanGallery_hash_match_moves_or_reports MemStore memRepository renamedZipEnv
              (plainTask "h.zip") zipStore (seconds 1600000000) "md5-g" zipGalleryRecord
              eq_refl eq_refl eq_refl eq_refl eq_refl))).
Defined.


Lemma scanImage_new_file_creates_record_witness :
  writes (snd (run (scanImage memRepository unchangedEnv (plainTask "p.jpg")) emptyStore))
  = [WImageCreate
       (mkImage 0 "md5-p" "p.jpg" None None None
          (mkNullSQLiteTimestamp (seconds 1600000007) true)
          1700000000000000000%Z 1700000000000000000%Z)].
Proof.
  exact (proj1 (proj2 (proj2
           (scanImage_new_file_creates_record MemStore memRepository unchangedEnv
              (plainTask "p.jpg") emptyStore (seconds 1600000007) "md5-p"
              (mkImage 0 "md5-p" "p.jpg" None None None
                 (mkNullSQLiteTimestamp (seconds 1600000007) true)
                 1700000000000000000%Z 1700000000000000000%Z)
              eq_refl eq_refl eq_refl eq_refl eq_refl eq_refl) eq_refl))).
Defined.

Lemma scanImage_new_file_joins_folder_gallery_witness :
  let newImage := mkImage 0 "md5-x" "pics/a.jpg" None None None
                    (mkNullSQLiteTimestamp (seconds 1600000000) true)
                    1700000000000000000%Z 1700000000000000000%Z in
  writes (snd (run (scanImage memRepository duplicateEnv (plainTask "pics/a.jpg"))
                 emptyStore))
  = [WImageCreate newImage;
     WGalleryCreate
       (mkGallery 0 "md5:pics" false (mkNullString "pics" true)
          (mkNullSQLiteTimestamp 0%Z false) 1700000000000000000%Z 1700000000000000000%Z);
     WGalleryAddImage 2 1].
Proof.
  intros newImage.
  exact (proj2
           (scanImage_new_file_joins_folder_gallery MemStore memRepository duplicateEnv
              (plainTask "pics/a.jpg") emptyStore
              (mkMemStore []
                 [mkImage 1 "md5-x" "pics/a.jpg" None None None
                    (mkNullSQLiteTimestamp (seconds 1600000000) true)
                    1700000000000000000%Z 1700000000000000000%Z] [] [] 2)
              (seconds 1600000000) "md5-x" newImage
              (mkImage 1 "md5-x" "pics/a.jpg" None None None
                 (mkNullSQLiteTimestamp (seconds 1600000000) true)
                 1700000000000000000%Z 1700000000000000000%Z)
              eq_refl eq_refl eq_refl eq_refl eq_refl eq_refl eq_refl eq_refl eq_refl)).
Defined.

Lemma scan_passes_write_their_own_records_witness :
  filter isCreate
    (writes (snd (run (scanScene memRepository unchangedEnv (plainTask "a.mp4"))
                    unchangedStore))) = [] /\
  filter isCreate
    (writes (snd (run (scanImage memRepository unchangedEnv (plainTask "p.jpg"))
                    unchangedStore))) = [].
Proof.
  pose proof (scan_passes_write_their_own_records MemStore memRepository unchangedEnv
                (plainTask "a.mp4") unchangedStore) as [[_ [_ [_ [_ Hs]]]] _].
  pose proof (scan_passes_write_their_own_records MemStore memRepository unchangedEnv
                (plainTask "p.jpg") unchangedStore) as [_ [_ [_ [_ Hi]]]].
  split.
  - exact (Hs ltac:(discriminate)).
  - exact (Hi ltac:(discriminate)).
Defined.

(* ================================================================== *)
(** * Part VII. Package sqlite: the repository *)
(* ================================================================== *)

Section RepositoryCalls.

Variable Db : Type.
Variable tx_Get : Db -> string -> list arg -> option Z * option error.
Variable tx_Exec : Db -> string -> list arg -> Db * option error.
Variable tx_NamedExec : Db -> string -> object -> Db * option error.

Lemma exists_reads (r : repository) (id : Z) (db : Db) :
  filter isWriteCall (snd (exists_ tx_Get r id db)) = [].
Proof.
  unfold exists_. destruct (runCountQuery tx_Get db _ _) as [c err]. reflexivity.
Qed.

Lemma destroyExisting_check_reads (r : repository) (ids : list Z) (db : Db) :
  filter isWriteCall (snd (destroyExisting_check tx_Get r ids db)) = [].
Proof.
  induction ids as [|id rest IH]; [reflexivity|].
  simpl. pose proof (exists_reads r id db) as Hr.
  destruct (exists_ tx_Get r id db) as [[ex [e|]] log]; simpl in *; [exact Hr|].
  destruct ex; simpl; [|exact Hr].
  destruct (destroyExisting_check tx_Get r rest db) as [err log']. simpl in *.
  now rewrite filter_app, Hr, IH.
Qed.

Lemma destroyExisting_check_passes (r : repository) (ids : list Z) (db : Db) :
  fst (destroyExisting_check tx_Get r ids db) = None <->
  (forall id : Z, In id ids -> fst (exists_ tx_Get r id db) = (true, None)).
Proof.
  induction ids as [|id rest IH]; simpl.
  - split; [intros _ x []|reflexivity].
  - destruct (exists_ tx_Get r id db) as [[ex [e|]] log] eqn:E; simpl.
    + split; [discriminate|]. intros H. specialize (H id (or_introl eq_refl)).
      rewrite E in H. discriminate H.
    + destruct ex; simpl.
      * destruct (destroyExisting_check tx_Get r rest db) as [err log']. simpl in *.
        rewrite IH. split.
        -- intros H x [<-|Hx]; [now rewrite E | now apply H].
        -- intros H x Hx. apply H. now right.
      * split; [discriminate|]. intros H. specialize (H id (or_introl eq_refl)).
        rewrite E in H. discriminate H.
Qed.

Lemma destroy_calls (r : repository) (ids : list Z) (db : Db) :
  exists k : nat,
    k <= List.length ids /\
    snd (snd (destroy tx_Exec r ids db))
    = map (fun id => CallExec (deleteStatement r) [ArgInt id]) (firstn k ids) /\
    (fst (destroy tx_Exec r ids db) = None -> k = List.length ids) /\
    (ids <> [] -> 1 <= k).
Proof.
  revert db. induction ids as [|id rest IH]; intros db.
  - exists 0. simpl. repeat split; auto. congruence.
  - simpl. destruct (tx_Exec db (deleteStatement r) [ArgInt id]) as [db1 [e|]].
    + exists 1. simpl. repeat split; try lia. discriminate.
    + destruct (IH db1) as [k [Hk [Hlog [Hok _]]]].
      destruct (destroy tx_Exec r rest db1) as [err [db2 log]]. simpl in *.
      exists (S k). simpl. rewrite Hlog. repeat split; auto; try lia; intros H; now rewrite Hok.
Qed.

Lemma destroy_writes_only (r : repository) (ids : list Z) (db : Db) :
  filter isWriteCall (snd (snd (destroy tx_Exec r ids db)))
  = snd (snd (destroy tx_Exec r ids db)).
Proof.
  destruct (destroy_calls r ids db) as [k [_ [-> _]]].
  induction (firstn k ids) as [|x l IH]; simpl; [reflexivity | now rewrite IH].
Qed.

(** X28. Rows are confirmed before they are written.  [update] on an id
    that the existence query does not confirm (no row, or the query
    failed) returns an error and executes no statement.  [destroyExisting]
    confirms every id first: when one of them is not confirmed it returns
    an error and deletes nothing, not even the rows that do exist; when
    all are confirmed it behaves as [destroy] after the checks. *)
Theorem writes_need_confirmed_rows (r : repository) (db : Db) :
  (forall (id : Z) (obj : object) (partial : bool),
      fst (exists_ tx_Get r id db) <> (true, None) ->
      let res := update tx_Get tx_NamedExec r id obj partial db in
      fst res <> None /\ fst (snd res) = db /\ filter isWriteCall (snd (snd res)) = []) /\
  (forall (ids : list Z) (id : Z),
      In id ids ->
      fst (exists_ tx_Get r id db) <> (true, None) ->
      let res := destroyExisting tx_Get tx_Exec r ids db in
      fst res <> None /\ fst (snd res) = db /\ filter isWriteCall (snd (snd res)) = []) /\
  (forall ids : list Z,
      (forall id : Z, In id ids -> fst (exists_ tx_Get r id db) = (true, None)) ->
      let res := destroyExisting tx_Get tx_Exec r ids db in
      fst res = fst (destroy tx_Exec r ids db) /\
      fst (snd res) = fst (snd (destroy tx_Exec r ids db)) /\
      filter isWriteCall (snd (snd res)) = snd (snd (destroy tx_Exec r ids db))).
Proof.
  split; [|split].
  - intros id obj partial Hno. cbv zeta. unfold update.
    pose proof (exists_reads r id db) as Hr.
    destruct (exists_ tx_Get r id db) as [[ex [e|]] log]; simpl in *.
    + repeat split; [discriminate | exact Hr].
    + destruct ex; [congruence|]. simpl. repeat split; [discriminate | exact Hr].
  - intros ids id Hin Hno. cbv zeta. unfold destroyExisting.
    pose proof (destroyExisting_check_reads r ids db) as Hr.
    pose proof (destroyExisting_check_passes r ids db) as Hp.
    destruct (destroyExisting_check tx_Get r ids db) as [[e|] log]; simpl in *.
    + repeat split; [discriminate | exact Hr].
    + exfalso. apply Hno. now apply (proj1 Hp).
  - intros ids Hall. cbv zeta. unfold destroyExisting.
    pose proof (destroyExisting_check_reads r ids db) as Hr.
    pose proof (proj2 (destroyExisting_check_passes r ids db) Hall) as Hp.
    pose proof (destroy_writes_only r ids db) as Hw.
    destruct (destroyExisting_check tx_Get r ids db) as [err log]; simpl in *.
    subst err.
    destruct (destroy tx_Exec r ids db) as [err [db1 log1]]. simpl in *.
    repeat split. now rewrite filter_app, Hr, Hw.
Qed.

Lemma replace_loop_calls (r : joinRepository) (id : Z) (fks : list Z) (db : Db) :
  exists k : nat,
    k <= List.length fks /\
    snd (snd (joinRepository_replace_loop tx_Exec r id fks db))
    = map (fun fk => CallExec (insertStatement r) [ArgInt id; ArgInt fk]) (firstn k fks) /\
    (fst (joinRepository_replace_loop tx_Exec r id fks db) = None -> k = List.length fks).
Proof.
  revert db. induction fks as [|fk rest IH]; intros db.
  - exists 0. simpl. auto.
  - simpl. unfold joinRepository_insert.
    destruct (tx_Exec db (insertStatement r) [ArgInt id; ArgInt fk]) as [db1 [e|]].
    + exists 1. simpl. repeat split; try lia. discriminate.
    + destruct (IH db1) as [k [Hk [Hlog Hok]]].
      destruct (joinRepository_replace_loop tx_Exec r id rest db1) as [err [db2 log]].
      simpl in *. exists (S k). simpl. rewrite Hlog. repeat split; auto; try lia; intros H; now rewrite Hok.
Qed.

(** X29. The statements of [destroy] and of a join table's [replace], in
    order.  [destroy] executes one DELETE per id, in the order given, and
    stops at the first that fails.  [replace] first deletes the rows of
    the id, then inserts one row per foreign id, in the order given,
    stopping at the first statement that fails: what it executed is a
    non-empty prefix of that sequence, and the whole sequence when it
    returns nil; when the DELETE fails nothing is inserted. *)
Theorem replace_deletes_then_inserts_in_order (r : joinRepository) (id : Z)
    (fks : list Z) (db : Db) :
  let delete := CallExec (deleteStatement (jr_repository r)) [ArgInt id] in
  let inserts := map (fun fk => CallExec (insertStatement r) [ArgInt id; ArgInt fk]) fks in
  let res := joinRepository_replace tx_Exec r id fks db in
  (exists k : nat,
      1 <= k <= S (List.length fks) /\
      snd (snd res) = firstn k (delete :: inserts) /\
      (fst res = None -> snd (snd res) = delete :: inserts)) /\
  (snd (tx_Exec db (deleteStatement (jr_repository r)) [ArgInt id]) <> None ->
   snd (snd res) = [delete] /\ fst res <> None) /\
  (forall ids : list Z,
      exists k : nat,
        k <= List.length ids /\
        snd (snd (destroy tx_Exec (jr_repository r) ids db))
        = map (fun x => CallExec (deleteStatement (jr_repository r)) [ArgInt x])
              (firstn k ids) /\
        (fst (destroy tx_Exec (jr_repository r) ids db) = None -> k = List.length ids)).
Proof.
  cbv zeta. split; [|split].
  - unfold joinRepository_replace. simpl.
    destruct (tx_Exec db (deleteStatement (jr_repository r)) [ArgInt id]) as [db1 [e|]].
    + exists 1. simpl. repeat split; try lia. discriminate.
    + destruct (replace_loop_calls r id fks db1) as [k [Hk [Hlog Hok]]].
      destruct (joinRepository_replace_loop tx_Exec r id fks db1) as [err [db2 log]].
      simpl in *. exists (S k). rewrite Hlog. simpl. repeat split; try lia.
      * now rewrite firstn_map.
      * intros H. rewrite (Hok H), firstn_all. reflexivity.
  - unfold joinRepository_replace. simpl.
    destruct (tx_Exec db (deleteStatement (jr_repository r)) [ArgInt id]) as [db1 [e|]];
      simpl; intros H; [|congruence].
    split; [reflexivity | discriminate].
  - intros ids. destruct (destroy_calls (jr_repository r) ids db) as [k [Hk [Hlog [Hok _]]]].
    exists k. auto.
Qed.

End RepositoryCalls.

Lemma fieldKey_not_id_prefixed (obj : object) :
  listKeys_query obj true = map (fun k => ":" ++ k) (listKeys_query obj false).
Proof.
  induction obj as [|f rest IH]; [reflexivity|].
  simpl. destruct (fieldKey f =? "id"); [exact IH|]. simpl. now rewrite IH.
Qed.

(** X30. The column lists that [insert] and [update] build from a struct
    agree.  The VALUES list of an INSERT names, position by position, the
    columns of its column list with a colon in front; the [id] column is
    in neither; a full UPDATE assigns exactly the columns an INSERT lists,
    each from the parameter of its own name; and a partial UPDATE assigns
    exactly those of them whose field is not nil. *)
Theorem insert_and_update_columns_agree (obj : object) :
  listKeys obj true = Join (map (fun k => ":" ++ k) (listKeys_query obj false)) ", " /\
  ~ In "id" (listKeys_query obj false) /\
  updateSet obj false
  = Join (map (fun k => k ++ "=:" ++ k) (listKeys_query obj false)) ", " /\
  updateSet obj true
  = updateSet (filter (fun f => negb (sf_isNil f)) obj) false /\
  List.length (listKeys_query obj false)
  = List.length (filter (fun f => negb (fieldKey f =? "id")) obj).
Proof.
  unfold listKeys, updateSet. rewrite fieldKey_not_id_prefixed.
  split; [reflexivity|]. split; [|split; [|split]].
  - induction obj as [|f rest IH]; simpl; [tauto|].
    destruct (fieldKey f =? "id") eqn:E; [exact IH|].
    simpl. intros [H|H]; [|now apply IH].
    rewrite H in E. vm_compute in E. discriminate E.
  - f_equal. induction obj as [|f rest IH]; [reflexivity|].
    simpl. destruct (fieldKey f =? "id"); [exact IH|]. simpl. now rewrite IH.
  - f_equal. induction obj as [|f rest IH]; [reflexivity|].
    simpl. destruct (sf_isNil f); simpl; destruct (fieldKey f =? "id"); simpl;
      rewrite ?IH; reflexivity.
  - induction obj as [|f rest IH]; [reflexivity|].
    simpl. destruct (fieldKey f =? "id"); simpl; now rewrite IH.
Qed.

Lemma writes_need_confirmed_rows_witness :
  let res := destroyExisting rows_Get rows_Exec tagsTable [1; 2; 9]%Z [1; 2; 3]%Z in
  fst res <> None /\ fst (snd res) = [1; 2; 3]%Z /\
  filter isWriteCall (snd (snd res)) = [].
Proof.
  exact (proj1 (proj2 (writes_need_confirmed_rows rowsDb rows_Get rows_Exec rows_NamedExec
                         tagsTable [1; 2; 3]%Z))
           [1; 2; 9]%Z 9%Z ltac:(simpl; tauto) ltac:(discriminate)).
Defined.

Lemma replace_deletes_then_inserts_in_order_witness :
  snd (snd (joinRepository_replace rows_Exec scenesTags 7 [4; 5]%Z [7; 7]%Z))
  = [CallExec "DELETE FROM scenes_tags WHERE scene_id = ?" [ArgInt 7];
     CallExec "INSERT INTO scenes_tags (scene_id, tag_id) VALUES (?, ?)" [ArgInt 7; ArgInt 4];
     CallExec "INSERT INTO scenes_tags (scene_id, tag_id) VALUES (?, ?)" [ArgInt 7; ArgInt 5]].
Proof.
  destruct (proj1 (replace_deletes_then_inserts_in_order rowsDb rows_Exec scenesTags 7
                     [4; 5]%Z [7; 7]%Z)) as [k [_ [_ H]]].
  exact (H eq_refl).
Defined.
